(** * Qlik2Review: retry policy, usage accounting and the batch loop

    A shallow embedding of three parts of the extension:
    - [lib/retry] (error classification, backoff, [withRetry]),
    - [lib/token-tracker] (pricing lookup, cost, usage counters),
    - the window loop of [analyzeSheet] in [lib/analyzer].

    JavaScript numbers are idealised: token counts are integers ([Z]),
    prices are rationals ([Q]) and delays are real numbers ([R]), so
    rounding, [NaN] and infinities of IEEE doubles are outside the model.
    Strings are Rocq strings of 8-bit characters; [toLowerCase] acts on
    the ASCII letters. *)

From Stdlib Require Import String Ascii Bool Arith ZArith QArith Lia List.
From Stdlib Require Import Permutation DecimalString.
From Stdlib Require Import Reals Lra.
Import ListNotations.

Set Implicit Arguments.

(** ** JavaScript strings *)

Module JsString.

Local Open Scope string_scope.

Definition toLowerAscii (c : ascii) : ascii :=
  let n := nat_of_ascii c in
  if (65 <=? n)%nat && (n <=? 90)%nat then ascii_of_nat (n + 32) else c.

(** [String.prototype.toLowerCase], on ASCII. *)
Fixpoint toLowerCase (s : string) : string :=
  match s with
  | EmptyString => EmptyString
  | String c s' => String (toLowerAscii c) (toLowerCase s')
  end.

(** [s.includes(pat)], also [s.indexOf(pat) !== -1]. *)
Fixpoint includes (s pat : string) : bool :=
  String.prefix pat s ||
  match s with
  | EmptyString => false
  | String _ s' => includes s' pat
  end.

(** A string used as a condition: only [''] is falsy. *)
Definition truthy (s : string) : bool :=
  match s with EmptyString => false | _ => true end.

Definition isWhiteSpace (c : ascii) : bool :=
  let n := nat_of_ascii c in
  ((9 <=? n)%nat && (n <=? 13)%nat) || (n =? 32)%nat.

Fixpoint skipWhiteSpace (s : string) : string :=
  match s with
  | String c s' => if isWhiteSpace c then skipWhiteSpace s' else s
  | EmptyString => EmptyString
  end.

Definition digitValue (c : ascii) : option Z :=
  let n := nat_of_ascii c in
  if (48 <=? n)%nat && (n <=? 57)%nat then Some (Z.of_nat (n - 48)) else None.

(** The longest prefix of decimal digits, read left to right;
    [None] when the string does not start with a digit. *)
Fixpoint readDigits (acc : option Z) (s : string) : option Z :=
  match s with
  | EmptyString => acc
  | String c s' =>
      match digitValue c with
      | Some d =>
          readDigits (Some (10 * match acc with Some a => a | None => 0 end + d)%Z) s'
      | None => acc
      end
  end.

(** [parseInt(s, 10)]; [None] is [NaN]. *)
Definition parseInt10 (s : string) : option Z :=
  match skipWhiteSpace s with
  | String "-" s' => option_map Z.opp (readDigits None s')
  | String "+" s' => readDigits None s'
  | s' => readDigits None s'
  end.

(** [String(n)] for a non-negative integer. *)
Definition ofNat (n : nat) : string := NilEmpty.string_of_uint (Nat.to_uint n).

End JsString.

(** ** lib/retry *)

Module Retry.

Import JsString.
Local Open Scope string_scope.

Inductive ErrorType : Type :=
| AUTH_ERROR
| RATE_LIMIT
| NETWORK_ERROR
| SERVER_ERROR
| VALIDATION_ERROR
| TIMEOUT_ERROR
| UNKNOWN_ERROR.

Definition ErrorType_eqb (a b : ErrorType) : bool :=
  match a, b with
  | AUTH_ERROR, AUTH_ERROR
  | RATE_LIMIT, RATE_LIMIT
  | NETWORK_ERROR, NETWORK_ERROR
  | SERVER_ERROR, SERVER_ERROR
  | VALIDATION_ERROR, VALIDATION_ERROR
  | TIMEOUT_ERROR, TIMEOUT_ERROR
  | UNKNOWN_ERROR, UNKNOWN_ERROR => true
  | _, _ => false
  end.

(** The part of a fetch [Response] the retry code reads:
    [response.status] and [response.headers.get(name)]. *)
Record Response : Type := {
  status : Z;
  headers_get : string -> option string
}.

(** An [Error] object: its [message] and the optional [response]
    that [fetchWithRetry] attaches. *)
Record JsError : Type := {
  message : string;
  response : option Response
}.

Definition classifyStatus (st : Z) : option ErrorType :=
  if (st =? 401)%Z || (st =? 403)%Z then Some AUTH_ERROR
  else if (st =? 429)%Z then Some RATE_LIMIT
  else if (st =? 400)%Z then Some VALIDATION_ERROR
  else if (500 <=? st)%Z && (st <? 600)%Z then Some SERVER_ERROR
  else None.

Definition classifyMessage (msg : string) : ErrorType :=
  let message := toLowerCase msg in
  if includes message "timeout" || includes message "timed out" then TIMEOUT_ERROR
  else if includes message "network" || includes message "fetch"
          || includes message "connection" then NETWORK_ERROR
  else if includes message "api key" || includes message "unauthorized"
          || includes message "authentication" then AUTH_ERROR
  else if includes message "rate" || includes message "limit"
          || includes message "quota" then RATE_LIMIT
  else UNKNOWN_ERROR.

Definition classifyError (error : JsError) (response : option Response) : ErrorType :=
  match match response with
        | Some r => classifyStatus (status r)
        | None => None
        end with
  | Some t => t
  | None => classifyMessage (message error)
  end.

Definition retryableTypes : list ErrorType :=
  [RATE_LIMIT; NETWORK_ERROR; SERVER_ERROR; TIMEOUT_ERROR].

Definition isRetryable (errorType : ErrorType) : bool :=
  existsb (ErrorType_eqb errorType) retryableTypes.

(** *** Backoff *)

(** [getRetryDelay(attempt, baseDelay, maxDelay)]; [u] is the sample
    that the call draws from [Math.random()]. *)
Definition getRetryDelay (u : R) (attempt : nat) (baseDelay maxDelay : R) : R :=
  let exponentialDelay := (baseDelay * 2 ^ attempt)%R in
  let jitter := (exponentialDelay * u * (3 / 10))%R in
  let totalDelay := (exponentialDelay + jitter)%R in
  Rmin totalDelay maxDelay.

(** The mean of [getRetryDelay] over the jitter sample, uniform on the
    unit interval. *)
Definition expectedDelay (attempt : nat) (baseDelay maxDelay : R)
    (pr : Riemann_integrable (fun u => getRetryDelay u attempt baseDelay maxDelay) 0 1) : R :=
  RiemannInt pr.

Section ParseRetryAfter.

(** [new Date(s).getTime()]: the host's date parser, [None] for an
    invalid date. *)
Variable Date_parse : string -> option Z.
(** [Date.now()] at the time of the call. *)
Variable Date_now : Z.

Definition parseRetryAfter (response : Response) : option Z :=
  match headers_get response "retry-after" with
  | None => None
  | Some retryAfter =>
      if negb (truthy retryAfter) then None
      else
        match parseInt10 retryAfter with
        | Some seconds => Some (seconds * 1000)%Z
        | None =>
            match Date_parse retryAfter with
            | Some time => Some (Z.max 0 (time - Date_now))
            | None => None
            end
        end
  end.

End ParseRetryAfter.

(** *** withRetry *)

Inductive Settled (V : Type) : Type :=
| Resolved (v : V)
| Rejected (e : JsError).
Arguments Resolved {V} v.
Arguments Rejected {V} e.

(** What a run of [withRetry] does, in order. The [onRetry] callback
    and the logger are observers: they return normally and appear in
    the trace only. *)
Inductive Event : Type :=
| Call (attempt : nat)
| OnRetry (attempt : nat) (error : JsError) (delay : R)
| Sleep (ms : R).

(** [Thrown None] is [throw lastError] with [lastError] still
    [undefined]. *)
Inductive Outcome (V : Type) : Type :=
| Returned (v : V)
| Thrown (e : option JsError).
Arguments Returned {V} v.
Arguments Thrown {V} e.

(** The retry options; [None] is a missing property. [maxRetries] is a
    number of retries, so a natural number. *)
Record Options : Type := {
  opt_maxRetries : option nat;
  opt_baseDelay : option R;
  opt_maxDelay : option R
}.

(** [x || d] on an optional number: [undefined] and [0] give [d]. *)
Definition orDefault (x : option R) (d : R) : R :=
  match x with
  | Some v => if Req_dec_T v 0 then d else v
  | None => d
  end.

Section WithRetry.

Variable V : Type.
(** [fn attempt] is how the call made by attempt [attempt] settles. *)
Variable fn : nat -> Settled V.
(** [random attempt] is the [Math.random()] sample drawn while the
    delay after attempt [attempt] is computed. *)
Variable random : nat -> R.
Variable Date_parse : string -> option Z.
(** [Date.now()] while the delay after a given attempt is computed. *)
Variable Date_now : nat -> Z.

Variables (maxRetries : nat) (baseDelay maxDelay : R).

(** The delay slept after a failed attempt. In
    [parseRetryAfter(lastResponse) || getRetryDelay(...)] the left
    operand is discarded when it is [null] or the number [0]. *)
Definition retryDelay (attempt : nat) (errorType : ErrorType)
    (lastResponse : option Response) : R :=
  match (if ErrorType_eqb errorType RATE_LIMIT then lastResponse else None) with
  | Some r =>
      match parseRetryAfter Date_parse (Date_now attempt) r with
      | Some ms =>
          if (ms =? 0)%Z
          then getRetryDelay (random attempt) attempt (baseDelay * 2) maxDelay
          else IZR ms
      | None => getRetryDelay (random attempt) attempt (baseDelay * 2) maxDelay
      end
  | None => getRetryDelay (random attempt) attempt baseDelay maxDelay
  end.

(** The [for] loop; [remaining] counts the iterations left, that is
    [maxRetries + 1 - attempt], and the loop test
    [attempt <= maxRetries] fails when it reaches zero. *)
Fixpoint attempts (remaining attempt : nat) (lastError : option JsError)
    : list Event * Outcome V :=
  match remaining with
  | O => ([], Thrown lastError)
  | S remaining' =>
      match fn attempt with
      | Resolved v => ([Call attempt], Returned v)
      | Rejected error =>
          let lastResponse := response error in
          let errorType := classifyError error lastResponse in
          if (attempt =? maxRetries)%nat || negb (isRetryable errorType)
          then ([Call attempt], Thrown (Some error))
          else
            let delay := retryDelay attempt errorType lastResponse in
            let (rest, out) := attempts remaining' (S attempt) (Some error) in
            (Call attempt :: OnRetry attempt error delay :: Sleep delay :: rest, out)
      end
  end.

End WithRetry.

Definition withRetry (V : Type) (fn : nat -> Settled V) (random : nat -> R)
    (Date_parse : string -> option Z) (Date_now : nat -> Z)
    (options : Options) : list Event * Outcome V :=
  let maxRetries := match opt_maxRetries options with Some n => n | None => 3%nat end in
  let baseDelay := orDefault (opt_baseDelay options) 1000 in
  let maxDelay := orDefault (opt_maxDelay options) 30000 in
  attempts fn random Date_parse Date_now maxRetries baseDelay maxDelay
           (S maxRetries) 0 None.

Definition isCall (e : Event) : bool :=
  match e with Call _ => true | _ => false end.

Definition callCount (tr : list Event) : nat := length (filter isCall tr).

Fixpoint sleepsOf (tr : list Event) : list R :=
  match tr with
  | [] => []
  | Sleep ms :: tr' => ms :: sleepsOf tr'
  | _ :: tr' => sleepsOf tr'
  end.

End Retry.

(** ** lib/token-tracker *)

Module TokenTracker.

Import JsString.
Local Open Scope string_scope.
Local Open Scope Q_scope.

Record Pricing : Type := { input : Q; output : Q }.

(** An object literal read as a table: its own keys in insertion order,
    which is the order of [for ... in] and of [Object.keys]. Properties
    inherited from [Object.prototype] are not part of the table. *)
Definition Table (A : Type) : Type := list (string * A).

Fixpoint lookup (A : Type) (key : string) (t : Table A) : option A :=
  match t with
  | [] => None
  | (k, v) :: t' => if String.eqb key k then Some v else lookup key t'
  end.

(** Pricing per 1M tokens. *)
Definition PRICING : Table (Table Pricing) :=
  [ ("openai",
      [ ("gpt-4o-mini", {| input := 15 # 100; output := 60 # 100 |});
        ("gpt-4o", {| input := 250 # 100; output := 1000 # 100 |});
        ("gpt-4-turbo", {| input := 1000 # 100; output := 3000 # 100 |});
        ("gpt-3.5-turbo", {| input := 50 # 100; output := 150 # 100 |}) ]);
    ("anthropic",
      [ ("claude-3-haiku-20240307", {| input := 25 # 100; output := 125 # 100 |});
        ("claude-3-5-sonnet-20241022", {| input := 300 # 100; output := 1500 # 100 |});
        ("claude-3-sonnet-20240229", {| input := 300 # 100; output := 1500 # 100 |});
        ("claude-3-opus-20240229", {| input := 1500 # 100; output := 7500 # 100 |}) ]);
    ("gemini",
      [ ("gemini-1.5-flash", {| input := 75 # 1000; output := 30 # 100 |});
        ("gemini-1.5-pro", {| input := 125 # 100; output := 500 # 100 |});
        ("gemini-pro", {| input := 50 # 100; output := 150 # 100 |}) ]) ].

Definition DEFAULT_PRICING : Pricing := {| input := 50 # 100; output := 150 # 100 |}.

(** The [for (key in providerPricing)] scan of [getPricing]. *)
Fixpoint partialMatch (model : string) (providerPricing : Table Pricing) : option Pricing :=
  match providerPricing with
  | [] => None
  | (key, p) :: rest =>
      if includes model key || includes key model then Some p
      else partialMatch model rest
  end.

(** [getPricing(provider, model)] for strings that name no inherited
    property, where [table[key]] reads the table alone. What the
    function does on every string is [getPricingValue] below. *)
Definition getPricing (provider model : string) : Pricing :=
  match (if truthy provider then lookup provider PRICING else None) with
  | None => DEFAULT_PRICING
  | Some providerPricing =>
      match (if truthy model then lookup model providerPricing else None) with
      | Some p => p
      | None =>
          match (if truthy model then partialMatch model providerPricing else None) with
          | Some p => p
          | None =>
              match providerPricing with
              | (_, p) :: _ => p
              | [] => DEFAULT_PRICING
              end
          end
      end
  end.

(** [calculateCost], on the same strings as [getPricing]. *)
Definition calculateCost (provider model : string) (inputTokens outputTokens : Q) : Q :=
  let pricing := getPricing provider model in
  let inputCost := (inputTokens / 1000000) * input pricing in
  let outputCost := (outputTokens / 1000000) * output pricing in
  inputCost + outputCost.

(** The running totals of one analysis. *)
Record UsageCounters : Type := {
  inputTokens : Z;
  outputTokens : Z;
  totalTokens : Z;
  estimatedCost : Q
}.

(** The usage a provider reports for one call; a field may be missing. *)
Record Usage : Type := {
  u_inputTokens : option Z;
  u_outputTokens : option Z;
  u_totalTokens : option Z
}.

Definition createEmptyUsage : UsageCounters :=
  {| inputTokens := 0; outputTokens := 0; totalTokens := 0; estimatedCost := 0 |}.

(** [x || d] on an optional integer: [undefined] and [0] give [d]. *)
Definition orElse (x : option Z) (d : Z) : Z :=
  match x with
  | Some v => if (v =? 0)%Z then d else v
  | None => d
  end.

(** The three assignments of [addUsage]. [read] is how the [usage]
    argument is seen from the current contents of [total]: a constant
    when the two are distinct objects, the totals themselves when the
    caller passes the same object twice. *)
Definition addUsageSteps (read : UsageCounters -> Usage) (total : UsageCounters)
    : UsageCounters :=
  let t1 :=
    {| inputTokens := (inputTokens total + orElse (u_inputTokens (read total)) 0)%Z;
       outputTokens := outputTokens total;
       totalTokens := totalTokens total;
       estimatedCost := estimatedCost total |} in
  let t2 :=
    {| inputTokens := inputTokens t1;
       outputTokens := (outputTokens t1 + orElse (u_outputTokens (read t1)) 0)%Z;
       totalTokens := totalTokens t1;
       estimatedCost := estimatedCost t1 |} in
  {| inputTokens := inputTokens t2;
     outputTokens := outputTokens t2;
     totalTokens :=
       (totalTokens t2 +
        orElse (u_totalTokens (read t2))
               (orElse (u_inputTokens (read t2)) 0 + orElse (u_outputTokens (read t2)) 0))%Z;
     estimatedCost := estimatedCost t2 |}.

(** [addUsage(total, usage)]; [None] is a [null] or absent [usage]. *)
Definition addUsage (total : UsageCounters) (usage : option Usage) : UsageCounters :=
  match usage with
  | None => total
  | Some u => addUsageSteps (fun _ => u) total
  end.

(** The counters read as a [usage] argument. *)
Definition asUsage (t : UsageCounters) : Usage :=
  {| u_inputTokens := Some (inputTokens t);
     u_outputTokens := Some (outputTokens t);
     u_totalTokens := Some (totalTokens t) |}.

(** [addUsage(total, total)]. *)
Definition addUsageAliased (total : UsageCounters) : UsageCounters :=
  addUsageSteps asUsage total.

End TokenTracker.

(** ** lib/analyzer: [analyzeSheet] *)

Module Analyzer.

Import JsString.
Import TokenTracker.
Local Open Scope string_scope.

Definition JsError := Retry.JsError.
Definition Settled := Retry.Settled.

(** The fields of a sheet object that the batch loop reads. *)
Record SheetObject : Type := {
  obj_id : string;
  obj_title : string;
  obj_type : string;
  obj_showHoverMenu : bool
}.

(** What [analyzeObject] and [generateSheetSummary] resolve to. *)
Record AnalysisResult : Type := {
  text : string;
  usage : option Usage
}.

(** The [data] object built for one sheet object. [error] is [true]
    when the property is present; [s_usage = None] is a [usage] that
    is [null] or has been deleted. *)
Record ObjectSummary : Type := {
  s_id : string;
  s_title : string;
  s_type : string;
  summary : string;
  s_showHoverMenu : bool;
  error : bool;
  timestamp : string;
  s_usage : option Usage
}.

Record IndexedResult : Type := {
  index : nat;
  data : ObjectSummary
}.

(** [delete data.usage]. *)
Definition deleteUsage (d : ObjectSummary) : ObjectSummary :=
  {| s_id := s_id d; s_title := s_title d; s_type := s_type d;
     summary := summary d; s_showHoverMenu := s_showHoverMenu d;
     error := error d; timestamp := timestamp d; s_usage := None |}.

(** *** Arrays *)

(** A JavaScript array with holes. *)
Definition JsArray (A : Type) : Type := list (option A).

(** [a[i] = v]: an index past the end extends the array with holes. *)
Fixpoint arraySet (A : Type) (a : JsArray A) (i : nat) (v : A) : JsArray A :=
  match i, a with
  | O, [] => [Some v]
  | O, _ :: a' => Some v :: a'
  | S i', [] => None :: arraySet [] i' v
  | S i', x :: a' => x :: arraySet a' i' v
  end.

(** [a.filter(function(s) { return s; })] on an array of objects:
    holes are skipped, objects are kept. *)
Fixpoint compact (A : Type) (a : JsArray A) : list A :=
  match a with
  | [] => []
  | Some v :: a' => v :: compact a'
  | None :: a' => compact a'
  end.

(** [l.slice(from, to)] for [from <= to]. *)
Definition slice (A : Type) (l : list A) (from to : nat) : list A :=
  firstn (to - from) (skipn from l).

(** [l.map(function(x, i) { return f(x, i0 + i); })]. *)
Fixpoint mapFrom (A B : Type) (i0 : nat) (f : A -> nat -> B) (l : list A) : list B :=
  match l with
  | [] => []
  | x :: l' => f x i0 :: mapFrom (S i0) f l'
  end.

Definition isSome (A : Type) (o : option A) : bool :=
  match o with Some _ => true | None => false end.

(** [Promise.all(promises)] where promise [i] fulfils with
    [promises[i]] and the promises settle in the order [order]: each
    settlement stores its value in the slot of its promise, and the
    result is delivered once every slot is filled. [None]: some promise
    never settles, so neither does the result. *)
Definition promiseAll (A : Type) (promises : list A) (order : list nat) : option (list A) :=
  let values :=
    fold_left
      (fun values i =>
         match nth_error promises i with
         | Some v => arraySet values i v
         | None => values
         end)
      order (repeat None (length promises)) in
  if forallb (@isSome A) values then Some (compact values) else None.

(** *** The analysis *)

(** What the analysis does, in order. The [onProgress] callback and the
    logger are observers: they return normally and appear in the trace
    only. *)
Inductive Event : Type :=
| Progress (msg : string)
| WorkerCalled (index : nat)
| WorkerSettled (index : nat)
| SheetSummaryCalled.

(** [Never]: the promise stays pending. *)
Inductive Result (A : Type) : Type :=
| Return (a : A)
| Throw (e : JsError)
| Never.
Arguments Return {A} a.
Arguments Throw {A} e.
Arguments Never {A}.

Definition Error (msg : string) : JsError :=
  {| Retry.message := msg; Retry.response := None |}.

Definition cancelled : JsError := Error "Analysis cancelled".

Record Config : Type := {
  provider : string;
  model : string
}.

Definition providers : list string := ["openai"; "anthropic"; "gemini"].

(** The variables of [analyzeSheet] that the loop updates; [polls]
    counts the reads of [cancelToken.cancelled] made so far. *)
Record LoopState : Type := {
  objectSummaries : JsArray ObjectSummary;
  totalUsage : UsageCounters;
  completedCount : nat;
  polls : nat
}.

Record SheetAnalysis : Type := {
  sheetSummary : string;
  r_objectSummaries : list ObjectSummary;
  analyzedObjects : option (list SheetObject);
  r_usage : option UsageCounters;
  r_timestamp : string
}.

Section AnalyzeSheet.

(** [cancelToken k] is what the [k]-th read of
    [cancelToken.cancelled] sees; the flag is set from outside. *)
Variable cancelToken : nat -> bool.
(** How [self.analyzeObject] settles for the object at a given
    index. *)
Variable analyzeObject : SheetObject -> nat -> Settled AnalysisResult.
(** [new Date().toISOString()] when the result for a given index is
    built, and at the end of the analysis. *)
Variable timestampAt : nat -> string.
Variable timestampEnd : string.
(** [schedule batchStart] lists the positions of the window that
    starts at [batchStart] in the order in which their calls settle. *)
Variable schedule : nat -> list nat.

Definition analyzeWithErrorHandling (obj : SheetObject) (index : nat) : IndexedResult :=
  match analyzeObject obj index with
  | Retry.Resolved result =>
      {| index := index;
         data := {| s_id := obj_id obj; s_title := obj_title obj; s_type := obj_type obj;
                    summary := text result;
                    s_showHoverMenu := obj_showHoverMenu obj;
                    error := false;
                    timestamp := timestampAt index;
                    s_usage := usage result |} |}
  | Retry.Rejected err =>
      {| index := index;
         data := {| s_id := obj_id obj; s_title := obj_title obj; s_type := obj_type obj;
                    summary := "Analysis failed: " ++ Retry.message err;
                    s_showHoverMenu := obj_showHoverMenu obj;
                    error := true;
                    timestamp := timestampAt index;
                    s_usage := None |} |}
  end.

(** The body of [batchResults.forEach]. *)
Definition storeResult (st : LoopState) (result : IndexedResult) : LoopState :=
  {| objectSummaries :=
       arraySet (objectSummaries st) (index result) (deleteUsage (data result));
     totalUsage :=
       match s_usage (data result) with
       | Some u => addUsage (totalUsage st) (Some u)
       | None => totalUsage st
       end;
     completedCount := S (completedCount st);
     polls := polls st |}.

Section Batches.

Variable BATCH_SIZE : nat.
Variable filteredObjects : list SheetObject.

(** The [for (batchStart = 0; ...; batchStart += BATCH_SIZE)] loop.
    [fuel] bounds the number of loop tests; running out of it is a
    loop that does not end. *)
Fixpoint batches (fuel batchStart : nat) (st : LoopState)
    : list Event * Result LoopState :=
  match fuel with
  | O => ([], Never)
  | S fuel' =>
      if (batchStart <? length filteredObjects)%nat then
        if cancelToken (polls st) then ([], Throw cancelled)
        else
          let st := {| objectSummaries := objectSummaries st;
                       totalUsage := totalUsage st;
                       completedCount := completedCount st;
                       polls := S (polls st) |} in
          let batchEnd := Nat.min (batchStart + BATCH_SIZE) (length filteredObjects) in
          let batch := slice filteredObjects batchStart batchEnd in
          let progressMsg :=
            "Analyzing " ++ ofNat (batchStart + 1) ++ "-" ++ ofNat batchEnd
              ++ " of " ++ ofNat (length filteredObjects) in
          let batchPromises := mapFrom batchStart analyzeWithErrorHandling batch in
          let started :=
            Progress progressMsg :: map (fun r => WorkerCalled (index r)) batchPromises in
          let settled :=
            map (fun i => WorkerSettled (batchStart + i)) (schedule batchStart) in
          match promiseAll batchPromises (schedule batchStart) with
          | None => ((started ++ settled)%list, Never)
          | Some batchResults =>
              let st := fold_left storeResult batchResults st in
              let done :=
                Progress ("Completed " ++ ofNat (completedCount st) ++ "/"
                            ++ ofNat (length filteredObjects) ++ " objects") in
              let (rest, r) := batches fuel' (batchStart + BATCH_SIZE) st in
              ((started ++ settled ++ done :: rest)%list, r)
          end
      else ([], Return st)
  end.

End Batches.

Variable filterObjects : list SheetObject -> list SheetObject.
(** How [engineService.getSheetObjects] and
    [engineService.getCurrentSelections] settle. *)
Variable getSheetObjects : Settled (list SheetObject).
Variable getCurrentSelections : Settled unit.
Variable generateSheetSummary :
  list SheetObject -> list ObjectSummary -> Settled AnalysisResult.

Definition BATCH_SIZE : nat := 3.

Definition analyzeSheet (config : Config) : list Event * Result SheetAnalysis :=
  let ev0 := [Progress "Fetching sheet objects..."] in
  match getSheetObjects with
  | Retry.Rejected e => (ev0, Throw e)
  | Retry.Resolved allObjects =>
      if cancelToken 0 then (ev0, Throw cancelled)
      else
        let filteredObjects := filterObjects allObjects in
        if (length filteredObjects =? 0)%nat then
          (ev0, Return {| sheetSummary := "No analyzable objects found on this sheet.";
                          r_objectSummaries := [];
                          analyzedObjects := None;
                          r_usage := None;
                          r_timestamp := timestampEnd |})
        else
          let ev1 := (ev0 ++ [Progress "Getting current selections..."])%list in
          match getCurrentSelections with
          | Retry.Rejected e => (ev1, Throw e)
          | Retry.Resolved _ =>
              if cancelToken 1 then (ev1, Throw cancelled)
              else if negb (existsb (String.eqb (provider config)) providers) then
                (ev1, Throw (Error ("Unknown AI provider: " ++ provider config)))
              else
                let st0 := {| objectSummaries := [];
                              totalUsage := createEmptyUsage;
                              completedCount := 0;
                              polls := 2 |} in
                match batches BATCH_SIZE filteredObjects
                              (S (length filteredObjects)) 0 st0 with
                | (ev2, Never) => ((ev1 ++ ev2)%list, Never)
                | (ev2, Throw e) => ((ev1 ++ ev2)%list, Throw e)
                | (ev2, Return st) =>
                    let objectSummaries := compact (objectSummaries st) in
                    if cancelToken (polls st) then ((ev1 ++ ev2)%list, Throw cancelled)
                    else
                      let ev3 :=
                        (ev1 ++ ev2 ++ [Progress "Generating sheet summary...";
                                        SheetSummaryCalled])%list in
                      match generateSheetSummary filteredObjects objectSummaries with
                      | Retry.Rejected e => (ev3, Throw e)
                      | Retry.Resolved sheetResult =>
                          let total :=
                            match usage sheetResult with
                            | Some u => addUsage (totalUsage st) (Some u)
                            | None => totalUsage st
                            end in
                          let total :=
                            {| inputTokens := inputTokens total;
                               outputTokens := outputTokens total;
                               totalTokens := totalTokens total;
                               estimatedCost :=
                                 calculateCost (provider config) (model config)
                                   (inject_Z (inputTokens total))
                                   (inject_Z (outputTokens total)) |} in
                          (ev3, Return {| sheetSummary := text sheetResult;
                                          r_objectSummaries := objectSummaries;
                                          analyzedObjects := Some filteredObjects;
                                          r_usage := Some total;
                                          r_timestamp := timestampEnd |})
                      end
                end
          end
  end.

End AnalyzeSheet.

Definition workerCalls (tr : list Event) : list nat :=
  flat_map (fun e => match e with WorkerCalled i => [i] | _ => [] end) tr.

End Analyzer.

(** * The stated behaviour, for comparison with the code *)

Module RetrySpec.

Import JsString.
Import Retry.
Local Open Scope string_scope.

(** The classification order as a rule table: status rules first,
    then the message rules from top to bottom, then the default. *)
Definition statusRule (st : Z) : option ErrorType :=
  if existsb (Z.eqb st) [401; 403]%Z then Some AUTH_ERROR
  else if (st =? 429)%Z then Some RATE_LIMIT
  else if (st =? 400)%Z then Some VALIDATION_ERROR
  else if (500 <=? st)%Z && (st <=? 599)%Z then Some SERVER_ERROR
  else None.

Definition messageRules : list (list string * ErrorType) :=
  [ (["timeout"; "timed out"], TIMEOUT_ERROR);
    (["network"; "fetch"; "connection"], NETWORK_ERROR);
    (["api key"; "unauthorized"; "authentication"], AUTH_ERROR);
    (["rate"; "limit"; "quota"], RATE_LIMIT) ].

Fixpoint firstRule (text : string) (rules : list (list string * ErrorType)) : ErrorType :=
  match rules with
  | [] => UNKNOWN_ERROR
  | (patterns, c) :: rules' =>
      if existsb (includes text) patterns then c else firstRule text rules'
  end.

Definition classify_spec (error : JsError) (response : option Response) : ErrorType :=
  match option_map status response with
  | Some st =>
      match statusRule st with
      | Some c => c
      | None => firstRule (toLowerCase (message error)) messageRules
      end
  | None => firstRule (toLowerCase (message error)) messageRules
  end.

Definition maxRetriesOf (options : Options) : nat :=
  match opt_maxRetries options with Some n => n | None => 3%nat end.

(** The call of attempt [attempt] fails with an error that
    [withRetry] retries. *)
Definition retryableFailure (V : Type) (fn : nat -> Settled V) (attempt : nat) : Prop :=
  exists e, fn attempt = Rejected e
            /\ isRetryable (classifyError e (response e)) = true.

End RetrySpec.


(** * Concrete inputs *)

Module Examples.

Import Retry.
Local Open Scope string_scope.

Definition noHeaders : string -> option string := fun _ => None.

(** A 401 answer. *)
Definition authFailure : JsError :=
  {| message := "Invalid API key";
     response := Some {| status := 401; headers_get := noHeaders |} |}.

(** A 429 answer without a [retry-after] header. *)
Definition rateLimited : JsError :=
  {| message := "Too many requests";
     response := Some {| status := 429; headers_get := noHeaders |} |}.

(** A 429 answer that carries [retry-after: 0]. *)
Definition retryNow : Response :=
  {| status := 429;
     headers_get := fun name => if String.eqb name "retry-after" then Some "0" else None |}.

Definition rateLimitedRetryNow : JsError :=
  {| message := "Too many requests"; response := Some retryNow |}.

(** A 429 answer whose [retry-after] is an HTTP date. *)
Definition retryAtDate : Response :=
  {| status := 429;
     headers_get := fun name =>
       if String.eqb name "retry-after" then Some "Wed, 21 Oct 2015 07:28:00 GMT" else None |}.

(** The host's date parser on that date: 2015-10-21T07:28:00Z. *)
Definition parseDate (s : string) : option Z :=
  if String.eqb s "Wed, 21 Oct 2015 07:28:00 GMT" then Some 1445412480000%Z else None.

Definition noDates : string -> option Z := fun _ => None.

Definition defaults : Options :=
  {| opt_maxRetries := None; opt_baseDelay := None; opt_maxDelay := None |}.

Definition oneRetry : Options :=
  {| opt_maxRetries := Some 1%nat; opt_baseDelay := None; opt_maxDelay := None |}.

(** A call that is rate limited once and then answers [42]. *)
Definition failsOnce (e : JsError) (attempt : nat) : Settled nat :=
  match attempt with
  | O => Rejected e
  | S _ => Resolved 42%nat
  end.

Definition alwaysFails (e : JsError) (attempt : nat) : Settled nat := Rejected e.

End Examples.

Module TokenTrackerSpec.

Import JsString.
Import TokenTracker.
Local Open Scope string_scope.

(** The models a provider is priced for; none for an unknown provider. *)
Definition knownModels (provider : string) : Table Pricing :=
  match lookup provider PRICING with
  | Some models => models
  | None => []
  end.

Definition exactMatch (provider model : string) : option Pricing :=
  lookup model (knownModels provider).

(** The first known model key that occurs in the model name or in which
    the model name occurs. *)
Definition substringMatch (provider model : string) : option Pricing :=
  option_map snd
    (find (fun entry => includes model (fst entry) || includes (fst entry) model)
          (knownModels provider)).

Definition firstKnownModel (provider : string) : option Pricing :=
  option_map snd (hd_error (knownModels provider)).

(** The first candidate that exists, else the default. *)
Definition firstOf (A : Type) (candidates : list (option A)) (default : A) : A :=
  fold_right (fun c rest => match c with Some x => x | None => rest end)
             default candidates.

Definition resolveRate (provider model : string) : Pricing :=
  firstOf [ exactMatch provider model;
            substringMatch provider model;
            firstKnownModel provider ]
          DEFAULT_PRICING.

(** The counters add up. *)
Definition balanced (t : UsageCounters) : Prop :=
  totalTokens t = (inputTokens t + outputTokens t)%Z.

(** A field of a usage report, with [0] for a missing one. *)
Definition reported (x : option Z) : Z :=
  match x with Some v => v | None => 0%Z end.

(** The [totalTokens] of a usage report is missing, zero, or the sum of
    the report's own input and output tokens; a [null] report counts. *)
Definition consistent (usage : option Usage) : Prop :=
  match usage with
  | None => True
  | Some u =>
      u_totalTokens u = None
      \/ u_totalTokens u = Some 0%Z
      \/ u_totalTokens u = Some (reported (u_inputTokens u) + reported (u_outputTokens u))%Z
  end.

End TokenTrackerSpec.

Module AnalyzerSpec.

Import Analyzer.
Local Open Scope string_scope.

(** The outcome of the object at [index]: the data object that
    [analyzeWithErrorHandling] builds for it, as it is stored. *)
Definition outcome (analyzeObject : SheetObject -> nat -> Settled AnalysisResult)
    (timestampAt : nat -> string) (obj : SheetObject) (index : nat) : ObjectSummary :=
  deleteUsage (data (analyzeWithErrorHandling analyzeObject timestampAt obj index)).

(** The outcomes of all objects, in the order of the objects. *)
Definition outcomes (analyzeObject : SheetObject -> nat -> Settled AnalysisResult)
    (timestampAt : nat -> string) (objs : list SheetObject) : list ObjectSummary :=
  mapFrom 0 (outcome analyzeObject timestampAt) objs.

(** The outcome recorded for an object whose analysis failed with
    [err]. *)
Definition failedOutcome (timestampAt : nat -> string) (obj : SheetObject) (index : nat)
    (err : JsError) : ObjectSummary :=
  {| s_id := obj_id obj; s_title := obj_title obj; s_type := obj_type obj;
     summary := "Analysis failed: " ++ Retry.message err;
     s_showHoverMenu := obj_showHoverMenu obj;
     error := true;
     timestamp := timestampAt index;
     s_usage := None |}.

(** Every call of every window settles at some point. *)
Definition everyCallSettles (schedule : nat -> list nat) (BATCH_SIZE N : nat) : Prop :=
  forall batchStart i,
    (i < BATCH_SIZE)%nat -> (batchStart + i < N)%nat -> In i (schedule batchStart).

(** The slots of [Promise.all] hold only the value of their own
    promise, and the slots of the promises settled so far are filled. *)
Definition slotsOk (A : Type) (promises : list A) (settledSoFar : list nat)
    (values : JsArray A) : Prop :=
  length values = length promises
  /\ (forall j v, nth_error values j = Some (Some v) -> nth_error promises j = Some v)
  /\ (forall j, In j settledSoFar -> (j < length promises)%nat ->
                nth_error values j = option_map Some (nth_error promises j)).

(** The summaries stored so far are the outcomes of the first
    [batchStart] objects, without holes. *)
Definition stored (analyzeObject : SheetObject -> nat -> Settled AnalysisResult)
    (timestampAt : nat -> string) (objs : list SheetObject)
    (batchStart : nat) (st : LoopState) : Prop :=
  objectSummaries st = map Some (outcomes analyzeObject timestampAt (firstn batchStart objs)).

(** The loop state on entry. *)
Definition initial (polls : nat) : LoopState :=
  {| objectSummaries := [];
     totalUsage := TokenTracker.createEmptyUsage;
     completedCount := 0;
     polls := polls |}.

End AnalyzerSpec.

Module AnalyzerExamples.

Import JsString.
Import TokenTracker.
Import Analyzer.
Local Open Scope string_scope.

Definition chart (n : nat) : SheetObject :=
  {| obj_id := "chart-" ++ ofNat n;
     obj_title := "Chart " ++ ofNat n;
     obj_type := "barchart";
     obj_showHoverMenu := true |}.

Definition fiveCharts : list SheetObject := map chart (seq 0 5).

(** A 400 answer. *)
Definition validationFailure : JsError :=
  {| Retry.message := "Invalid request";
     Retry.response := Some {| Retry.status := 400; Retry.headers_get := fun _ => None |} |}.

Definition tenAndFive : Usage :=
  {| u_inputTokens := Some 10%Z; u_outputTokens := Some 5%Z; u_totalTokens := None |}.

Definition succeeds (obj : SheetObject) (index : nat) : Settled AnalysisResult :=
  Retry.Resolved {| text := "Summary of " ++ obj_id obj; usage := Some tenAndFive |}.

(** The analysis of the object at index 2 always fails. *)
Definition failsAtTwo (obj : SheetObject) (index : nat) : Settled AnalysisResult :=
  if (index =? 2)%nat then Retry.Rejected validationFailure else succeeds obj index.

Definition neverCancelled : nat -> bool := fun _ => false.

(** The flag is set while the first window runs. *)
Definition cancelledAfterFirstWindow : nat -> bool := fun k => (3 <=? k)%nat.

Definition alreadyCancelled : nat -> bool := fun _ => true.

(** In every window the last call settles first. *)
Definition lastFirst : nat -> list nat := fun _ => [2; 1; 0]%nat.

Definition clock : nat -> string := fun _ => "2025-01-01T00:00:00.000Z".

Definition keepAll : list SheetObject -> list SheetObject := fun objs => objs.

Definition sheetSummarizer (objs : list SheetObject) (summaries : list ObjectSummary)
    : Settled AnalysisResult :=
  Retry.Resolved {| text := "Sheet summary"; usage := None |}.

Definition openaiMini : Config := {| provider := "openai"; model := "gpt-4o-mini" |}.

Definition analyzeFive (cancelToken : nat -> bool)
    (analyzeObject : SheetObject -> nat -> Settled AnalysisResult)
    : list Event * Result SheetAnalysis :=
  analyzeSheet cancelToken analyzeObject clock "2025-01-01T00:00:01.000Z" lastFirst
               keepAll (Retry.Resolved fiveCharts) (Retry.Resolved tt) sheetSummarizer
               openaiMini.

End AnalyzerExamples.

(** * Further parts of the extension *)

From Stdlib Require DecimalNat DecimalFacts.

(** ** More of JavaScript strings *)

Module JsText.

Import JsString.
Local Open Scope string_scope.

(** [s.substring(0, n)]. *)
Fixpoint take (n : nat) (s : string) : string :=
  match n, s with
  | S n', String c s' => String c (take n' s')
  | _, _ => EmptyString
  end.

(** [s] without the prefix [p], when it starts with it. *)
Fixpoint dropPrefix (p s : string) : option string :=
  match p, s with
  | EmptyString, _ => Some s
  | String a p', String b s' => if Ascii.eqb a b then dropPrefix p' s' else None
  | String _ _, EmptyString => None
  end.

(** The white space that [trim] removes, among the characters below
    256: the ASCII white space and the no-break space. *)
Definition isTrimSpace (c : ascii) : bool :=
  isWhiteSpace c || (nat_of_ascii c =? 160)%nat.

(** [s.trimStart()], [s.trimEnd()] and [s.trim()]. *)
Fixpoint trimStart (s : string) : string :=
  match s with
  | String c s' => if isTrimSpace c then trimStart s' else s
  | EmptyString => EmptyString
  end.

Fixpoint trimEnd (s : string) : string :=
  match s with
  | EmptyString => EmptyString
  | String c s' =>
      match trimEnd s' with
      | EmptyString => if isTrimSpace c then EmptyString else String c EmptyString
      | r => String c r
      end
  end.

Definition trim (s : string) : string := trimEnd (trimStart s).

(** [s.split(sep)] for a separator of one character. *)
Fixpoint split (sep : ascii) (s : string) : list string :=
  match s with
  | EmptyString => [EmptyString]
  | String c s' =>
      if Ascii.eqb c sep then EmptyString :: split sep s'
      else
        match split sep s' with
        | piece :: pieces => String c piece :: pieces
        | [] => [String c EmptyString]
        end
  end.

(** [l.join(sep)]. *)
Fixpoint join (sep : string) (l : list string) : string :=
  match l with
  | [] => EmptyString
  | [x] => x
  | x :: l' => x ++ sep ++ join sep l'
  end.

(** [s.lastIndexOf(pat)]; [None] is [-1]. *)
Fixpoint lastIndexOf (pat s : string) : option nat :=
  match s with
  | EmptyString => if String.prefix pat s then Some 0%nat else None
  | String _ s' =>
      match lastIndexOf pat s' with
      | Some i => Some (S i)
      | None => if String.prefix pat s then Some 0%nat else None
      end
  end.

Definition isStar (c : ascii) : bool := Ascii.eqb c "*".

(** The longest prefix without an asterisk, and what follows it. *)
Fixpoint spanNonStar (s : string) : string * string :=
  match s with
  | String c s' =>
      if isStar c then (EmptyString, s)
      else let (g, rest) := spanNonStar s' in (String c g, rest)
  | EmptyString => (EmptyString, EmptyString)
  end.

Fixpoint noStar (s : string) : bool :=
  match s with
  | EmptyString => true
  | String c s' => negb (isStar c) && noStar s'
  end.

(** [s.replace(new RegExp(c, 'g'), by)] for a single character [c]. *)
Fixpoint replaceChar (c : ascii) (by_ : string) (s : string) : string :=
  match s with
  | EmptyString => EmptyString
  | String a s' =>
      if Ascii.eqb a c then by_ ++ replaceChar c by_ s'
      else String a (replaceChar c by_ s')
  end.

Section Pairs.

(** The delimiter: [**] or [*]. *)
Variable d : string.

(** A match of [d([^*]+)d] at the start of [s]: the group and what
    follows the match. The group is the whole run without asterisks;
    a shorter one would be followed by a character that is not an
    asterisk. *)
Definition matchPair (s : string) : option (string * string) :=
  match dropPrefix d s with
  | Some s1 =>
      let (g, s2) := spanNonStar s1 in
      match g with
      | EmptyString => None
      | _ =>
          match dropPrefix d s2 with
          | Some s3 => Some (g, s3)
          | None => None
          end
      end
  | None => None
  end.

(** A match of [d[^*]*$] at the start of [s]. *)
Definition matchOrphan (s : string) : bool :=
  match dropPrefix d s with
  | Some rest => noStar rest
  | None => false
  end.

Variables opening closing : string.

(** [s.replace(/d([^*]+)d/g, opening + '$1' + closing)]: matches are
    taken from left to right and do not overlap. [fuel] bounds the
    number of steps; the length of [s] is enough. *)
Fixpoint replacePairsFrom (fuel : nat) (s : string) : string :=
  match fuel with
  | O => s
  | S fuel' =>
      match matchPair s with
      | Some (g, rest) => opening ++ g ++ closing ++ replacePairsFrom fuel' rest
      | None =>
          match s with
          | EmptyString => EmptyString
          | String c s' => String c (replacePairsFrom fuel' s')
          end
      end
  end.

Definition replacePairs (s : string) : string :=
  replacePairsFrom (String.length s) s.

(** [s.replace(/d[^*]*$/g, '')]. *)
Fixpoint removeOrphan (s : string) : string :=
  if matchOrphan s then EmptyString
  else
    match s with
    | EmptyString => EmptyString
    | String c s' => String c (removeOrphan s')
    end.

(** The number of matches of [/d/g] in [s]. *)
Fixpoint countMatchesFrom (fuel : nat) (s : string) : nat :=
  match fuel with
  | O => 0
  | S fuel' =>
      match s with
      | EmptyString => 0
      | String _ s' =>
          match dropPrefix d s with
          | Some rest =>
              match d with
              | EmptyString => 0
              | _ => S (countMatchesFrom fuel' rest)
              end
          | None => countMatchesFrom fuel' s'
          end
      end
  end.

Definition countMatches (s : string) : nat := countMatchesFrom (String.length s) s.

End Pairs.

End JsText.

(** ** lib/analyzer: the text helpers *)

Module Markdown.

Import JsString.
Import JsText.
Local Open Scope string_scope.

(** The three escapes at the head of [markdownToHtml]. *)
Definition escapeHtml (text : string) : string :=
  replaceChar ">" "&gt;" (replaceChar "<" "&lt;" (replaceChar "&" "&amp;" text)).

Definition markdownToHtml (text : string) : string :=
  if negb (truthy text) then ""
  else
    let escaped := escapeHtml text in
    let escaped := replacePairs "**" "<strong>" "</strong>" escaped in
    let escaped := replacePairs "*" "<em>" "</em>" escaped in
    let escaped := removeOrphan "**" escaped in
    let escaped := removeOrphan "*" escaped in
    escaped.

Definition stripMarkdown (text : string) : string :=
  if negb (truthy text) then ""
  else replacePairs "*" "" "" (replacePairs "**" "" "" text).

(** [smartTruncate(text, maxChars)]. [maxChars - 3] is cut off at
    zero, as [substring] does with a negative end. *)
Definition smartTruncate (text : string) (maxChars : nat) : string :=
  if negb (truthy text) || (String.length text <=? maxChars)%nat then text
  else
    let truncated := take (maxChars - 3) text in
    let truncated :=
      match lastIndexOf "**" truncated with
      | Some lastOpenBold =>
          let beforeLast := take lastOpenBold truncated in
          let boldCount := countMatches "**" beforeLast in
          if Nat.even boldCount then take lastOpenBold truncated else truncated
      | None => truncated
      end in
    trim truncated ++ "...".

End Markdown.

(** ** lib/object-filter *)

Module ObjectFilter.

Import JsString.
Import JsText.
Import Analyzer.
Local Open Scope string_scope.

Definition PRESETS_all : list string :=
  [ "barchart"; "linechart"; "piechart"; "combochart"; "scatterplot"; "kpi"; "gauge";
    "table"; "pivot-table"; "treemap"; "boxplot"; "histogram"; "waterfallchart"; "map";
    "funnelchart"; "mekkochart" ].

Definition PRESETS_common : list string :=
  [ "barchart"; "linechart"; "combochart"; "piechart"; "kpi"; "gauge"; "table";
    "scatterplot" ].

Definition PRESETS_tables : list string := [ "table"; "pivot-table" ].

(** Types that are never analysed. *)
Definition excludedBaseTypes : list string :=
  [ "text-image"; "container"; "sn-layout-container"; "qlik-tab-container";
    "sn-tabbed-container"; "tabcontainer"; "layoutcontainer"; "filterpane"; "listbox";
    "button"; "action-button"; "qlik-show-hide-container"; "qlik-tabbed-container";
    "qlik-trellis-container" ].

(** [layout.objectFilter]; [None] is a missing property. *)
Record FilterConfig : Type := {
  preset : option string;
  customTypes : option string;
  includedTypes : option string;
  excludedIds : option string
}.

(** [l.indexOf(x) !== -1] on an array of strings. *)
Definition contains (l : list string) (x : string) : bool :=
  existsb (String.eqb x) l.

Definition nonEmpty (s : string) : bool := (0 <? String.length s)%nat.

(** [str.split(',').map(trim and lower-case).filter(non-empty)]. *)
Definition parseTypes (str : string) : list string :=
  filter nonEmpty (map (fun t => toLowerCase (trim t)) (split "," str)).

(** A string property used as [s && typeof s === 'string']. *)
Definition presentString (s : option string) : option string :=
  match s with
  | Some v => if truthy v then Some v else None
  | None => None
  end.

Definition getIncludedTypes (objectFilter : option FilterConfig) : list string :=
  match objectFilter with
  | None => PRESETS_common
  | Some f =>
      let preset :=
        match presentString (preset f) with Some p => p | None => "common" end in
      if String.eqb preset "all" then PRESETS_all
      else if String.eqb preset "custom" then
        match presentString (customTypes f) with
        | Some customStr => parseTypes customStr
        | None => PRESETS_common
        end
      else if String.eqb preset "common" then PRESETS_common
      else
        match presentString (includedTypes f) with
        | Some typesStr => parseTypes typesStr
        | None => PRESETS_common
        end
  end.

Definition parseExcludedIds (excludedIdsStr : option string) : list string :=
  match presentString excludedIdsStr with
  | None => []
  | Some str => filter nonEmpty (map trim (split "," str))
  end.

Definition keeps (includedTypes excludedIds : list string) (obj : SheetObject) : bool :=
  if contains excludedIds (obj_id obj) then false
  else if contains excludedBaseTypes (obj_type obj) then false
  else contains includedTypes (obj_type obj).

Definition filterObjects (objects : list SheetObject) (config : option FilterConfig)
    : list SheetObject :=
  let includedTypes := getIncludedTypes config in
  let excludedIds :=
    parseExcludedIds (match config with Some c => excludedIds c | None => Some "" end) in
  filter (keeps includedTypes excludedIds) objects.

Definition isAnalyzable (type : string) : bool := negb (contains excludedBaseTypes type).

End ObjectFilter.

(** ** lib/token-tracker: the estimate *)

Module TokenEstimate.

Import JsString.

(** [Math.ceil(n / 4)] for a length [n]. *)
Definition ceilQuarter (n : nat) : nat := ((n + 3) / 4)%nat.

Definition estimateTokens (text : option string) : nat :=
  match text with
  | None => 0%nat
  | Some t => if truthy t then ceilQuarter (String.length t) else 0%nat
  end.

End TokenEstimate.

(** ** lib/prompt-builder: truncate *)

Module PromptBuilder.

Import JsString.
Import JsText.
Local Open Scope string_scope.

(** [truncate(str, maxLen)]; [maxLen - 2] is cut off at zero, as
    [substring] does with a negative end. *)
Definition truncate (str : option string) (maxLen : nat) : string :=
  match str with
  | None => ""
  | Some s =>
      if negb (truthy s) then ""
      else if (String.length s <=? maxLen)%nat then s
      else take (maxLen - 2) s ++ ".."
  end.

End PromptBuilder.

(** ** lib/analyzer: [analyzeObject] *)

Module AnalyzeObject.

Import JsString.
Import TokenTracker.
Import Analyzer.
Local Open Scope string_scope.

(** What [provider.generateSummary] resolves to: a plain string in the
    old format, an object [{ text, usage }] in the new one. *)
Inductive ProviderResult : Type :=
| PlainText (s : string)
| WithUsage (r : AnalysisResult).

(** [Math.min(100, Math.floor(maxCharsPerObject / 4) || 75)]; [None]
    is a missing [maxCharsPerObject]. *)
Definition maxTokensFor (maxCharsPerObject : option nat) : nat :=
  let quarter := match maxCharsPerObject with Some n => (n / 4)%nat | None => 0%nat end in
  Nat.min 100 (if (quarter =? 0)%nat then 75%nat else quarter).

(** [maxCharsPerObject || 300]. *)
Definition maxCharsFor (maxCharsPerObject : option nat) : nat :=
  match maxCharsPerObject with
  | Some n => if (n =? 0)%nat then 300%nat else n
  | None => 300%nat
  end.

Section AnalyzeObject.

(** [promptBuilder.buildObjectPrompt] for the object. *)
Variable buildObjectPrompt : SheetObject -> string.
(** How [provider.generateSummary(prompt, { maxTokens })] settles. *)
Variable generateSummary : string -> nat -> Settled ProviderResult.

Definition analyzeObject (obj : SheetObject) (maxCharsPerObject : option nat)
    : Settled AnalysisResult :=
  let prompt := buildObjectPrompt obj in
  let maxTokens := maxTokensFor maxCharsPerObject in
  match generateSummary prompt maxTokens with
  | Retry.Rejected e => Retry.Rejected e
  | Retry.Resolved result =>
      let text := match result with PlainText s => s | WithUsage r => text r end in
      let usage := match result with PlainText _ => None | WithUsage r => usage r end in
      let maxChars := maxCharsFor maxCharsPerObject in
      let text :=
        if (maxChars <? String.length text)%nat
        then Markdown.smartTruncate text maxChars
        else text in
      Retry.Resolved {| text := text; usage := usage |}
  end.

End AnalyzeObject.

End AnalyzeObject.

(** ** lib/analyzer: footnotes *)

Module Footnotes.

Import JsString.
Import Analyzer.
Local Open Scope string_scope.

Definition newline : string := String (ascii_of_nat 10) EmptyString.

(** One call of [engineService.updateObjectFootnote]. *)
Record Update : Type := {
  target : string;
  footnote : string
}.

Record Failure : Type := {
  failedId : string;
  failedError : string
}.

(** The [results] object, with the updates requested so far. *)
Record Results : Type := {
  success : nat;
  failed : nat;
  errors : list Failure;
  updates : list Update
}.

Definition noResults : Results :=
  {| success := 0; failed := 0; errors := []; updates := [] |}.

Section Footnotes.

(** How the [k]-th call of [engineService.updateObjectFootnote]
    settles, given what it is asked to write. *)
Variable updateObjectFootnote : nat -> Update -> Settled unit.
(** [new Date(timestamp).toLocaleString()]. *)
Variable toLocaleString : string -> string.

(** The body of the loops: one update inside [try]/[catch]. *)
Definition attempt (results : Results) (u : Update) : Results :=
  match updateObjectFootnote (length (updates results)) u with
  | Retry.Resolved _ =>
      {| success := S (success results);
         failed := failed results;
         errors := errors results;
         updates := (updates results ++ [u])%list |}
  | Retry.Rejected err =>
      {| success := success results;
         failed := S (failed results);
         errors :=
           (errors results
            ++ [{| failedId := target u; failedError := Retry.message err |}])%list;
         updates := (updates results ++ [u])%list |}
  end.

Definition footnoteFor (obj : ObjectSummary) : Update :=
  let timestamp := toLocaleString (timestamp obj) in
  let plainSummary := Markdown.stripMarkdown (summary obj) in
  {| target := s_id obj;
     footnote := plainSummary ++ newline ++ "[AI Summary | " ++ timestamp ++ "]" |}.

Definition injectFootnotes (objectSummaries : list ObjectSummary) : Results :=
  let validSummaries := filter (fun obj => negb (error obj)) objectSummaries in
  fold_left (fun results obj => attempt results (footnoteFor obj))
            validSummaries noResults.

Definition clearFootnotes (objectSummaries : list ObjectSummary) : Results :=
  let validSummaries :=
    filter (fun obj => negb (error obj) && truthy (s_id obj)) objectSummaries in
  fold_left (fun results obj => attempt results {| target := s_id obj; footnote := "" |})
            validSummaries noResults.

End Footnotes.

End Footnotes.

(** ** lib/retry: [fetchWithRetry] *)

Module FetchWithRetry.

Import JsString.
Import Retry.
Local Open Scope string_scope.

(** What the code reads of the [Response] that [fetch] resolves to.
    [errorMessage] is [errorData.error.message] of the JSON body; it is
    [None] when the body is not JSON or has no such property. *)
Record FetchResponse : Type := {
  f_status : nat;
  f_statusText : string;
  f_headers_get : string -> option string;
  f_errorMessage : option string
}.

(** [response.ok]: a status from 200 to 299. *)
Definition ok (r : FetchResponse) : bool :=
  (200 <=? f_status r)%nat && (f_status r <=? 299)%nat.

(** How one [fetch] settles: a response, or an error with its [name]
    and [message]. *)
Inductive Fetch : Type :=
| Fetched (r : FetchResponse)
| Failed (name message : string).

Definition asResponse (r : FetchResponse) : Response :=
  {| status := Z.of_nat (f_status r); headers_get := f_headers_get r |}.

Definition httpError (r : FetchResponse) : JsError :=
  {| message :=
       match f_errorMessage r with
       | Some m => if truthy m then m
                   else "HTTP " ++ ofNat (f_status r) ++ ": " ++ f_statusText r
       | None => "HTTP " ++ ofNat (f_status r) ++ ": " ++ f_statusText r
       end;
     response := Some (asResponse r) |}.

(** [seconds] is [timeout / 1000] as JavaScript prints it. *)
Definition timeoutError (seconds : string) : JsError :=
  {| message := "Request timed out after " ++ seconds ++ " seconds";
     response := None |}.

(** The function that [fetchWithRetry] hands to [withRetry]. *)
Definition attemptFetch (seconds : string) (f : Fetch) : Settled FetchResponse :=
  match f with
  | Fetched r => if ok r then Resolved r else Rejected (httpError r)
  | Failed name msg =>
      if String.eqb name "AbortError" then Rejected (timeoutError seconds)
      else Rejected {| message := msg; response := None |}
  end.

Definition fetchWithRetry (fetch : nat -> Fetch) (seconds : string)
    (random : nat -> R) (Date_parse : string -> option Z) (Date_now : nat -> Z)
    (retryOptions : Options) : list Event * Outcome FetchResponse :=
  withRetry (fun attempt => attemptFetch seconds (fetch attempt))
            random Date_parse Date_now retryOptions.

End FetchWithRetry.

(** ** Qlik2Review: comparison of two analyses *)

Module Comparison.

Import JsString.
Import Analyzer.
Local Open Scope string_scope.

Record ChangedObject : Type := {
  c_id : string;
  c_title : string;
  c_type : string;
  previousSummary : string;
  currentSummary : string
}.

Record Result : Type := {
  changedObjects : list ChangedObject;
  newObjects : list ObjectSummary;
  removedObjects : list ObjectSummary;
  previousTimestamp : string;
  sheetSummaryChanged : bool;
  previousSheetSummary : string
}.

(** [map[id]] after [forEach(function(obj) { map[obj.id] = obj; })]:
    the last summary with that id. *)
Fixpoint lookupId (id : string) (l : list ObjectSummary) : option ObjectSummary :=
  match l with
  | [] => None
  | obj :: l' =>
      match lookupId id l' with
      | Some later => Some later
      | None => if String.eqb id (s_id obj) then Some obj else None
      end
  end.

Definition isSome (o : option ObjectSummary) : bool :=
  match o with Some _ => true | None => false end.

Definition generateComparison (previous current : option SheetAnalysis) : option Result :=
  match previous, current with
  | Some previous, Some current =>
      let prev := r_objectSummaries previous in
      let curr := r_objectSummaries current in
      Some
        {| changedObjects :=
             flat_map
               (fun obj =>
                  match lookupId (s_id obj) prev with
                  | None => []
                  | Some p =>
                      if String.eqb (summary p) (summary obj) then []
                      else [{| c_id := s_id obj;
                               c_title := if truthy (s_title obj) then s_title obj
                                          else s_title p;
                               c_type := s_type obj;
                               previousSummary := summary p;
                               currentSummary := summary obj |}]
                  end)
               curr;
           newObjects := filter (fun obj => negb (isSome (lookupId (s_id obj) prev))) curr;
           removedObjects := filter (fun obj => negb (isSome (lookupId (s_id obj) curr))) prev;
           previousTimestamp := r_timestamp previous;
           sheetSummaryChanged := negb (String.eqb (sheetSummary previous) (sheetSummary current));
           previousSheetSummary := sheetSummary previous |}
  | _, _ => None
  end.

End Comparison.

(** ** Notions used to state the further properties *)

Module Notions.

Import JsString.
Import JsText.
Import TokenTracker.
Local Open Scope string_scope.

(** What a usage report adds to each counter. *)
Definition addedInput (u : option Usage) : Z :=
  match u with Some u => orElse (u_inputTokens u) 0 | None => 0%Z end.

Definition addedOutput (u : option Usage) : Z :=
  match u with Some u => orElse (u_outputTokens u) 0 | None => 0%Z end.

Definition addedTotal (u : option Usage) : Z :=
  match u with
  | Some u =>
      orElse (u_totalTokens u)
             (orElse (u_inputTokens u) 0 + orElse (u_outputTokens u) 0)
  | None => 0%Z
  end.

Definition sumZ (l : list Z) : Z := fold_right Z.add 0%Z l.

(** [addUsage] applied to the reports one after the other. *)
Definition addAll (total : UsageCounters) (reports : list (option Usage)) : UsageCounters :=
  fold_left addUsage reports total.

(** The character [c] occurs in [s]. *)
Fixpoint hasChar (c : ascii) (s : string) : bool :=
  match s with
  | EmptyString => false
  | String a s' => Ascii.eqb a c || hasChar c s'
  end.

(** An id as [parseExcludedIds] delivers it: not empty, no white
    space around it, no comma in it. *)
Definition cleanId (id : string) : Prop :=
  id <> "" /\ trim id = id /\ hasChar "," id = false.

(** The tags that [markdownToHtml] writes. *)
Definition tags : list string := ["<strong>"; "</strong>"; "<em>"; "</em>"].

Definition startsWithTag (s : string) : bool :=
  existsb (fun t => String.prefix t s) tags.

(** Every [<] in [s] is the first character of one of the tags. *)
Fixpoint wellTagged (s : string) : bool :=
  match s with
  | EmptyString => true
  | String c s' =>
      (if Ascii.eqb c "<" then startsWithTag s else true) && wellTagged s'
  end.

(** The property names that every plain object inherits from
    [Object.prototype]. Where the code reads a plain object by a key
    that comes from outside, [table[key]], the tables of the model stand
    for it on the keys that are not among these names. *)
Definition objectPrototypeKeys : list string :=
  [ "constructor"; "__defineGetter__"; "__defineSetter__"; "hasOwnProperty";
    "__lookupGetter__"; "__lookupSetter__"; "isPrototypeOf"; "propertyIsEnumerable";
    "toString"; "valueOf"; "__proto__"; "toLocaleString" ].

Definition ownKey (key : string) : Prop := ~ In key objectPrototypeKeys.

(** The excluded ids of a filter configuration. *)
Definition configuredIds (config : option ObjectFilter.FilterConfig) : list string :=
  ObjectFilter.parseExcludedIds
    (match config with Some c => ObjectFilter.excludedIds c | None => Some "" end).

End Notions.

(** ** lib/token-tracker on every string

    [PRICING] and its provider tables are object literals, so
    [PRICING[provider]] and [PRICING[provider][model]] also find the
    properties that every object inherits from [Object.prototype]. *)

Module TokenTrackerValues.

Import JsString.
Import TokenTracker.
Import Notions.
Local Open Scope string_scope.
Local Open Scope Q_scope.

Definition inherited (key : string) : bool :=
  existsb (String.eqb key) objectPrototypeKeys.

(** What [table[key]] evaluates to on an object literal: its own
    property, else the member of [Object.prototype] of that name, else
    [undefined]. Every such member is a function or an object, so a
    truthy value. *)
Inductive Property (A : Type) : Type :=
| Own (v : A)
| Inherited (name : string)
| Undefined.
Arguments Own {A} v.
Arguments Inherited {A} name.
Arguments Undefined {A}.

Definition get (A : Type) (table : Table A) (key : string) : Property A :=
  match lookup key table with
  | Some v => Own v
  | None => if inherited key then Inherited key else Undefined
  end.

(** What [getPricing] returns: a rate of the tables, or a value that
    is not one (a member of [Object.prototype], or a property of such a
    member). *)
Inductive PricingValue : Type :=
| Rate (p : Pricing)
| NotARate.

(** How reading a property of a member of [Object.prototype] ends. The
    built-ins of the host decide: most reads give [undefined], some a
    function or a string, and an accessor may throw. *)
Inductive HostRead : Type :=
| HostThrows
| HostFalsy
| HostTruthy.

Inductive Completion (A : Type) : Type :=
| Normal (v : A)
| TypeError.
Arguments Normal {A} v.
Arguments TypeError {A}.

(** A JavaScript number, as far as the cost goes: a value or [NaN]. *)
Inductive Number : Type :=
| Finite (q : Q)
| NaN.

Section Host.

(** [hostRead name key] is how [Object.prototype[name][key]] ends. *)
Variable hostRead : string -> string -> HostRead.

(** [getPricing(provider, model)] on every string. A member of
    [Object.prototype] has no enumerable property, so for it the
    [for ... in] scan and [Object.keys] find nothing. *)
Definition getPricingValue (provider model : string) : Completion PricingValue :=
  if negb (truthy provider) then Normal (Rate DEFAULT_PRICING)
  else
    match get PRICING provider with
    | Undefined => Normal (Rate DEFAULT_PRICING)
    | Own providerPricing =>
        match (if truthy model then get providerPricing model else Undefined) with
        | Own p => Normal (Rate p)
        | Inherited _ => Normal NotARate
        | Undefined =>
            match (if truthy model then partialMatch model providerPricing else None) with
            | Some p => Normal (Rate p)
            | None =>
                match providerPricing with
                | (_, p) :: _ => Normal (Rate p)
                | [] => Normal (Rate DEFAULT_PRICING)
                end
            end
        end
    | Inherited name =>
        match (if truthy model then hostRead name model else HostFalsy) with
        | HostThrows => TypeError
        | HostTruthy => Normal NotARate
        | HostFalsy => Normal (Rate DEFAULT_PRICING)
        end
    end.

(** [calculateCost] on every string. A value that is not a rate has
    no [input] and no [output], and a number times [undefined] is
    [NaN]. *)
Definition calculateCostValue (provider model : string)
    (inputTokens outputTokens : Q) : Completion Number :=
  match getPricingValue provider model with
  | TypeError => TypeError
  | Normal NotARate => Normal NaN
  | Normal (Rate pricing) =>
      let inputCost := (inputTokens / 1000000) * input pricing in
      let outputCost := (outputTokens / 1000000) * output pricing in
      Normal (Finite (inputCost + outputCost))
  end.

End Host.

End TokenTrackerValues.

Module AnalyzerNotions.

Import Analyzer.
Import TokenTracker.

(** The usage that the analysis of an object reports; none when it
    fails. *)
Definition reportOf (analyzeObject : SheetObject -> nat -> Settled AnalysisResult)
    (obj : SheetObject) (index : nat) : option Usage :=
  match analyzeObject obj index with
  | Retry.Resolved r => usage r
  | Retry.Rejected _ => None
  end.

(** The number of windows for [n] objects: [n / size], rounded up. *)
Definition windowsOf (size n : nat) : nat := ((n + size - 1) / size)%nat.

(** The loop state after the window that starts at [batchStart]. *)
Definition windowState (analyzeObject : SheetObject -> nat -> Settled AnalysisResult)
    (timestampAt : nat -> string) (size : nat) (objs : list SheetObject)
    (batchStart : nat) (st : LoopState) : LoopState :=
  fold_left storeResult
    (mapFrom batchStart (analyzeWithErrorHandling analyzeObject timestampAt)
             (slice objs batchStart (Nat.min (batchStart + size) (length objs))))
    {| objectSummaries := objectSummaries st;
       totalUsage := totalUsage st;
       completedCount := completedCount st;
       polls := S (polls st) |}.

Definition isSheetSummaryCalled (e : Event) : bool :=
  match e with SheetSummaryCalled => true | _ => false end.

End AnalyzerNotions.

Module LateExamples.

Import Analyzer.
Local Open Scope string_scope.

(** The flag is set while the last of the two windows runs. *)
Definition cancelledDuringLastWindow : nat -> bool := fun k => (4 <=? k)%nat.

Definition serverFailure : JsError :=
  {| Retry.message := "Internal error";
     Retry.response := Some {| Retry.status := 500; Retry.headers_get := fun _ => None |} |}.

Definition failingSummarizer (objs : list SheetObject) (summaries : list ObjectSummary)
    : Settled AnalysisResult :=
  Retry.Rejected serverFailure.

Definition analyzeFiveWith (cancelToken : nat -> bool)
    (generateSheetSummary : list SheetObject -> list ObjectSummary -> Settled AnalysisResult)
    : list Event * Result SheetAnalysis :=
  analyzeSheet cancelToken AnalyzerExamples.succeeds AnalyzerExamples.clock
               "2025-01-01T00:00:01.000Z" AnalyzerExamples.lastFirst
               AnalyzerExamples.keepAll (Retry.Resolved AnalyzerExamples.fiveCharts)
               (Retry.Resolved tt) generateSheetSummary AnalyzerExamples.openaiMini.

End LateExamples.

Module FilterExamples.

Import Analyzer.
Import ObjectFilter.
Local Open Scope string_scope.

Definition container7 : SheetObject :=
  {| obj_id := "c7"; obj_title := "Tabs"; obj_type := "container";
     obj_showHoverMenu := true |}.

Definition kpi2 : SheetObject :=
  {| obj_id := "kpi-2"; obj_title := "Margin"; obj_type := "kpi";
     obj_showHoverMenu := true |}.

(** A configuration that asks for containers and excludes a chart. *)
Definition askForContainers : FilterConfig :=
  {| preset := Some "custom"; customTypes := Some "container, kpi, barchart";
     includedTypes := None; excludedIds := Some "chart-1" |}.

End FilterExamples.

Module RetryNotions.

Import JsString.
Import Retry.
Local Open Scope string_scope.

(** [options.maxDelay || 30000]. *)
Definition maxDelayOf (options : Options) : R := orDefault (opt_maxDelay options) 30000.

(** No failure of [fn] carries a [retry-after] header. *)
Definition noRetryAfter (V : Type) (fn : nat -> Settled V) : Prop :=
  forall k e r,
    fn k = Rejected e -> response e = Some r -> headers_get r "retry-after" = None.

Definition startsWithDigit (s : string) : bool :=
  match s with
  | String c _ => match digitValue c with Some _ => true | None => false end
  | EmptyString => false
  end.

(** A 429 answer that asks to wait [n] seconds. *)
Definition retryIn (header : string) : Response :=
  {| status := 429;
     headers_get := fun name => if String.eqb name "retry-after" then Some header else None |}.

End RetryNotions.

Module FetchExamples.

Import Retry.
Import FetchWithRetry.
Local Open Scope string_scope.

(** Every request runs into the timeout. *)
Definition alwaysAborted : nat -> Fetch :=
  fun _ => Failed "AbortError" "The user aborted a request.".

(** A 401 answer whose body talks about a rate limit. *)
Definition unauthorized : FetchResponse :=
  {| f_status := 401; f_statusText := "Unauthorized";
     f_headers_get := Examples.noHeaders;
     f_errorMessage := Some "Rate limit exceeded" |}.

(** A 503 answer without a JSON body. *)
Definition unavailable : FetchResponse :=
  {| f_status := 503; f_statusText := "Service Unavailable";
     f_headers_get := Examples.noHeaders;
     f_errorMessage := None |}.

Definition created : FetchResponse :=
  {| f_status := 201; f_statusText := "Created";
     f_headers_get := Examples.noHeaders;
     f_errorMessage := None |}.

End FetchExamples.

Module FootnoteNotions.

Import Analyzer.
Import Footnotes.

(** The failures among the updates [us], the first of which is the
    [k]-th call of [updateObjectFootnote]: the object's id and the
    error's message, in order. *)
Fixpoint failuresFrom (updateObjectFootnote : nat -> Update -> Settled unit)
    (k : nat) (us : list Update) : list Failure :=
  match us with
  | [] => []
  | u :: us' =>
      match updateObjectFootnote k u with
      | Retry.Resolved _ => failuresFrom updateObjectFootnote (S k) us'
      | Retry.Rejected err =>
          {| failedId := target u; failedError := Retry.message err |}
          :: failuresFrom updateObjectFootnote (S k) us'
      end
  end.

Definition clearOf (obj : ObjectSummary) : Update :=
  {| target := s_id obj; footnote := EmptyString |}.

End FootnoteNotions.

Module ComparisonNotions.

Import Analyzer.
Local Open Scope string_scope.

(** [generateComparison] keeps the summaries in plain objects keyed by
    id, so the model of its maps holds for ids that are own keys. *)
Definition plainIds (a : SheetAnalysis) : Prop :=
  Forall (fun obj => Notions.ownKey (s_id obj)) (r_objectSummaries a).

Definition ids (a : SheetAnalysis) : list string := map s_id (r_objectSummaries a).

End ComparisonNotions.

Module MoreExamples.

Import JsString.
Import TokenTracker.
Import Analyzer.
Import AnalyzeObject.
Local Open Scope string_scope.

Definition promptFor (obj : SheetObject) : string := "Summarise " ++ obj_title obj.

(** A provider that answers with more than 20 characters. *)
Definition wordyProvider (prompt : string) (maxTokens : nat) : Settled ProviderResult :=
  Retry.Resolved
    (WithUsage {| text := "Sales grew by **12%** compared to the last quarter";
                  usage := Some AnalyzerExamples.tenAndFive |}).

Definition summaryOf (id text : string) : ObjectSummary :=
  {| s_id := id; s_title := "Chart"; s_type := "barchart"; summary := text;
     s_showHoverMenu := true; error := false;
     timestamp := "2025-01-01T00:00:00.000Z"; s_usage := None |}.

Definition analysisOf (summaries : list ObjectSummary) : SheetAnalysis :=
  {| sheetSummary := "Sheet summary"; r_objectSummaries := summaries;
     analyzedObjects := None; r_usage := None;
     r_timestamp := "2025-01-01T00:00:01.000Z" |}.

Definition yesterday : SheetAnalysis :=
  analysisOf [summaryOf "a" "Sales are flat"; summaryOf "b" "Margin is stable"].

Definition today : SheetAnalysis :=
  analysisOf [summaryOf "a" "Sales are up"; summaryOf "c" "Costs are down"].

(** A configuration of the preset [tables] without type strings. *)
Definition tablesPreset : ObjectFilter.FilterConfig :=
  {| ObjectFilter.preset := Some "tables"; ObjectFilter.customTypes := None;
     ObjectFilter.includedTypes := None; ObjectFilter.excludedIds := None |}.

End MoreExamples.
(** * Properties of lib/retry *)

Module RetryFacts.

Import JsString.
Import Retry.
Import RetrySpec.
Local Open Scope string_scope.
Local Open Scope nat_scope.

Lemma classifyStatus_statusRule (st : Z) : classifyStatus st = statusRule st.
Proof.
  unfold classifyStatus, statusRule. cbn [existsb].
  rewrite orb_false_r.
  replace (st <=? 599)%Z with (st <? 600)%Z; [reflexivity|].
  destruct (Z.ltb_spec st 600), (Z.leb_spec st 599); try reflexivity; lia.
Qed.

Lemma classifyMessage_firstRule (msg : string) :
  classifyMessage msg = firstRule (toLowerCase msg) messageRules.
Proof.
  unfold classifyMessage, messageRules. cbn [firstRule existsb].
  rewrite !orb_false_r, !orb_assoc. reflexivity.
Qed.

(** C5. [classifyError] follows the priority order of the rule table:
    a response status of 401/403, 429, 400 or 500-599 decides the class
    whatever the message says; in every other case the lower-cased
    message is tested for the substrings of Timeout, Network, Auth and
    RateLimit in that order, and [UNKNOWN_ERROR] is the default. *)
Theorem classifyError_priority_order (error : JsError) (response : option Response) :
  classifyError error response = classify_spec error response.
Proof.
  unfold classifyError, classify_spec.
  destruct response as [r|]; cbn [option_map].
  - rewrite classifyStatus_statusRule.
    destruct (statusRule (status r)); [reflexivity|].
    apply classifyMessage_firstRule.
  - apply classifyMessage_firstRule.
Qed.

(** C6. [isRetryable] holds exactly for RateLimit, Network, Server and
    Timeout; Auth, Validation and Unknown are terminal. *)
Theorem isRetryable_iff (c : ErrorType) :
  (isRetryable c = true <->
   c = RATE_LIMIT \/ c = NETWORK_ERROR \/ c = SERVER_ERROR \/ c = TIMEOUT_ERROR)
  /\ isRetryable AUTH_ERROR = false
  /\ isRetryable VALIDATION_ERROR = false
  /\ isRetryable UNKNOWN_ERROR = false
  /\ isRetryable RATE_LIMIT = true.
Proof.
  repeat split; try reflexivity.
  - destruct c; cbn; intro H; try discriminate H; auto.
  - intros [H | [H | [H | H]]]; subst c; reflexivity.
Qed.


Section WithRetryFacts.

Variable V : Type.
Variable fn : nat -> Settled V.
Variable random : nat -> R.
Variable Date_parse : string -> option Z.
Variable Date_now : nat -> Z.
Variables (maxRetries : nat) (baseDelay maxDelay : R).

Let loop := attempts fn random Date_parse Date_now maxRetries baseDelay maxDelay.

Lemma attempts_step (remaining attempt : nat) (lastError : option JsError) :
  loop (S remaining) attempt lastError =
  match fn attempt with
  | Resolved v => ([Call attempt], Returned v)
  | Rejected error =>
      if (attempt =? maxRetries) || negb (isRetryable (classifyError error (response error)))
      then ([Call attempt], Thrown (Some error))
      else
        let delay :=
          retryDelay random Date_parse Date_now baseDelay maxDelay attempt
                     (classifyError error (response error)) (response error) in
        let (rest, out) := loop remaining (S attempt) (Some error) in
        (Call attempt :: OnRetry attempt error delay :: Sleep delay :: rest, out)
  end.
Proof. reflexivity. Qed.

Lemma attempts_calls_le (remaining attempt : nat) (lastError : option JsError) :
  callCount (fst (loop remaining attempt lastError)) <= remaining.
Proof.
  revert attempt lastError.
  induction remaining as [|remaining IH]; intros attempt lastError.
  - apply Nat.le_refl.
  - rewrite attempts_step.
    destruct (fn attempt) as [v|error]; cbn; [lia|].
    destruct ((attempt =? maxRetries) || _); cbn; [lia|].
    specialize (IH (S attempt) (Some error)).
    destruct (loop remaining (S attempt) (Some error)) as [rest out].
    cbn in *. unfold callCount in *. cbn. lia.
Qed.

Lemma attempts_terminal (k : nat) (e : JsError) :
  forall remaining attempt lastError,
    k < remaining ->
    (forall j, j < k -> retryableFailure fn (attempt + j) /\ attempt + j <> maxRetries) ->
    fn (attempt + k) = Rejected e ->
    attempt + k = maxRetries \/ isRetryable (classifyError e (response e)) = false ->
    snd (loop remaining attempt lastError) = Thrown (Some e)
    /\ callCount (fst (loop remaining attempt lastError)) = S k
    /\ length (sleepsOf (fst (loop remaining attempt lastError))) = k.
Proof.
  induction k as [|k IH]; intros remaining attempt lastError Hk Hpre Hfn Hstop;
    (destruct remaining as [|remaining]; [lia|]); rewrite attempts_step.
  - rewrite Nat.add_0_r in Hfn, Hstop. rewrite Hfn.
    assert (Hc : (attempt =? maxRetries)%nat
                 || negb (isRetryable (classifyError e (response e))) = true).
    { destruct Hstop as [-> | ->]; [rewrite Nat.eqb_refl|rewrite orb_true_r]; reflexivity. }
    rewrite Hc. cbn. auto.
  - destruct (Hpre 0 ltac:(lia)) as [[e0 [Hf0 Hr0]] Hne].
    rewrite Nat.add_0_r in Hf0, Hne. rewrite Hf0, Hr0.
    apply Nat.eqb_neq in Hne. rewrite Hne. cbn [orb negb].
    specialize (IH remaining (S attempt) (Some e0)).
    destruct IH as (Hout & Hcalls & Hsleeps).
    + lia.
    + intros j Hj. replace (S attempt + j) with (attempt + S j) by lia.
      apply Hpre. lia.
    + replace (S attempt + k) with (attempt + S k) by lia. exact Hfn.
    + replace (S attempt + k) with (attempt + S k) by lia. exact Hstop.
    + destruct (loop remaining (S attempt) (Some e0)) as [rest out].
      cbn in *. unfold callCount in *. cbn. auto.
Qed.

Lemma attempts_throws_last (remaining : nat) :
  forall attempt lastError x,
    attempt + remaining = S maxRetries ->
    remaining <> 0 ->
    snd (loop remaining attempt lastError) = Thrown x ->
    exists k e, x = Some e /\ fn (attempt + k) = Rejected e
                /\ callCount (fst (loop remaining attempt lastError)) = S k.
Proof.
  induction remaining as [|remaining IH]; intros attempt lastError x Hinv Hne;
    [contradiction|].
  rewrite attempts_step.
  destruct (fn attempt) as [v|error] eqn:Hfn; cbn; [discriminate|].
  destruct ((attempt =? maxRetries) || _) eqn:Hc; cbn.
  - intros [= <-]. exists 0, error. rewrite Nat.add_0_r. auto.
  - intros Hout.
    apply orb_false_elim in Hc. destruct Hc as [Hc _].
    apply Nat.eqb_neq in Hc.
    specialize (IH (S attempt) (Some error) x ltac:(lia) ltac:(lia)).
    destruct (loop remaining (S attempt) (Some error)) as [rest out].
    cbn in *. destruct (IH Hout) as (k & e & -> & Hk & Hn).
    exists (S k), e. replace (attempt + S k) with (S attempt + k) by lia.
    unfold callCount in *. cbn. auto.
Qed.

End WithRetryFacts.

(** C4. [withRetry] calls [fn] at most [maxRetries + 1] times. Whenever
    it throws, it throws the very error object of the last call it
    made. If the attempts before attempt [k] fail with retryable errors
    and attempt [k] fails on the last attempt or with a non-retryable
    error, that error is thrown after [k + 1] calls and [k] sleeps. A
    first failure classified Auth is thrown at once: one call and no
    sleep. *)
Theorem withRetry_bounded_transparent (V : Type) (fn : nat -> Settled V)
    (random : nat -> R) (Date_parse : string -> option Z) (Date_now : nat -> Z)
    (options : Options) :
  let run := withRetry fn random Date_parse Date_now options in
  callCount (fst run) <= maxRetriesOf options + 1
  /\ (forall x, snd run = Thrown x ->
        exists k e, x = Some e /\ fn k = Rejected e /\ callCount (fst run) = S k)
  /\ (forall k e,
        k <= maxRetriesOf options ->
        (forall j, j < k -> retryableFailure fn j) ->
        fn k = Rejected e ->
        k = maxRetriesOf options \/ isRetryable (classifyError e (response e)) = false ->
        snd run = Thrown (Some e)
        /\ callCount (fst run) = S k
        /\ length (sleepsOf (fst run)) = k)
  /\ (forall e,
        fn 0 = Rejected e ->
        classifyError e (response e) = AUTH_ERROR ->
        run = ([Call 0], Thrown (Some e))).
Proof.
  unfold withRetry, maxRetriesOf.
  set (maxRetries := match opt_maxRetries options with Some n => n | None => 3 end).
  cbv zeta. split; [|split; [|split]].
  - rewrite Nat.add_1_r. apply attempts_calls_le.
  - intros x Hx.
    destruct (@attempts_throws_last V fn random Date_parse Date_now maxRetries
                _ _ (S maxRetries) 0 None x ltac:(lia) ltac:(lia) Hx)
      as (k & e & He & Hk & Hn).
    exists k, e. auto.
  - intros k e Hk Hpre Hfn Hstop.
    apply attempts_terminal with (attempt := 0); cbn [Nat.add]; auto; try lia.
    intros j Hj. split; [auto | lia].
  - intros e Hfn Hc. rewrite attempts_step, Hfn, Hc.
    cbn [isRetryable retryableTypes existsb ErrorType_eqb orb negb].
    rewrite orb_true_r. reflexivity.
Qed.

Lemma withRetry_bounded_transparent_witness :
  (1 <= maxRetriesOf Examples.oneRetry
   /\ (forall j, j < 1 -> retryableFailure (Examples.alwaysFails Examples.rateLimited) j)
   /\ Examples.alwaysFails Examples.rateLimited 1 = Rejected Examples.rateLimited
   /\ 1 = maxRetriesOf Examples.oneRetry
   /\ classifyError Examples.authFailure (response Examples.authFailure) = AUTH_ERROR)
  /\ (let run := withRetry (Examples.alwaysFails Examples.rateLimited)
                           (fun _ => 0%R) Examples.noDates (fun _ => 0%Z)
                           Examples.oneRetry in
      snd run = Thrown (Some Examples.rateLimited)
      /\ callCount (fst run) = 2
      /\ length (sleepsOf (fst run)) = 1)
  /\ withRetry (Examples.alwaysFails Examples.authFailure)
               (fun _ => 0%R) Examples.noDates (fun _ => 0%Z) Examples.oneRetry
     = ([Call 0], Thrown (Some Examples.authFailure)).
Proof.
  assert (Hpre : forall j, j < 1 ->
                   retryableFailure (Examples.alwaysFails Examples.rateLimited) j).
  { intros j _. exists Examples.rateLimited. split; reflexivity. }
  split; [repeat split; try reflexivity; auto|].
  split.
  - apply (proj1 (proj2 (proj2
             (withRetry_bounded_transparent
                (Examples.alwaysFails Examples.rateLimited)
                (fun _ => 0%R) Examples.noDates (fun _ => 0%Z) Examples.oneRetry)))
             1 Examples.rateLimited).
    + apply Nat.le_refl.
    + exact Hpre.
    + reflexivity.
    + left. reflexivity.
  - apply (proj2 (proj2 (proj2
             (withRetry_bounded_transparent
                (Examples.alwaysFails Examples.authFailure)
                (fun _ => 0%R) Examples.noDates (fun _ => 0%Z) Examples.oneRetry)))
             Examples.authFailure); reflexivity.
Defined.

Local Open Scope R_scope.

Lemma Rmin_nonexpansive (a b m : R) : Rabs (Rmin a m - Rmin b m) <= Rabs (a - b).
Proof.
  unfold Rmin. destruct (Rle_dec a m), (Rle_dec b m); unfold Rabs;
    repeat destruct Rcase_abs; lra.
Qed.

Lemma getRetryDelay_continuous (attempt : nat) (baseDelay maxDelay x : R) :
  continuity_pt (fun u => getRetryDelay u attempt baseDelay maxDelay) x.
Proof.
  unfold continuity_pt, continue_in, limit1_in, limit_in. cbn. unfold Rdist, D_x, no_cond.
  intros eps Heps.
  set (k := baseDelay * 2 ^ attempt * (3 / 10)).
  exists (eps / (Rabs k + 1)).
  assert (Hk : 0 < Rabs k + 1) by (pose proof (Rabs_pos k); lra).
  split; [apply Rdiv_lt_0_compat; lra|].
  intros u [_ Hu]. unfold getRetryDelay.
  eapply Rle_lt_trans; [apply Rmin_nonexpansive|].
  replace (baseDelay * 2 ^ attempt + baseDelay * 2 ^ attempt * u * (3 / 10)
           - (baseDelay * 2 ^ attempt + baseDelay * 2 ^ attempt * x * (3 / 10)))
    with (k * (u - x)) by (unfold k; ring).
  rewrite Rabs_mult.
  apply Rle_lt_trans with ((Rabs k + 1) * Rabs (u - x)).
  - pose proof (Rabs_pos (u - x)). nra.
  - apply Rmult_lt_reg_l with (/ (Rabs k + 1)); [apply Rinv_0_lt_compat; lra|].
    rewrite <- Rmult_assoc, Rinv_l, Rmult_1_l by lra.
    unfold Rdiv in Hu. lra.
Qed.

Lemma getRetryDelay_integrable (attempt : nat) (baseDelay maxDelay : R) :
  Riemann_integrable (fun u => getRetryDelay u attempt baseDelay maxDelay) 0 1.
Proof.
  apply continuity_implies_RiemannInt; [lra|].
  intros x _. apply getRetryDelay_continuous.
Qed.

Lemma pow2_pos (n : nat) : 0 < 2 ^ n.
Proof. apply pow_lt. lra. Qed.

Lemma getRetryDelay_mono_attempt (u : R) (attempt : nat) (baseDelay maxDelay : R) :
  0 < baseDelay -> 0 <= u ->
  getRetryDelay u attempt baseDelay maxDelay <= getRetryDelay u (S attempt) baseDelay maxDelay.
Proof.
  intros Hb Hu. unfold getRetryDelay.
  apply Rle_min_compat_r.
  cbn [pow].
  assert (He : 0 < baseDelay * 2 ^ attempt)
    by (apply Rmult_lt_0_compat; [assumption | apply pow2_pos]).
  assert (Heu : 0 <= baseDelay * 2 ^ attempt * u)
    by (apply Rmult_le_pos; lra).
  lra.
Qed.

(** C8. For a positive base delay, a non-negative cap and a jitter
    sample in [[0, 1)], [getRetryDelay] is
    [min (b * 2^a + b * 2^a * 0.3 * u, m)]; it never exceeds the cap,
    and its mean over the jitter sample does not decrease from one
    attempt to the next. *)
Theorem getRetryDelay_bounded_backoff (attempt : nat) (b m u : R) :
  0 < b -> 0 <= m -> 0 <= u < 1 ->
  getRetryDelay u attempt b m = Rmin (b * 2 ^ attempt + b * 2 ^ attempt * (3 / 10) * u) m
  /\ getRetryDelay u attempt b m <= m
  /\ forall pr1 pr2,
       expectedDelay attempt b m pr1 <= expectedDelay (S attempt) b m pr2.
Proof.
  intros Hb Hm [Hu0 Hu1]. repeat split.
  - unfold getRetryDelay. f_equal. ring.
  - apply Rmin_r.
  - intros pr1 pr2. unfold expectedDelay.
    apply RiemannInt_P19; [lra|].
    intros x [Hx _]. apply getRetryDelay_mono_attempt; lra.
Qed.

Section RetryDelayFacts.

Variable random : nat -> R.
Variable Date_parse : string -> option Z.
Variable Date_now : nat -> Z.
Variables (baseDelay maxDelay : R).

Let delayAfter := retryDelay random Date_parse Date_now baseDelay maxDelay.

(** A hint other than zero is slept as it is. *)
Lemma retryDelay_hint (attempt : nat) (r : Response) (ms : Z) :
  parseRetryAfter Date_parse (Date_now attempt) r = Some ms ->
  ms <> 0%Z ->
  delayAfter attempt RATE_LIMIT (Some r) = IZR ms.
Proof.
  intros Hparse Hms. unfold delayAfter, retryDelay. cbn [ErrorType_eqb].
  rewrite Hparse. apply Z.eqb_neq in Hms. rewrite Hms. reflexivity.
Qed.

(** Without a hint the backoff starts from twice the base delay. *)
Lemma retryDelay_no_hint (attempt : nat) (r : Response) :
  parseRetryAfter Date_parse (Date_now attempt) r = None ->
  delayAfter attempt RATE_LIMIT (Some r)
  = getRetryDelay (random attempt) attempt (baseDelay * 2) maxDelay.
Proof.
  intros Hparse. unfold delayAfter, retryDelay. cbn [ErrorType_eqb].
  rewrite Hparse. reflexivity.
Qed.

(** A rate limit reported without a response is retried on the plain
    backoff. *)
Lemma retryDelay_no_response (attempt : nat) :
  delayAfter attempt RATE_LIMIT None
  = getRetryDelay (random attempt) attempt baseDelay maxDelay.
Proof. reflexivity. Qed.

(** A hint of zero is dropped in favour of the doubled backoff. *)
Lemma retryDelay_zero_hint (attempt : nat) (r : Response) :
  parseRetryAfter Date_parse (Date_now attempt) r = Some 0%Z ->
  delayAfter attempt RATE_LIMIT (Some r)
  = getRetryDelay (random attempt) attempt (baseDelay * 2) maxDelay.
Proof.
  intros Hparse. unfold delayAfter, retryDelay. cbn [ErrorType_eqb].
  rewrite Hparse. reflexivity.
Qed.

End RetryDelayFacts.

Lemma orDefault_None (d : R) : orDefault None d = d.
Proof. reflexivity. Qed.

Lemma getRetryDelay_first_no_jitter :
  getRetryDelay 0 0 (1000 * 2) 30000 = 2000.
Proof.
  unfold getRetryDelay. cbn [pow]. rewrite Rmin_left; lra.
Qed.

(** C7, at the input where the code departs from it: a 429 answer that
    carries [retry-after: 0] parses to a hint of 0 ms, yet the retry
    sleeps the doubled backoff (2000 ms with no jitter) instead of 0 ms.
    A [retry-after] date that lies in the past is floored to the same
    hint of 0 ms. *)
Theorem retryAfter_zero_not_honoured :
  parseRetryAfter Examples.noDates 0 Examples.retryNow = Some 0%Z
  /\ withRetry (Examples.failsOnce Examples.rateLimitedRetryNow)
               (fun _ => 0) Examples.noDates (fun _ => 0%Z) Examples.defaults
     = ([Call 0; OnRetry 0 Examples.rateLimitedRetryNow 2000; Sleep 2000; Call 1],
        Returned 42%nat)
  /\ parseRetryAfter Examples.parseDate 1445412481000 Examples.retryAtDate = Some 0%Z.
Proof.
  split; [reflexivity|]. split; [|reflexivity].
  unfold withRetry. cbn [Examples.defaults opt_maxRetries opt_baseDelay opt_maxDelay].
  rewrite !orDefault_None.
  cbn [attempts Examples.failsOnce].
  replace (classifyError Examples.rateLimitedRetryNow
             (response Examples.rateLimitedRetryNow)) with RATE_LIMIT by reflexivity.
  cbn [Nat.eqb isRetryable retryableTypes existsb ErrorType_eqb orb negb].
  change (response Examples.rateLimitedRetryNow) with (Some Examples.retryNow).
  rewrite (@retryDelay_zero_hint (fun _ => 0) Examples.noDates (fun _ => 0%Z)
             1000 30000 0%nat Examples.retryNow eq_refl).
  rewrite getRetryDelay_first_no_jitter. reflexivity.
Qed.

Lemma getRetryDelay_bounded_backoff_witness :
  (0 < 1000 /\ 0 <= 30000 /\ 0 <= 0 < 1)
  /\ getRetryDelay 0 0 1000 30000 = Rmin (1000 * 2 ^ 0 + 1000 * 2 ^ 0 * (3 / 10) * 0) 30000
  /\ getRetryDelay 0 0 1000 30000 <= 30000
  /\ forall pr1 pr2,
       expectedDelay 0 1000 30000 pr1 <= expectedDelay 1 1000 30000 pr2.
Proof.
  split; [lra|].
  apply (@getRetryDelay_bounded_backoff 0%nat 1000 30000 0); lra.
Defined.

End RetryFacts.

(** * Properties of lib/token-tracker *)

Module TokenTrackerFacts.

Import JsString.
Import TokenTracker.
Import TokenTrackerSpec.
Local Open Scope string_scope.

Lemma includes_empty (s : string) : includes s "" = true.
Proof. destruct s; reflexivity. Qed.

Lemma partialMatch_find (model : string) (models : Table Pricing) :
  partialMatch model models
  = option_map snd
      (find (fun entry => includes model (fst entry) || includes (fst entry) model) models).
Proof.
  induction models as [|[key p] rest IH]; cbn; [reflexivity|].
  destruct (includes model key || includes key model); [reflexivity | exact IH].
Qed.

Lemma lookup_PRICING (provider : string) :
  lookup provider PRICING = None
  \/ exists models, lookup provider PRICING = Some models /\ In models (map snd PRICING).
Proof.
  unfold PRICING. cbn [lookup map snd].
  repeat match goal with
         | |- context [String.eqb provider ?k] => destruct (String.eqb provider k)
         end;
    try (right; eexists; split; [reflexivity | cbn; tauto]).
  left. reflexivity.
Qed.

(** The steps of [getPricing] below the provider test, for a table
    [models] of the price list. *)
Lemma getPricing_steps (models : Table Pricing) (model : string) :
  In models (map snd PRICING) ->
  match (if truthy model then lookup model models else None) with
  | Some p => p
  | None =>
      match (if truthy model then partialMatch model models else None) with
      | Some p => p
      | None => match models with (_, p) :: _ => p | [] => DEFAULT_PRICING end
      end
  end
  = firstOf [ lookup model models;
              option_map snd
                (find (fun entry => includes model (fst entry) || includes (fst entry) model)
                      models);
              option_map snd (hd_error models) ]
            DEFAULT_PRICING.
Proof.
  intros Hin. rewrite <- partialMatch_find.
  destruct model as [|c model'].
  - cbn in Hin. destruct Hin as [<- | [<- | [<- | []]]]; reflexivity.
  - cbn [truthy firstOf fold_right].
    destruct (lookup (String c model') models); [reflexivity|].
    destruct (partialMatch (String c model') models); [reflexivity|].
    destruct models as [|[key p] rest]; reflexivity.
Qed.

Lemma getPricing_resolveRate (provider model : string) :
  getPricing provider model = resolveRate provider model.
Proof.
  unfold getPricing, resolveRate, exactMatch, substringMatch, firstKnownModel, knownModels.
  destruct provider as [|c provider']; [reflexivity|].
  cbn [truthy].
  destruct (lookup_PRICING (String c provider')) as [-> | (models & -> & Hin)].
  - reflexivity.
  - apply getPricing_steps. exact Hin.
Qed.

(** On strings that name no inherited property the code does what
    [getPricing] says. *)
Lemma get_own (A : Type) (table : Table A) (key : string) :
  Notions.ownKey key ->
  TokenTrackerValues.get table key
  = match lookup key table with
    | Some v => TokenTrackerValues.Own v
    | None => TokenTrackerValues.Undefined
    end.
Proof.
  intros Hown. unfold TokenTrackerValues.get.
  destruct (lookup key table); [reflexivity|].
  destruct (TokenTrackerValues.inherited key) eqn:Hin; [|reflexivity].
  exfalso. apply Hown. unfold TokenTrackerValues.inherited in Hin.
  apply existsb_exists in Hin. destruct Hin as (k & Hk & Heq).
  apply String.eqb_eq in Heq. now subst.
Qed.

Lemma getPricingValue_own (hostRead : string -> string -> TokenTrackerValues.HostRead)
    (provider model : string) :
  Notions.ownKey provider ->
  Notions.ownKey model ->
  TokenTrackerValues.getPricingValue hostRead provider model
  = TokenTrackerValues.Normal (TokenTrackerValues.Rate (getPricing provider model)).
Proof.
  intros Hp Hm. unfold TokenTrackerValues.getPricingValue, getPricing.
  destruct (truthy provider); [|reflexivity]. cbn [negb].
  rewrite (get_own PRICING Hp).
  destruct (lookup provider PRICING) as [providerPricing|]; [|reflexivity].
  assert (Hget : (if truthy model then TokenTrackerValues.get providerPricing model
                  else TokenTrackerValues.Undefined)
                 = match (if truthy model then lookup model providerPricing else None) with
                   | Some v => TokenTrackerValues.Own v
                   | None => TokenTrackerValues.Undefined
                   end).
  { destruct (truthy model); [apply (get_own _ Hm) | reflexivity]. }
  rewrite Hget.
  destruct (if truthy model then lookup model providerPricing else None); [reflexivity|].
  destruct (if truthy model then partialMatch model providerPricing else None);
    [reflexivity|].
  destruct providerPricing as [|[key p] rest]; reflexivity.
Qed.

(** There the cost is the one of the rate resolved in the order: exact
    entry, substring match, first model of the provider, default. *)
Lemma calculateCostValue_own (hostRead : string -> string -> TokenTrackerValues.HostRead)
    (provider model : string) (inputUnits outputUnits : Q) :
  Notions.ownKey provider ->
  Notions.ownKey model ->
  TokenTrackerValues.calculateCostValue hostRead provider model inputUnits outputUnits
  = TokenTrackerValues.Normal
      (TokenTrackerValues.Finite
         ((inputUnits / 1000000) * input (resolveRate provider model)
          + (outputUnits / 1000000) * output (resolveRate provider model))%Q).
Proof.
  intros Hp Hm. unfold TokenTrackerValues.calculateCostValue.
  rewrite (getPricingValue_own hostRead Hp Hm), getPricing_resolveRate. reflexivity.
Qed.

(** C9, at the input where the code departs from it: for the model
    name [constructor] the order of resolution gives the rate of the
    first model of [openai], but the exact-match test of the code finds
    the function that every object inherits under that name and returns
    it as the rate, so that the cost is [NaN] for every token count. The
    same happens for each provider of the price list and each inherited
    name. *)
Theorem calculateCost_inherited_model
    (hostRead : string -> string -> TokenTrackerValues.HostRead)
    (inputUnits outputUnits : Q) :
  resolveRate "openai" "constructor" = {| input := 15 # 100; output := 60 # 100 |}
  /\ TokenTrackerValues.getPricingValue hostRead "openai" "constructor"
     = TokenTrackerValues.Normal TokenTrackerValues.NotARate
  /\ TokenTrackerValues.calculateCostValue hostRead "openai" "constructor"
                                           inputUnits outputUnits
     = TokenTrackerValues.Normal TokenTrackerValues.NaN
  /\ Forall (fun provider =>
               Forall (fun model =>
                         TokenTrackerValues.calculateCostValue hostRead provider model
                                                               inputUnits outputUnits
                         = TokenTrackerValues.Normal TokenTrackerValues.NaN)
                      Notions.objectPrototypeKeys)
            (map fst PRICING).
Proof.
  split; [reflexivity|]. split; [reflexivity|]. split; [reflexivity|].
  repeat constructor.
Qed.

Lemma orElse_reported (x : option Z) : orElse x 0 = reported x.
Proof.
  destruct x as [v|]; cbn; [|reflexivity].
  destruct (Z.eqb_spec v 0); congruence.
Qed.

(** C10. A fresh counters object adds up, and [addUsage] keeps the
    counters adding up for every usage report, [null] included, whose
    [totalTokens] is missing, zero, or the sum of its own input and
    output tokens. *)
Theorem addUsage_balanced (total : UsageCounters) (usage : option Usage) :
  balanced createEmptyUsage
  /\ (balanced total -> consistent usage -> balanced (addUsage total usage)).
Proof.
  split; [reflexivity|].
  unfold balanced, consistent. intros Hbal Hcons.
  destruct usage as [u|]; [|exact Hbal].
  cbn. rewrite !orElse_reported, Hbal.
  destruct Hcons as [-> | [-> | ->]]; cbn; try lia.
  destruct (Z.eqb_spec (reported (u_inputTokens u) + reported (u_outputTokens u)) 0) as [E|E];
    lia.
Qed.

Lemma addUsage_balanced_witness :
  (balanced createEmptyUsage
   /\ consistent (Some {| u_inputTokens := Some 10%Z;
                          u_outputTokens := Some 5%Z;
                          u_totalTokens := None |}))
  /\ balanced (addUsage createEmptyUsage
                        (Some {| u_inputTokens := Some 10%Z;
                                 u_outputTokens := Some 5%Z;
                                 u_totalTokens := None |})).
Proof.
  split; [split; [reflexivity | left; reflexivity]|].
  apply (proj2 (addUsage_balanced createEmptyUsage _)).
  - reflexivity.
  - left. reflexivity.
Defined.

(** Passing the totals as their own usage report keeps them adding up
    too. *)
Lemma addUsageAliased_balanced (total : UsageCounters) :
  balanced total -> balanced (addUsageAliased total).
Proof.
  unfold balanced, addUsageAliased, addUsageSteps, asUsage. cbn. intros ->.
  unfold orElse.
  repeat match goal with
         | |- context [Z.eqb ?a 0] => destruct (Z.eqb_spec a 0)
         end; lia.
Qed.

(** Deltas [{in:10,out:5}] then [{in:3,out:2}] give [{in:13,out:7}],
    20 tokens in all. *)
Example addUsage_twice :
  let d1 := {| u_inputTokens := Some 10%Z; u_outputTokens := Some 5%Z;
               u_totalTokens := None |} in
  let d2 := {| u_inputTokens := Some 3%Z; u_outputTokens := Some 2%Z;
               u_totalTokens := None |} in
  let t := addUsage (addUsage createEmptyUsage (Some d1)) (Some d2) in
  inputTokens t = 13%Z /\ outputTokens t = 7%Z /\ totalTokens t = 20%Z.
Proof. repeat split. Qed.

End TokenTrackerFacts.

(** * Properties of the batch loop of lib/analyzer *)

Module AnalyzerFacts.

Import JsString.
Import TokenTracker.
Import Analyzer.
Import AnalyzerSpec.
Local Open Scope nat_scope.

(** *** Arrays *)

Lemma arraySet_length (A : Type) (a : JsArray A) (i : nat) (v : A) :
  i < length a -> length (arraySet a i v) = length a.
Proof.
  revert a. induction i as [|i IH]; intros [|x a] Hi; cbn in *; try lia.
  rewrite IH; lia.
Qed.

Lemma nth_error_arraySet (A : Type) (a : JsArray A) (i j : nat) (v : A) :
  i < length a ->
  nth_error (arraySet a i v) j = if j =? i then Some (Some v) else nth_error a j.
Proof.
  revert a j. induction i as [|i IH]; intros [|x a] j Hi; cbn in *; try lia.
  - destruct j; reflexivity.
  - destruct j as [|j]; [reflexivity|]. cbn. apply IH. lia.
Qed.

Lemma arraySet_end (A : Type) (l : list A) (v : A) :
  arraySet (map Some l) (length l) v = map Some (l ++ [v]).
Proof.
  induction l as [|x l IH]; cbn; [reflexivity|]. now rewrite IH.
Qed.

Lemma compact_map_Some (A : Type) (l : list A) : compact (map Some l) = l.
Proof.
  induction l as [|x l IH]; cbn; [reflexivity|]. now rewrite IH.
Qed.

Lemma forallb_isSome_map (A : Type) (l : list A) : forallb (@isSome A) (map Some l) = true.
Proof. induction l; cbn; auto. Qed.

Lemma nth_error_mapFrom (A B : Type) (f : A -> nat -> B) (l : list A) (i0 i : nat) :
  nth_error (mapFrom i0 f l) i = option_map (fun x => f x (i0 + i)) (nth_error l i).
Proof.
  revert i0 i. induction l as [|x l IH]; intros i0 [|i]; cbn; try reflexivity.
  - now rewrite Nat.add_0_r.
  - rewrite IH. now replace (S i0 + i) with (i0 + S i) by lia.
Qed.

Lemma mapFrom_length (A B : Type) (f : A -> nat -> B) (l : list A) (i0 : nat) :
  length (mapFrom i0 f l) = length l.
Proof. revert i0. induction l as [|x l IH]; intros i0; cbn; [reflexivity|]. now rewrite IH. Qed.

Lemma mapFrom_app (A B : Type) (f : A -> nat -> B) (l1 l2 : list A) (i0 : nat) :
  mapFrom i0 f (l1 ++ l2) = mapFrom i0 f l1 ++ mapFrom (i0 + length l1) f l2.
Proof.
  revert i0. induction l1 as [|x l1 IH]; intros i0; cbn.
  - now rewrite Nat.add_0_r.
  - rewrite IH. now replace (S i0 + length l1) with (i0 + S (length l1)) by lia.
Qed.


(** *** Promise.all *)

Section PromiseAll.

Variable A : Type.
Variable promises : list A.

Let settle (values : JsArray A) (i : nat) : JsArray A :=
  match nth_error promises i with
  | Some v => arraySet values i v
  | None => values
  end.

Let slotsOk := slotsOk promises.

Lemma slotsOk_settle (settledSoFar : list nat) (values : JsArray A) (i : nat) :
  slotsOk settledSoFar values -> slotsOk (i :: settledSoFar) (settle values i).
Proof.
  intros (Hlen & Hown & Hfilled). unfold settle.
  destruct (nth_error promises i) as [v|] eqn:Hi.
  - assert (Hlt : i < length values).
    { rewrite Hlen. apply nth_error_Some. congruence. }
    repeat split.
    + rewrite arraySet_length; assumption.
    + intros j w. rewrite nth_error_arraySet by assumption.
      destruct (Nat.eqb_spec j i) as [-> | _]; [congruence | apply Hown].
    + intros j [<- | Hin] Hj; rewrite nth_error_arraySet by assumption.
      * rewrite Nat.eqb_refl, Hi. reflexivity.
      * destruct (Nat.eqb_spec j i) as [-> | _]; [now rewrite Hi | auto].
  - repeat split; try assumption.
    intros j [<- | Hin] Hj; [|auto].
    apply nth_error_None in Hi. lia.
Qed.

Lemma slotsOk_fold (order : list nat) :
  forall settledSoFar values,
    slotsOk settledSoFar values ->
    slotsOk (rev order ++ settledSoFar) (fold_left settle order values).
Proof.
  induction order as [|i order IH]; intros settledSoFar values H; cbn; [exact H|].
  rewrite <- app_assoc. cbn. apply IH, slotsOk_settle, H.
Qed.

Lemma slotsOk_start : slotsOk [] (repeat None (length promises)).
Proof.
  repeat split.
  - apply repeat_length.
  - intros j v Hj. apply nth_error_In, repeat_spec in Hj. discriminate.
  - intros j [].
Qed.

(** When every promise settles, [Promise.all] delivers the values in
    the order of the promises, whatever the order of settlement. *)
Lemma promiseAll_in_promise_order (order : list nat) :
  (forall i, i < length promises -> In i order) ->
  promiseAll promises order = Some promises.
Proof.
  intros Hall. unfold promiseAll. fold settle.
  pose proof (slotsOk_fold order slotsOk_start) as (Hlen & _ & Hfilled).
  rewrite app_nil_r in Hfilled.
  assert (E : fold_left settle order (repeat None (length promises)) = map Some promises).
  { apply nth_error_ext. intros j. rewrite nth_error_map.
    destruct (Nat.lt_ge_cases j (length promises)) as [Hj | Hj].
    - apply Hfilled; [|assumption]. apply in_rev. rewrite rev_involutive. auto.
    - pose proof Hj as Hj'. apply nth_error_None in Hj'. rewrite Hj'. cbn.
      apply nth_error_None. lia. }
  rewrite E, forallb_isSome_map, compact_map_Some. reflexivity.
Qed.

End PromiseAll.

(** *** Lists *)

Lemma firstn_min_length (A : Type) (l : list A) (n : nat) :
  firstn (Nat.min n (length l)) l = firstn n l.
Proof.
  destruct (Nat.le_ge_cases n (length l)) as [H | H].
  - now rewrite Nat.min_l.
  - rewrite Nat.min_r by assumption. now rewrite !firstn_all2 by lia.
Qed.

Lemma firstn_plus (A : Type) (l : list A) (a b : nat) :
  firstn (a + b) l = firstn a l ++ firstn b (skipn a l).
Proof.
  revert l. induction a as [|a IH]; intros [|x l]; cbn; try reflexivity.
  - now rewrite firstn_nil.
  - now rewrite IH.
Qed.

(** The objects up to the end of a window are those before it followed
    by the window's slice. *)
Lemma firstn_window (A : Type) (l : list A) (batchStart size : nat) :
  batchStart < length l ->
  firstn (batchStart + size) l
  = firstn batchStart l ++ slice l batchStart (Nat.min (batchStart + size) (length l)).
Proof.
  intros Hlt. rewrite firstn_plus. f_equal. unfold slice.
  replace (Nat.min (batchStart + size) (length l) - batchStart)
    with (Nat.min size (length (skipn batchStart l)))
    by (rewrite length_skipn; lia).
  now rewrite firstn_min_length.
Qed.

Lemma slice_length (A : Type) (l : list A) (batchStart size : nat) :
  length (slice l batchStart (Nat.min (batchStart + size) (length l)))
  = Nat.min size (length l - batchStart).
Proof. unfold slice. rewrite length_firstn, length_skipn. lia. Qed.

Lemma workerCalls_app (tr1 tr2 : list Event) :
  workerCalls (tr1 ++ tr2) = workerCalls tr1 ++ workerCalls tr2.
Proof. apply flat_map_app. Qed.

Lemma workerCalls_called (l : list nat) : workerCalls (map WorkerCalled l) = l.
Proof.
  unfold workerCalls. induction l as [|i l IH]; cbn; [reflexivity|]. now rewrite IH.
Qed.

Lemma workerCalls_settled (l : list nat) (batchStart : nat) :
  workerCalls (map (fun i => WorkerSettled (batchStart + i)) l) = [].
Proof. unfold workerCalls. induction l as [|i l IH]; cbn; auto. Qed.

(** *** The window loop *)

Section Batches.

Variable cancelToken : nat -> bool.
Variable analyzeObject : SheetObject -> nat -> Settled AnalysisResult.
Variable timestampAt : nat -> string.
Variable schedule : nat -> list nat.
Variable BATCH_SIZE : nat.
Variable objs : list SheetObject.

Let worker := analyzeWithErrorHandling analyzeObject timestampAt.
Let loop := batches cancelToken analyzeObject timestampAt schedule BATCH_SIZE objs.
Let outcome := outcome analyzeObject timestampAt.
Let stored := stored analyzeObject timestampAt objs.

Hypothesis window_nonempty : 1 <= BATCH_SIZE.
Hypothesis settles : everyCallSettles schedule BATCH_SIZE (length objs).

Lemma worker_index (obj : SheetObject) (i : nat) : index (worker obj i) = i.
Proof. unfold worker, analyzeWithErrorHandling. destruct analyzeObject; reflexivity. Qed.

Lemma worker_indices (batch : list SheetObject) (i0 : nat) :
  map index (mapFrom i0 worker batch) = seq i0 (length batch).
Proof.
  revert i0. induction batch as [|x batch IH]; intros i0; cbn; [reflexivity|].
  now rewrite worker_index, IH.
Qed.

(** [forEach] appends the outcomes of the window, in the order of the
    window, to the summaries stored before it. *)
Lemma storeResult_window (batch : list SheetObject) :
  forall (st : LoopState) (before : list ObjectSummary),
    objectSummaries st = map Some before ->
    let st' := fold_left storeResult (mapFrom (length before) worker batch) st in
    objectSummaries st' = map Some (before ++ mapFrom (length before) outcome batch)
    /\ completedCount st' = completedCount st + length batch
    /\ polls st' = polls st.
Proof.
  induction batch as [|x batch IH]; intros st before Hst; cbn.
  - rewrite app_nil_r, Nat.add_0_r. auto.
  - specialize (IH (storeResult st (worker x (length before))) (before ++ [outcome x (length before)])).
    rewrite length_app, Nat.add_1_r in IH. cbn in IH.
    destruct IH as (Hsum & Hcount & Hpolls).
    + cbn. rewrite worker_index, Hst. apply arraySet_end.
    + rewrite <- app_assoc in Hsum. cbn in Hsum. repeat split; try assumption. lia.
Qed.

(** One turn of the loop: the window that starts at [batchStart]. *)
Lemma batches_window (fuel batchStart : nat) (st : LoopState) :
  batchStart < length objs ->
  cancelToken (polls st) = false ->
  stored batchStart st ->
  exists ev st',
    loop (S fuel) batchStart st
    = (let (rest, r) := loop fuel (batchStart + BATCH_SIZE) st' in (ev ++ rest, r))
    /\ stored (batchStart + BATCH_SIZE) st'
    /\ polls st' = S (polls st)
    /\ workerCalls ev = seq batchStart (Nat.min BATCH_SIZE (length objs - batchStart)).
Proof.
  intros Hlt Hpoll Hst. unfold loop. cbn [batches].
  apply Nat.ltb_lt in Hlt as Hltb. rewrite Hltb, Hpoll.
  set (batchEnd := Nat.min (batchStart + BATCH_SIZE) (length objs)).
  set (batch := slice objs batchStart batchEnd).
  fold worker.
  assert (Hlen : length batch = Nat.min BATCH_SIZE (length objs - batchStart))
    by apply slice_length.
  rewrite promiseAll_in_promise_order.
  2:{ intros i Hi. rewrite mapFrom_length, Hlen in Hi. apply settles; lia. }
  set (st0 := {| objectSummaries := objectSummaries st; totalUsage := totalUsage st;
                 completedCount := completedCount st; polls := S (polls st) |}).
  set (st' := fold_left storeResult (mapFrom batchStart worker batch) st0).
  assert (Hbefore : length (outcomes analyzeObject timestampAt (firstn batchStart objs))
                    = batchStart).
  { unfold outcomes. rewrite mapFrom_length, length_firstn. lia. }
  pose proof (@storeResult_window batch st0
                (outcomes analyzeObject timestampAt (firstn batchStart objs)) Hst) as Hwin.
  rewrite Hbefore in Hwin. fold st' in Hwin.
  destruct Hwin as (Hsum & Hcount & Hpolls).
  match goal with
  | |- exists ev st1, (let (rest0, r0) := _ in (?a ++ ?b ++ ?d :: rest0, r0)) = _ /\ _ =>
      exists (a ++ b ++ [d]), st'
  end.
  split; [|split; [|split]].
  - destruct (batches _ _ _ _ _ _ fuel (batchStart + BATCH_SIZE) st') as [rest r].
    rewrite <- !app_assoc. reflexivity.
  - unfold stored, AnalyzerSpec.stored. rewrite Hsum. f_equal. unfold outcomes.
    rewrite firstn_window by assumption. rewrite mapFrom_app, length_firstn.
    rewrite Nat.min_l by lia. reflexivity.
  - exact Hpolls.
  - rewrite workerCalls_app. cbn [workerCalls flat_map app].
    fold (workerCalls (map (fun r => WorkerCalled (index r)) (mapFrom batchStart worker batch))).
    rewrite <- (map_map index WorkerCalled), workerCalls_called, worker_indices, Hlen.
    rewrite workerCalls_app, workerCalls_settled. cbn. now rewrite app_nil_r.
Qed.

Lemma stored_all (batchStart : nat) (st : LoopState) :
  length objs <= batchStart ->
  stored batchStart st ->
  objectSummaries st = map Some (outcomes analyzeObject timestampAt objs).
Proof.
  unfold stored, AnalyzerSpec.stored. intros Hge ->. now rewrite firstn_all2.
Qed.

(** With no cancellation seen at any window boundary the loop ends
    and has stored every outcome at the index of its object. *)
Lemma batches_complete (fuel : nat) :
  forall batchStart st,
    length objs - batchStart < fuel ->
    stored batchStart st ->
    (forall w, batchStart + w * BATCH_SIZE < length objs ->
               cancelToken (polls st + w) = false) ->
    exists tr st',
      loop fuel batchStart st = (tr, Return st')
      /\ objectSummaries st' = map Some (outcomes analyzeObject timestampAt objs)
      /\ workerCalls tr = seq batchStart (length objs - batchStart).
Proof.
  induction fuel as [|fuel IH]; intros batchStart st Hfuel Hst Hpolls; [lia|].
  destruct (Nat.lt_ge_cases batchStart (length objs)) as [Hlt | Hge].
  - destruct (@batches_window fuel batchStart st Hlt) as (ev & st1 & Hstep & Hst1 & Hp1 & Hev);
      [rewrite <- (Nat.add_0_r (polls st)); apply Hpolls; cbn; lia | assumption |].
    destruct (IH (batchStart + BATCH_SIZE) st1) as (tr & st' & Hrun & Hsum & Htr);
      [lia | assumption | |].
    { intros w Hw. rewrite Hp1. replace (S (polls st) + w) with (polls st + S w) by lia.
      apply Hpolls. cbn. lia. }
    rewrite Hstep, Hrun. exists (ev ++ tr), st'. repeat split; [assumption|].
    rewrite workerCalls_app, Hev, Htr.
    destruct (Nat.le_ge_cases BATCH_SIZE (length objs - batchStart)) as [Hle | Hle].
    + rewrite Nat.min_l by assumption. rewrite <- seq_app. f_equal. lia.
    + rewrite Nat.min_r by assumption.
      replace (length objs - (batchStart + BATCH_SIZE)) with 0 by lia.
      cbn. apply app_nil_r.
  - exists [], st. unfold loop. cbn [batches].
    apply Nat.ltb_ge in Hge as Hgeb. rewrite Hgeb.
    repeat split.
    + eapply stored_all; eassumption.
    + replace (length objs - batchStart) with 0 by lia. reflexivity.
Qed.

(** A cancellation seen before window [w] ends the loop with the
    cancellation error; only the earlier windows have run. *)
Lemma batches_cancelled (w : nat) :
  forall fuel batchStart st,
    length objs - batchStart < fuel ->
    stored batchStart st ->
    (forall j, j < w -> cancelToken (polls st + j) = false) ->
    cancelToken (polls st + w) = true ->
    batchStart + w * BATCH_SIZE < length objs ->
    exists tr,
      loop fuel batchStart st = (tr, Throw cancelled)
      /\ workerCalls tr = seq batchStart (w * BATCH_SIZE).
Proof.
  induction w as [|w IH]; intros fuel batchStart st Hfuel Hst Hbefore Hnow Hlt;
    (destruct fuel as [|fuel]; [lia|]).
  - exists []. unfold loop. cbn [batches].
    cbn in Hlt. rewrite Nat.add_0_r in Hlt, Hnow.
    apply Nat.ltb_lt in Hlt. rewrite Hlt, Hnow. auto.
  - cbn in Hlt.
    destruct (@batches_window fuel batchStart st) as (ev & st1 & Hstep & Hst1 & Hp1 & Hev);
      [lia | rewrite <- (Nat.add_0_r (polls st)); apply Hbefore; lia | assumption |].
    destruct (IH fuel (batchStart + BATCH_SIZE) st1) as (tr & Hrun & Htr);
      [lia | assumption | | | lia |].
    { intros j Hj. rewrite Hp1. replace (S (polls st) + j) with (polls st + S j) by lia.
      apply Hbefore. lia. }
    { rewrite Hp1. replace (S (polls st) + w) with (polls st + S w) by lia. exact Hnow. }
    rewrite Hstep, Hrun. exists (ev ++ tr). split; [reflexivity|].
    rewrite workerCalls_app, Hev, Htr, Nat.min_l by lia.
    rewrite <- seq_app. reflexivity.
Qed.

(** Whenever the loop returns, it has stored every outcome. *)
Lemma batches_returns_all (fuel : nat) :
  forall batchStart st tr st',
    stored batchStart st ->
    loop fuel batchStart st = (tr, Return st') ->
    objectSummaries st' = map Some (outcomes analyzeObject timestampAt objs).
Proof.
  induction fuel as [|fuel IH]; intros batchStart st tr st' Hst; [discriminate|].
  destruct (Nat.lt_ge_cases batchStart (length objs)) as [Hlt | Hge].
  - destruct (cancelToken (polls st)) eqn:Hpoll.
    + unfold loop. cbn [batches]. apply Nat.ltb_lt in Hlt. rewrite Hlt, Hpoll. discriminate.
    + destruct (@batches_window fuel batchStart st Hlt Hpoll Hst)
        as (ev & st1 & Hstep & Hst1 & _).
      rewrite Hstep.
      destruct (loop fuel (batchStart + BATCH_SIZE) st1) as [rest r] eqn:Hrest.
      intros [= _ ->]. eapply IH; eassumption.
  - unfold loop. cbn [batches]. apply Nat.ltb_ge in Hge as Hgeb. rewrite Hgeb.
    intros [= _ <-]. eapply stored_all; eassumption.
Qed.

End Batches.

(** The loop throws nothing but the cancellation error. *)
Lemma batches_throws_cancelled (cancelToken : nat -> bool)
    (analyzeObject : SheetObject -> nat -> Settled AnalysisResult)
    (timestampAt : nat -> string) (schedule : nat -> list nat)
    (BATCH_SIZE : nat) (objs : list SheetObject) (fuel : nat) :
  forall batchStart st e,
    snd (batches cancelToken analyzeObject timestampAt schedule BATCH_SIZE objs
                 fuel batchStart st) = Throw e ->
    e = cancelled.
Proof.
  induction fuel as [|fuel IH]; intros batchStart st e; cbn [batches]; [discriminate|].
  destruct (batchStart <? length objs); [|discriminate].
  destruct (cancelToken (polls st)); [cbn; congruence|].
  destruct (promiseAll _ _); [|discriminate].
  match goal with
  | |- context [batches _ _ _ _ _ _ fuel ?b ?s] =>
      specialize (IH b s e);
      destruct (batches cancelToken analyzeObject timestampAt schedule BATCH_SIZE objs
                        fuel b s) as [rest r]
  end.
  exact IH.
Qed.

(** Among the first [n] reads of a flag either none sees it set, or
    there is a first one that does. *)
Lemma first_true (f : nat -> bool) (n : nat) :
  (forall j, j < n -> f j = false)
  \/ (exists w, w < n /\ f w = true /\ forall j, j < w -> f j = false).
Proof.
  induction n as [|n [IH | (w & Hw & Hf & Hmin)]].
  - left. intros j Hj. lia.
  - destruct (f n) eqn:Hn.
    + right. exists n. auto.
    + left. intros j Hj. destruct (Nat.eq_dec j n) as [-> | Hne]; [assumption|].
      apply IH. lia.
  - right. exists w. auto.
Qed.

Lemma outcome_failed (analyzeObject : SheetObject -> nat -> Settled AnalysisResult)
    (timestampAt : nat -> string) (obj : SheetObject) (k : nat) (err : JsError) :
  analyzeObject obj k = Retry.Rejected err ->
  outcome analyzeObject timestampAt obj k = failedOutcome timestampAt obj k err.
Proof.
  intros H. unfold outcome, analyzeWithErrorHandling. rewrite H. reflexivity.
Qed.

Lemma outcome_ext (analyzeObject analyzeObject' : SheetObject -> nat -> Settled AnalysisResult)
    (timestampAt : nat -> string) (obj : SheetObject) (i : nat) :
  analyzeObject obj i = analyzeObject' obj i ->
  outcome analyzeObject timestampAt obj i = outcome analyzeObject' timestampAt obj i.
Proof.
  intros H. unfold outcome, analyzeWithErrorHandling. rewrite H. reflexivity.
Qed.

Lemma nth_error_outcomes (analyzeObject : SheetObject -> nat -> Settled AnalysisResult)
    (timestampAt : nat -> string) (objs : list SheetObject) (i : nat) :
  nth_error (outcomes analyzeObject timestampAt objs) i
  = option_map (fun obj => outcome analyzeObject timestampAt obj i) (nth_error objs i).
Proof. unfold outcomes. now rewrite nth_error_mapFrom. Qed.

Lemma stored_initial (analyzeObject : SheetObject -> nat -> Settled AnalysisResult)
    (timestampAt : nat -> string) (objs : list SheetObject) (p0 : nat) :
  stored analyzeObject timestampAt objs 0 (initial p0).
Proof. reflexivity. Qed.

(** C1. For every batch size of at least one and every order in which
    the calls of a window settle, the loop, when no cancellation is seen
    at a window boundary, returns, and the summaries it hands on have one
    entry per object, the entry at position [i] being the outcome of
    object [i]. *)
Theorem batches_keep_input_order (cancelToken : nat -> bool)
    (analyzeObject : SheetObject -> nat -> Settled AnalysisResult)
    (timestampAt : nat -> string) (schedule : nat -> list nat)
    (BATCH_SIZE : nat) (objs : list SheetObject) (p0 : nat) :
  1 <= BATCH_SIZE ->
  everyCallSettles schedule BATCH_SIZE (length objs) ->
  (forall w, w * BATCH_SIZE < length objs -> cancelToken (p0 + w) = false) ->
  exists tr st,
    batches cancelToken analyzeObject timestampAt schedule BATCH_SIZE objs
            (S (length objs)) 0 (initial p0) = (tr, Return st)
    /\ length (compact (objectSummaries st)) = length objs
    /\ forall i obj,
         nth_error objs i = Some obj ->
         nth_error (compact (objectSummaries st)) i
         = Some (outcome analyzeObject timestampAt obj i).
Proof.
  intros Hsize Hsettles Hpolls.
  destruct (@batches_complete cancelToken analyzeObject timestampAt schedule BATCH_SIZE objs
              Hsize Hsettles (S (length objs)) 0 (initial p0))
    as (tr & st & Hrun & Hsum & _).
  - lia.
  - apply stored_initial.
  - exact Hpolls.
  - exists tr, st. rewrite Hsum, compact_map_Some. repeat split.
    + exact Hrun.
    + unfold outcomes. apply mapFrom_length.
    + intros i obj Hi. rewrite nth_error_outcomes, Hi. reflexivity.
Qed.

(** C2. If the analysis of object [k] fails, the loop does not throw
    that failure: it ends, and the only error it can throw is the
    cancellation, which it throws just the same if object [k]
    succeeds. When it returns, position [k] holds a failed outcome with
    the error's message, and every other position holds what it holds
    in the run where object [k] is analysed differently. And it does
    return, after calling the worker for every object, object [k]
    included, whenever no window finds the token cancelled. *)
Theorem batches_isolate_failure (cancelToken : nat -> bool)
    (analyzeObject analyzeObject' : SheetObject -> nat -> Settled AnalysisResult)
    (timestampAt : nat -> string) (schedule : nat -> list nat)
    (BATCH_SIZE : nat) (objs : list SheetObject) (p0 k : nat)
    (obj : SheetObject) (err : JsError) :
  1 <= BATCH_SIZE ->
  everyCallSettles schedule BATCH_SIZE (length objs) ->
  nth_error objs k = Some obj ->
  analyzeObject obj k = Retry.Rejected err ->
  (forall o i, i <> k -> analyzeObject o i = analyzeObject' o i) ->
  let run := batches cancelToken analyzeObject timestampAt schedule BATCH_SIZE objs
                     (S (length objs)) 0 (initial p0) in
  let run' := batches cancelToken analyzeObject' timestampAt schedule BATCH_SIZE objs
                      (S (length objs)) 0 (initial p0) in
  snd run <> Never
  /\ (forall e, snd run = Throw e -> e = cancelled /\ snd run' = Throw cancelled)
  /\ (forall st,
        snd run = Return st ->
        nth_error (compact (objectSummaries st)) k
        = Some (failedOutcome timestampAt obj k err)
        /\ summary (failedOutcome timestampAt obj k err)
           = ("Analysis failed: " ++ Retry.message err)%string
        /\ exists st',
             snd run' = Return st'
             /\ forall i, i <> k ->
                  nth_error (compact (objectSummaries st)) i
                  = nth_error (compact (objectSummaries st')) i)
  /\ ((forall w, w * BATCH_SIZE < length objs -> cancelToken (p0 + w) = false) ->
      exists st,
        snd run = Return st
        /\ workerCalls (fst run) = seq 0 (length objs)
        /\ In k (workerCalls (fst run))).
Proof.
  intros Hsize Hsettles Hk Hfail Hagree run run'.
  set (N := length objs) in *.
  destruct (first_true (fun j => cancelToken (p0 + j) && (j * BATCH_SIZE <? N)) N)
    as [Hnone | (w & Hw & Hset & Hfirst)].
  - assert (Hpolls : forall w, w * BATCH_SIZE < N -> cancelToken (p0 + w) = false).
    { intros w Hw. specialize (Hnone w). cbv beta in Hnone.
      apply Nat.ltb_lt in Hw as Hwb. rewrite Hwb, andb_true_r in Hnone.
      apply Hnone. nia. }
    destruct (@batches_complete cancelToken analyzeObject timestampAt schedule BATCH_SIZE
                objs Hsize Hsettles (S N) 0 (initial p0))
      as (tr & st & Hrun & Hsum & Hcalls);
      [lia | apply stored_initial | exact Hpolls |].
    destruct (@batches_complete cancelToken analyzeObject' timestampAt schedule BATCH_SIZE
                objs Hsize Hsettles (S N) 0 (initial p0))
      as (tr' & st' & Hrun' & Hsum' & _);
      [lia | apply stored_initial | exact Hpolls |].
    subst run run'. rewrite Hrun, Hrun'. cbn [fst snd].
    split; [discriminate|]. split; [discriminate|]. split.
    + intros st0 [= <-]. rewrite Hsum, compact_map_Some, nth_error_outcomes, Hk.
      cbn [option_map]. rewrite (outcome_failed _ timestampAt _ _ Hfail).
      split; [reflexivity|]. split; [reflexivity|].
      exists st'. split; [reflexivity|].
      intros i Hi. rewrite Hsum', compact_map_Some, !nth_error_outcomes.
      destruct (nth_error objs i) as [o|]; [|reflexivity].
      cbn [option_map]. f_equal. apply outcome_ext, Hagree, Hi.
    + intros _. exists st. rewrite Hcalls, Nat.sub_0_r.
      split; [reflexivity|]. split; [reflexivity|].
      apply in_seq. split; [lia|]. cbn [Nat.add].
      apply nth_error_Some. rewrite Hk. discriminate.
  - apply andb_prop in Hset. destruct Hset as [Hcancel Hin].
    apply Nat.ltb_lt in Hin.
    assert (Hbefore : forall j, j < w -> cancelToken (p0 + j) = false).
    { intros j Hj. specialize (Hfirst j Hj). cbv beta in Hfirst.
      assert (Hjb : (j * BATCH_SIZE <? N) = true) by (apply Nat.ltb_lt; nia).
      rewrite Hjb, andb_true_r in Hfirst. exact Hfirst. }
    destruct (@batches_cancelled cancelToken analyzeObject timestampAt schedule BATCH_SIZE
                objs Hsize Hsettles w (S N) 0 (initial p0))
      as (tr & Hrun & _);
      [lia | apply stored_initial | exact Hbefore | exact Hcancel | exact Hin |].
    destruct (@batches_cancelled cancelToken analyzeObject' timestampAt schedule BATCH_SIZE
                objs Hsize Hsettles w (S N) 0 (initial p0))
      as (tr' & Hrun' & _);
      [lia | apply stored_initial | exact Hbefore | exact Hcancel | exact Hin |].
    subst run run'. rewrite Hrun, Hrun'. cbn [fst snd].
    split; [discriminate|]. split; [|split; [discriminate|]].
    + intros e [= <-]. auto.
    + intros Hpolls. rewrite (Hpolls w Hin) in Hcancel. discriminate.
Qed.

Section AnalyzeSheetFacts.

Variable cancelToken : nat -> bool.
Variable analyzeObject : SheetObject -> nat -> Settled AnalysisResult.
Variable timestampAt : nat -> string.
Variable timestampEnd : string.
Variable schedule : nat -> list nat.
Variable filterObjects : list SheetObject -> list SheetObject.
Variable allObjects : list SheetObject.
Variable getCurrentSelections : Settled unit.
Variable generateSheetSummary :
  list SheetObject -> list ObjectSummary -> Settled AnalysisResult.
Variable config : Config.

Let objs := filterObjects allObjects.
Let run :=
  analyzeSheet cancelToken analyzeObject timestampAt timestampEnd schedule filterObjects
               (Retry.Resolved allObjects) getCurrentSelections generateSheetSummary config.

Lemma BATCH_SIZE_positive : 1 <= BATCH_SIZE.
Proof. unfold BATCH_SIZE. lia. Qed.

Lemma analyzeSheet_cancelled_on_entry :
  cancelToken 0 = true ->
  run = ([Progress "Fetching sheet objects..."], Throw cancelled).
Proof. intros H. unfold run, analyzeSheet. rewrite H. reflexivity. Qed.

Lemma analyzeSheet_cancelled_at_window (w : nat) :
  everyCallSettles schedule BATCH_SIZE (length objs) ->
  getCurrentSelections = Retry.Resolved tt ->
  existsb (String.eqb (provider config)) providers = true ->
  cancelToken 0 = false ->
  cancelToken 1 = false ->
  (forall j, j < w -> cancelToken (2 + j) = false) ->
  cancelToken (2 + w) = true ->
  w * BATCH_SIZE < length objs ->
  snd run = Throw cancelled /\ workerCalls (fst run) = seq 0 (w * BATCH_SIZE).
Proof.
  intros Hsettles Hsel Hprov H0 H1 Hbefore Hnow Hw.
  destruct (@batches_cancelled cancelToken analyzeObject timestampAt schedule BATCH_SIZE
              objs BATCH_SIZE_positive Hsettles w (S (length objs)) 0 (initial 2))
    as (tr & Hrun & Htr);
    [lia | apply stored_initial | exact Hbefore | exact Hnow | exact Hw |].
  unfold initial in Hrun.
  unfold run, analyzeSheet. cbv zeta. fold objs.
  assert (Hne : (length objs =? 0) = false) by (apply Nat.eqb_neq; lia).
  rewrite H0, Hne, Hsel, H1, Hprov. cbn [negb]. rewrite Hrun. cbn [fst snd].
  split; [reflexivity|].
  rewrite workerCalls_app, Htr. reflexivity.
Qed.

(** C3. If the token is cancelled when the analysis is entered, the
    analysis throws the cancellation error and the worker is not
    called. More generally, if the first cancelled read of the token
    is the one before window [w], the analysis throws the
    cancellation error, so no summaries reach the caller; the worker
    has been called for the objects of the earlier windows only. *)
Theorem analyzeSheet_cancellation (w : nat) :
  (cancelToken 0 = true ->
   snd run = Throw cancelled /\ workerCalls (fst run) = [])
  /\ (everyCallSettles schedule BATCH_SIZE (length objs) ->
      getCurrentSelections = Retry.Resolved tt ->
      existsb (String.eqb (provider config)) providers = true ->
      cancelToken 0 = false ->
      cancelToken 1 = false ->
      (forall j, j < w -> cancelToken (2 + j) = false) ->
      cancelToken (2 + w) = true ->
      w * BATCH_SIZE < length objs ->
      snd run = Throw cancelled /\ workerCalls (fst run) = seq 0 (w * BATCH_SIZE)).
Proof.
  split.
  - intros H. rewrite (analyzeSheet_cancelled_on_entry H). split; reflexivity.
  - apply analyzeSheet_cancelled_at_window.
Qed.

(** Whenever the analysis returns, its summaries are the outcomes of
    the filtered objects in their order. *)
Lemma analyzeSheet_summaries_in_order (tr : list Event) (r : SheetAnalysis) :
  everyCallSettles schedule BATCH_SIZE (length objs) ->
  run = (tr, Return r) ->
  r_objectSummaries r = outcomes analyzeObject timestampAt objs.
Proof.
  intros Hsettles. unfold run, analyzeSheet. cbv zeta. fold objs.
  destruct (cancelToken 0); [discriminate|].
  destruct (Nat.eqb_spec (length objs) 0) as [Hlen | Hlen].
  { intros [= _ <-]. cbn. destruct objs; [reflexivity | discriminate]. }
  destruct getCurrentSelections; [|discriminate].
  destruct (cancelToken 1); [discriminate|].
  destruct (negb _); [discriminate|].
  destruct (batches _ _ _ _ _ _ _ _ _) as [ev [st | e |]] eqn:Hloop; try discriminate.
  destruct (cancelToken (polls st)); [discriminate|].
  destruct (generateSheetSummary _ _); [|discriminate].
  intros [= _ <-]. cbn [r_objectSummaries].
  rewrite (@batches_returns_all cancelToken analyzeObject timestampAt schedule BATCH_SIZE
             objs BATCH_SIZE_positive Hsettles _ _ _ _ _
             (stored_initial analyzeObject timestampAt objs 2) Hloop).
  apply compact_map_Some.
Qed.

End AnalyzeSheetFacts.

(** *** The analysis of five charts, the third of which fails *)

Lemma lastFirst_settles (N : nat) :
  everyCallSettles AnalyzerExamples.lastFirst 3 N.
Proof.
  intros batchStart i Hi _. unfold AnalyzerExamples.lastFirst.
  destruct i as [|[|[|i]]]; cbn; auto. lia.
Qed.

Lemma batches_keep_input_order_witness :
  (1 <= 3
   /\ everyCallSettles AnalyzerExamples.lastFirst 3 (length AnalyzerExamples.fiveCharts)
   /\ (forall w, w * 3 < length AnalyzerExamples.fiveCharts ->
                 AnalyzerExamples.neverCancelled (2 + w) = false))
  /\ exists tr st,
       batches AnalyzerExamples.neverCancelled AnalyzerExamples.failsAtTwo
               AnalyzerExamples.clock AnalyzerExamples.lastFirst 3
               AnalyzerExamples.fiveCharts
               (S (length AnalyzerExamples.fiveCharts)) 0 (initial 2) = (tr, Return st)
       /\ length (compact (objectSummaries st)) = length AnalyzerExamples.fiveCharts
       /\ forall i obj,
            nth_error AnalyzerExamples.fiveCharts i = Some obj ->
            nth_error (compact (objectSummaries st)) i
            = Some (outcome AnalyzerExamples.failsAtTwo AnalyzerExamples.clock obj i).
Proof.
  split.
  - split; [lia|]. split; [apply lastFirst_settles | reflexivity].
  - apply batches_keep_input_order.
    + lia.
    + apply lastFirst_settles.
    + reflexivity.
Defined.

Lemma batches_isolate_failure_witness :
  (1 <= 3
   /\ everyCallSettles AnalyzerExamples.lastFirst 3 (length AnalyzerExamples.fiveCharts)
   /\ nth_error AnalyzerExamples.fiveCharts 2 = Some (AnalyzerExamples.chart 2)
   /\ AnalyzerExamples.failsAtTwo (AnalyzerExamples.chart 2) 2
      = Retry.Rejected AnalyzerExamples.validationFailure
   /\ (forall o i, i <> 2 ->
         AnalyzerExamples.failsAtTwo o i = AnalyzerExamples.succeeds o i)
   /\ (forall w, w * 3 < length AnalyzerExamples.fiveCharts ->
         AnalyzerExamples.neverCancelled (2 + w) = false))
  /\ (let run := batches AnalyzerExamples.neverCancelled AnalyzerExamples.failsAtTwo
                         AnalyzerExamples.clock AnalyzerExamples.lastFirst 3
                         AnalyzerExamples.fiveCharts
                         (S (length AnalyzerExamples.fiveCharts)) 0 (initial 2) in
      let run' := batches AnalyzerExamples.neverCancelled AnalyzerExamples.succeeds
                          AnalyzerExamples.clock AnalyzerExamples.lastFirst 3
                          AnalyzerExamples.fiveCharts
                          (S (length AnalyzerExamples.fiveCharts)) 0 (initial 2) in
      snd run <> Never
      /\ (forall e, snd run = Throw e -> e = cancelled /\ snd run' = Throw cancelled)
      /\ (forall st,
            snd run = Return st ->
            nth_error (compact (objectSummaries st)) 2
            = Some (failedOutcome AnalyzerExamples.clock (AnalyzerExamples.chart 2) 2
                                  AnalyzerExamples.validationFailure)
            /\ summary (failedOutcome AnalyzerExamples.clock (AnalyzerExamples.chart 2) 2
                                      AnalyzerExamples.validationFailure)
               = ("Analysis failed: "
                  ++ Retry.message AnalyzerExamples.validationFailure)%string
            /\ exists st',
                 snd run' = Return st'
                 /\ forall i, i <> 2 ->
                      nth_error (compact (objectSummaries st)) i
                      = nth_error (compact (objectSummaries st')) i)
      /\ exists st,
           snd run = Return st
           /\ workerCalls (fst run) = seq 0 (length AnalyzerExamples.fiveCharts)
           /\ In 2 (workerCalls (fst run))).
Proof.
  assert (Hagree : forall o i, i <> 2 ->
            AnalyzerExamples.failsAtTwo o i = AnalyzerExamples.succeeds o i).
  { intros o i Hi. unfold AnalyzerExamples.failsAtTwo.
    destruct (Nat.eqb_spec i 2); [contradiction | reflexivity]. }
  pose proof (@batches_isolate_failure
                AnalyzerExamples.neverCancelled AnalyzerExamples.failsAtTwo
                AnalyzerExamples.succeeds AnalyzerExamples.clock AnalyzerExamples.lastFirst
                3 AnalyzerExamples.fiveCharts 2 2 (AnalyzerExamples.chart 2)
                AnalyzerExamples.validationFailure
                ltac:(lia) (@lastFirst_settles _) eq_refl eq_refl Hagree)
    as (Hends & Hthrow & Hreturn & Hcompletes).
  split.
  - split; [lia|]. split; [apply lastFirst_settles|].
    split; [reflexivity|]. split; [reflexivity|]. split; [exact Hagree|].
    intros w _. reflexivity.
  - split; [exact Hends|]. split; [exact Hthrow|]. split; [exact Hreturn|].
    apply Hcompletes. intros w _. reflexivity.
Defined.

Lemma analyzeSheet_cancellation_witness :
  (AnalyzerExamples.alreadyCancelled 0 = true
   /\ everyCallSettles AnalyzerExamples.lastFirst BATCH_SIZE
                       (length (AnalyzerExamples.keepAll AnalyzerExamples.fiveCharts))
   /\ existsb (String.eqb (provider AnalyzerExamples.openaiMini)) providers = true
   /\ AnalyzerExamples.cancelledAfterFirstWindow 0 = false
   /\ AnalyzerExamples.cancelledAfterFirstWindow 1 = false
   /\ (forall j, j < 1 -> AnalyzerExamples.cancelledAfterFirstWindow (2 + j) = false)
   /\ AnalyzerExamples.cancelledAfterFirstWindow (2 + 1) = true
   /\ 1 * BATCH_SIZE < length (AnalyzerExamples.keepAll AnalyzerExamples.fiveCharts))
  /\ (snd (AnalyzerExamples.analyzeFive AnalyzerExamples.alreadyCancelled
                                        AnalyzerExamples.succeeds) = Throw cancelled
      /\ workerCalls (fst (AnalyzerExamples.analyzeFive AnalyzerExamples.alreadyCancelled
                                                        AnalyzerExamples.succeeds)) = [])
  /\ (snd (AnalyzerExamples.analyzeFive AnalyzerExamples.cancelledAfterFirstWindow
                                        AnalyzerExamples.succeeds) = Throw cancelled
      /\ workerCalls (fst (AnalyzerExamples.analyzeFive
                             AnalyzerExamples.cancelledAfterFirstWindow
                             AnalyzerExamples.succeeds)) = seq 0 (1 * BATCH_SIZE)).
Proof.
  assert (Hbefore : forall j, j < 1 ->
            AnalyzerExamples.cancelledAfterFirstWindow (2 + j) = false).
  { intros j Hj. replace j with 0 by lia. reflexivity. }
  split; [|split].
  - split; [reflexivity|]. split; [apply lastFirst_settles|].
    split; [reflexivity|]. split; [reflexivity|]. split; [reflexivity|].
    split; [exact Hbefore|]. split; [reflexivity|]. cbn. lia.
  - apply (proj1 (analyzeSheet_cancellation
                    AnalyzerExamples.alreadyCancelled AnalyzerExamples.succeeds
                    AnalyzerExamples.clock "2025-01-01T00:00:01.000Z"
                    AnalyzerExamples.lastFirst AnalyzerExamples.keepAll
                    AnalyzerExamples.fiveCharts (Retry.Resolved tt)
                    AnalyzerExamples.sheetSummarizer AnalyzerExamples.openaiMini 0)).
    reflexivity.
  - apply (proj2 (analyzeSheet_cancellation
                    AnalyzerExamples.cancelledAfterFirstWindow AnalyzerExamples.succeeds
                    AnalyzerExamples.clock "2025-01-01T00:00:01.000Z"
                    AnalyzerExamples.lastFirst AnalyzerExamples.keepAll
                    AnalyzerExamples.fiveCharts (Retry.Resolved tt)
                    AnalyzerExamples.sheetSummarizer AnalyzerExamples.openaiMini 1)).
    + apply lastFirst_settles.
    + reflexivity.
    + reflexivity.
    + reflexivity.
    + reflexivity.
    + exact Hbefore.
    + reflexivity.
    + cbn. lia.
Defined.

(** Five charts, windows of three, the chart at index 2 fails with a
    400 answer: four summaries and one failure at index 2, in the order
    of the charts, after two windows. *)
Example analyzeFive_third_fails :
  match AnalyzerExamples.analyzeFive AnalyzerExamples.neverCancelled
                                     AnalyzerExamples.failsAtTwo with
  | (tr, Return r) =>
      map s_id (r_objectSummaries r)
      = ["chart-0"; "chart-1"; "chart-2"; "chart-3"; "chart-4"]%string
      /\ map error (r_objectSummaries r) = [false; false; true; false; false]
      /\ nth_error (map summary (r_objectSummaries r)) 2
         = Some "Analysis failed: Invalid request"%string
      /\ workerCalls tr = [0; 1; 2; 3; 4]
      /\ filter (fun e => match e with Progress _ => true | _ => false end) tr
         = [ Progress "Fetching sheet objects...";
             Progress "Getting current selections...";
             Progress "Analyzing 1-3 of 5";
             Progress "Completed 3/5 objects";
             Progress "Analyzing 4-5 of 5";
             Progress "Completed 5/5 objects";
             Progress "Generating sheet summary..." ]
      /\ option_map totalTokens (r_usage r) = Some 60%Z
  | _ => False
  end.
Proof. vm_compute. repeat split. Qed.

End AnalyzerFacts.

(** * Further properties of lib/token-tracker *)

(** Proves that a given string is none of the inherited keys. *)
Ltac own_key :=
  unfold Notions.ownKey, Notions.objectPrototypeKeys; cbn [In]; intuition discriminate.

Module TokenTrackerMore.

Import JsString.
Import TokenTracker.
Import TokenTrackerSpec.
Import Notions.
Local Open Scope string_scope.

Lemma lookup_In (A : Type) (key : string) (t : Table A) (v : A) :
  lookup key t = Some v -> In (key, v) t.
Proof.
  induction t as [|[k w] t IH]; cbn; [discriminate|].
  destruct (String.eqb_spec key k) as [-> | _].
  - intros [= ->]. now left.
  - intros H. right. auto.
Qed.

Lemma partialMatch_In (model : string) (models : Table Pricing) (p : Pricing) :
  partialMatch model models = Some p -> exists key, In (key, p) models.
Proof.
  induction models as [|[key q] rest IH]; cbn; [discriminate|].
  destruct (includes model key || includes key model).
  - intros [= ->]. exists key. now left.
  - intros H. destruct (IH H) as [k Hk]. exists k. now right.
Qed.

Lemma getPricing_entry (provider model : string) :
  match lookup provider PRICING with
  | Some models => exists key, In (key, getPricing provider model) models
  | None => getPricing provider model = DEFAULT_PRICING
  end.
Proof.
  unfold getPricing.
  destruct provider as [|c provider'].
  { reflexivity. }
  cbn [truthy].
  destruct (TokenTrackerFacts.lookup_PRICING (String c provider'))
    as [-> | (models & -> & Hin)]; [reflexivity|].
  destruct (if truthy model then lookup model models else None) as [p|] eqn:Hexact.
  { destruct (truthy model); [|discriminate]. exists model. now apply lookup_In. }
  destruct (if truthy model then partialMatch model models else None) as [p|] eqn:Hpart.
  { destruct (truthy model); [|discriminate]. now apply (partialMatch_In model). }
  destruct models as [|[key p] rest].
  - cbn in Hin. destruct Hin as [H | [H | [H | []]]]; discriminate H.
  - exists key. now left.
Qed.

Lemma rates_nonneg (provider model : string) :
  (0 <= input (getPricing provider model))%Q /\ (0 <= output (getPricing provider model))%Q.
Proof.
  pose proof (getPricing_entry provider model) as H.
  destruct (TokenTrackerFacts.lookup_PRICING provider) as [E | (models & E & Hin)];
    rewrite E in H.
  - rewrite H. split; discriminate.
  - destruct H as [key Hkey]. cbn in Hin.
    destruct Hin as [<- | [<- | [<- | []]]]; cbn in Hkey;
      repeat match goal with
             | H : _ \/ _ |- _ => destruct H as [[= _ <-] | H]
             | H : False |- _ => destruct H
             end;
      split; discriminate.
Qed.

(** X1. A price is never taken from another provider, and it is never
    negative: for a provider of the price list the result is an entry of
    that provider's own table, whatever the model string is, and for any
    other provider string it is the default price. The strings are own
    keys of the tables. *)
Theorem getPricing_within_provider (provider model : string) :
  ownKey provider ->
  ownKey model ->
  match lookup provider PRICING with
  | Some models => exists key, In (key, getPricing provider model) models
  | None => getPricing provider model = DEFAULT_PRICING
  end
  /\ (0 <= input (getPricing provider model))%Q
  /\ (0 <= output (getPricing provider model))%Q.
Proof.
  intros _ _. split; [apply getPricing_entry | apply rates_nonneg].
Qed.

Lemma getPricing_within_provider_witness :
  (ownKey "anthropic" /\ ownKey "claude-next")
  /\ (exists key,
        In (key, getPricing "anthropic" "claude-next")
           [ ("claude-3-haiku-20240307", {| input := 25 # 100; output := 125 # 100 |});
             ("claude-3-5-sonnet-20241022", {| input := 300 # 100; output := 1500 # 100 |});
             ("claude-3-sonnet-20240229", {| input := 300 # 100; output := 1500 # 100 |});
             ("claude-3-opus-20240229", {| input := 1500 # 100; output := 7500 # 100 |}) ])
  /\ (0 <= input (getPricing "anthropic" "claude-next"))%Q
  /\ (0 <= output (getPricing "anthropic" "claude-next"))%Q.
Proof.
  assert (Hp : ownKey "anthropic") by own_key.
  assert (Hm : ownKey "claude-next") by own_key.
  split; [split; assumption|].
  exact (getPricing_within_provider Hp Hm).
Defined.

(** X2. More tokens never cost less: the cost grows with each of the
    two counts, is never negative for counts that are not negative, and
    is zero for no tokens. The strings are own keys of the tables. *)
Theorem calculateCost_monotone (provider model : string) (i1 o1 i2 o2 : Q) :
  ownKey provider ->
  ownKey model ->
  (calculateCost provider model 0 0 == 0)%Q
  /\ ((0 <= i1)%Q -> (0 <= o1)%Q -> (0 <= calculateCost provider model i1 o1)%Q)
  /\ ((i1 <= i2)%Q -> (o1 <= o2)%Q ->
      (calculateCost provider model i1 o1 <= calculateCost provider model i2 o2)%Q).
Proof.
  intros _ _. unfold calculateCost.
  destruct (rates_nonneg provider model) as [Hin Hout].
  assert (Hmillion : (0 <= / 1000000)%Q) by discriminate.
  split; [field|]. split.
  - intros Hi Ho.
    apply (Qle_trans _ (0 + 0)); [discriminate|].
    apply Qplus_le_compat; apply Qmult_le_0_compat; try assumption;
      apply Qmult_le_0_compat; assumption.
  - intros Hi Ho.
    apply Qplus_le_compat; apply Qmult_le_compat_r; try assumption;
      apply Qmult_le_compat_r; assumption.
Qed.

Lemma calculateCost_monotone_witness :
  (ownKey "openai" /\ ownKey "gpt-4o" /\ (0 <= 10)%Q /\ (0 <= 5)%Q
   /\ (10 <= 13)%Q /\ (5 <= 7)%Q)
  /\ (calculateCost "openai" "gpt-4o" 0 0 == 0)%Q
  /\ (0 <= calculateCost "openai" "gpt-4o" 10 5)%Q
  /\ (calculateCost "openai" "gpt-4o" 10 5 <= calculateCost "openai" "gpt-4o" 13 7)%Q.
Proof.
  assert (Hp : ownKey "openai") by own_key.
  assert (Hm : ownKey "gpt-4o") by own_key.
  split; [repeat split; try assumption; discriminate|].
  split; [|split].
  - apply (proj1 (@calculateCost_monotone "openai" "gpt-4o" 10 5 13 7 Hp Hm)).
  - apply (proj1 (proj2 (@calculateCost_monotone "openai" "gpt-4o" 10 5 13 7 Hp Hm)));
      discriminate.
  - apply (proj2 (proj2 (@calculateCost_monotone "openai" "gpt-4o" 10 5 13 7 Hp Hm)));
      discriminate.
Defined.

(** *** Accumulated usage *)

Lemma addUsage_fields (total : UsageCounters) (u : option Usage) :
  addUsage total u
  = {| inputTokens := inputTokens total + addedInput u;
       outputTokens := outputTokens total + addedOutput u;
       totalTokens := totalTokens total + addedTotal u;
       estimatedCost := estimatedCost total |}.
Proof.
  destruct u as [u|]; cbn.
  - reflexivity.
  - rewrite !Z.add_0_r. now destruct total.
Qed.

Lemma addAll_fields (reports : list (option Usage)) :
  forall total,
    addAll total reports
    = {| inputTokens := inputTokens total + sumZ (map addedInput reports);
         outputTokens := outputTokens total + sumZ (map addedOutput reports);
         totalTokens := totalTokens total + sumZ (map addedTotal reports);
         estimatedCost := estimatedCost total |}.
Proof.
  unfold addAll.
  induction reports as [|u reports IH]; intros total; cbn.
  - rewrite !Z.add_0_r. now destruct total.
  - rewrite IH, addUsage_fields. cbn [inputTokens outputTokens totalTokens estimatedCost].
    cbn [map]. change (sumZ (?x :: ?l)) with (x + sumZ l)%Z.
    f_equal; symmetry; apply Z.add_assoc.
Qed.

Lemma sumZ_Permutation (l l' : list Z) : Permutation l l' -> sumZ l = sumZ l'.
Proof.
  induction 1 as [|x l l' _ IH|x y l|l l' l'' _ IH1 _ IH2];
    repeat change (sumZ (?a :: ?m)) with (a + sumZ m)%Z.
  - reflexivity.
  - now rewrite IH.
  - rewrite !Z.add_assoc. f_equal. apply Z.add_comm.
  - now rewrite IH1.
Qed.

(** X3. Adding a list of usage reports adds up, counter by counter, what
    each report contributes, and the result does not depend on the order
    in which the reports are added. *)
Theorem addUsage_order_independent (total : UsageCounters)
    (reports reports' : list (option Usage)) :
  inputTokens (addAll total reports)
  = (inputTokens total + sumZ (map addedInput reports))%Z
  /\ outputTokens (addAll total reports)
     = (outputTokens total + sumZ (map addedOutput reports))%Z
  /\ totalTokens (addAll total reports)
     = (totalTokens total + sumZ (map addedTotal reports))%Z
  /\ (Permutation reports reports' -> addAll total reports = addAll total reports').
Proof.
  rewrite !addAll_fields. cbn. repeat split.
  intros Hperm.
  rewrite (sumZ_Permutation (Permutation_map addedInput Hperm)).
  rewrite (sumZ_Permutation (Permutation_map addedOutput Hperm)).
  rewrite (sumZ_Permutation (Permutation_map addedTotal Hperm)).
  reflexivity.
Qed.

Lemma addUsage_order_independent_witness :
  Permutation [Some AnalyzerExamples.tenAndFive; None] [None; Some AnalyzerExamples.tenAndFive]
  /\ addAll createEmptyUsage [Some AnalyzerExamples.tenAndFive; None]
     = addAll createEmptyUsage [None; Some AnalyzerExamples.tenAndFive].
Proof.
  split; [apply perm_swap|].
  apply (proj2 (proj2 (proj2
           (addUsage_order_independent createEmptyUsage
              [Some AnalyzerExamples.tenAndFive; None]
              [None; Some AnalyzerExamples.tenAndFive])))).
  apply perm_swap.
Defined.

(** X4. The token estimate is zero exactly for a missing or empty text,
    and otherwise the least number of four-character groups that cover
    the text. *)
Theorem estimateTokens_ceiling (t : string) :
  TokenEstimate.estimateTokens None = 0%nat
  /\ (TokenEstimate.estimateTokens (Some t) = 0%nat <-> t = "")
  /\ (String.length t <= 4 * TokenEstimate.estimateTokens (Some t))%nat
  /\ (4 * TokenEstimate.estimateTokens (Some t) < String.length t + 4)%nat.
Proof.
  unfold TokenEstimate.estimateTokens, TokenEstimate.ceilQuarter.
  destruct t as [|c t]; cbn [truthy String.length].
  - repeat split; cbn; lia.
  - pose proof (Nat.div_mod_eq (S (String.length t) + 3) 4) as Hdiv.
    pose proof (Nat.mod_upper_bound (S (String.length t) + 3) 4 ltac:(lia)) as Hmod.
    split; [reflexivity|]. split; [|lia].
    split; [intros H; lia | discriminate].
Qed.

End TokenTrackerMore.

(** * Properties of lib/object-filter *)

Module ObjectFilterFacts.

Import JsString.
Import JsText.
Import Analyzer.
Import ObjectFilter.
Import Notions.
Local Open Scope string_scope.
Local Open Scope nat_scope.

(** *** Trimming *)

Lemma trimStart_head (s : string) :
  match trimStart s with
  | String c _ => isTrimSpace c = false
  | EmptyString => True
  end.
Proof.
  induction s as [|c s IH]; cbn; [exact I|].
  destruct (isTrimSpace c) eqn:Hc; [exact IH | exact Hc].
Qed.

Lemma trimStart_fixed (c : ascii) (s : string) :
  isTrimSpace c = false -> trimStart (String c s) = String c s.
Proof. intros H. cbn. now rewrite H. Qed.


Lemma trimEnd_head (c : ascii) (s : string) :
  isTrimSpace c = false -> exists r, trimEnd (String c s) = String c r.
Proof.
  intros H. cbn. destruct (trimEnd s); [rewrite H|]; eauto.
Qed.

Lemma trimEnd_cons (c : ascii) (s : string) :
  trimEnd (String c s)
  = match trimEnd s with
    | EmptyString => if isTrimSpace c then EmptyString else String c EmptyString
    | r => String c r
    end.
Proof. reflexivity. Qed.

Lemma trimEnd_idempotent (s : string) : trimEnd (trimEnd s) = trimEnd s.
Proof.
  induction s as [|c s IH]; [reflexivity|].
  rewrite trimEnd_cons.
  destruct (trimEnd s) as [|a r] eqn:Hs.
  - destruct (isTrimSpace c) eqn:Hc; [reflexivity|].
    rewrite trimEnd_cons. cbn [trimEnd]. now rewrite Hc.
  - rewrite trimEnd_cons, IH. reflexivity.
Qed.

Lemma trim_idempotent (s : string) : trim (trim s) = trim s.
Proof.
  unfold trim. pose proof (trimStart_head s) as Hhead.
  destruct (trimStart s) as [|c t]; [reflexivity|].
  destruct (@trimEnd_head c t Hhead) as [r Hr]. rewrite Hr.
  rewrite (@trimStart_fixed c r Hhead), <- Hr. apply trimEnd_idempotent.
Qed.

Lemma hasChar_trimStart (c : ascii) (s : string) :
  hasChar c s = false -> hasChar c (trimStart s) = false.
Proof.
  induction s as [|a s IH]; cbn; [auto|].
  intros H. apply orb_false_elim in H. destruct H as [Ha Hs].
  destruct (isTrimSpace a); [auto|]. cbn. now rewrite Ha, Hs.
Qed.

Lemma hasChar_trimEnd (c : ascii) (s : string) :
  hasChar c s = false -> hasChar c (trimEnd s) = false.
Proof.
  induction s as [|a s IH]; cbn; [auto|].
  intros H. apply orb_false_elim in H. destruct H as [Ha Hs].
  specialize (IH Hs).
  destruct (trimEnd s) as [|b r].
  - destruct (isTrimSpace a); cbn; [reflexivity | now rewrite Ha].
  - change (hasChar c (String a (String b r)))
      with (Ascii.eqb a c || hasChar c (String b r)).
    now rewrite Ha, IH.
Qed.

Lemma hasChar_trim (c : ascii) (s : string) :
  hasChar c s = false -> hasChar c (trim s) = false.
Proof. intros H. apply hasChar_trimEnd, hasChar_trimStart, H. Qed.

(** *** Splitting and joining *)

Lemma split_not_nil (sep : ascii) (s : string) : split sep s <> [].
Proof.
  destruct s as [|c s]; cbn; [discriminate|].
  destruct (Ascii.eqb c sep); [discriminate|].
  destruct (split sep s); discriminate.
Qed.

Lemma split_pieces (sep : ascii) (s : string) :
  Forall (fun piece => hasChar sep piece = false) (split sep s).
Proof.
  induction s as [|c s IH]; cbn.
  - repeat constructor.
  - destruct (Ascii.eqb c sep) eqn:Hc.
    + constructor; [reflexivity | exact IH].
    + destruct (split sep s) as [|piece pieces]; [repeat constructor; cbn; now rewrite Hc|].
      inversion IH as [|? ? Hp Hps]; subst.
      constructor; [cbn; now rewrite Hc, Hp | exact Hps].
Qed.

Lemma split_single (sep : ascii) (s : string) :
  hasChar sep s = false -> split sep s = [s].
Proof.
  induction s as [|c s IH]; cbn; [reflexivity|].
  intros H. apply orb_false_elim in H. destruct H as [Hc Hs].
  rewrite Hc, (IH Hs). reflexivity.
Qed.

Lemma split_app (sep : ascii) (a rest : string) :
  hasChar sep a = false ->
  split sep (a ++ String sep rest) = a :: split sep rest.
Proof.
  induction a as [|c a IH]; cbn.
  - intros _. now rewrite Ascii.eqb_refl.
  - intros H. apply orb_false_elim in H. destruct H as [Hc Ha].
    rewrite Hc, (IH Ha). reflexivity.
Qed.

Lemma split_join (sep : ascii) (l : list string) :
  l <> [] ->
  Forall (fun piece => hasChar sep piece = false) l ->
  split sep (join (String sep "") l) = l.
Proof.
  induction l as [|x l IH]; [congruence|]. intros _ Hall.
  inversion Hall as [|? ? Hx Hl]; subst.
  destruct l as [|y l].
  - cbn. now apply split_single.
  - change (join (String sep "") (x :: y :: l))
      with (x ++ String sep (join (String sep "") (y :: l))).
    rewrite (@split_app sep x _ Hx).
    f_equal. apply IH; [discriminate | exact Hl].
Qed.

(** *** Excluded ids *)

Lemma nonEmpty_true (s : string) : nonEmpty s = true <-> s <> "".
Proof.
  unfold nonEmpty. destruct s; cbn; split; intros H; try reflexivity;
    try discriminate; try congruence.
Qed.

(** X5. Whatever string is configured, every excluded id that
    [parseExcludedIds] delivers is non-empty, has no white space around
    it and contains no comma; a missing or empty string gives no ids. *)
Theorem parseExcludedIds_clean (excludedIdsStr : option string) :
  Forall cleanId (parseExcludedIds excludedIdsStr)
  /\ parseExcludedIds None = []
  /\ parseExcludedIds (Some "") = [].
Proof.
  split; [|split; reflexivity].
  unfold parseExcludedIds.
  destruct (presentString excludedIdsStr) as [str|]; [|constructor].
  apply Forall_forall. intros id Hin.
  apply filter_In in Hin. destruct Hin as [Hin Hne].
  apply in_map_iff in Hin. destruct Hin as (piece & <- & Hpiece).
  pose proof (split_pieces "," str) as Hall.
  rewrite Forall_forall in Hall. specialize (Hall piece Hpiece).
  repeat split.
  - now apply nonEmpty_true.
  - apply trim_idempotent.
  - now apply hasChar_trim.
Qed.

Lemma join_not_empty (sep : string) (l : list string) :
  l <> [] -> Forall (fun id => id <> "") l -> join sep l <> "".
Proof.
  destruct l as [|x l]; [congruence|]. intros _ Hall.
  inversion Hall as [|? ? Hx _]; subst.
  destruct l; cbn; [assumption|].
  destruct x; [congruence | discriminate].
Qed.

(** X6. Round trip: the ids of a list of clean ids, written out with
    commas between them, are read back as the same list. *)
Theorem parseExcludedIds_join (ids : list string) :
  Forall cleanId ids ->
  parseExcludedIds (Some (join "," ids)) = ids.
Proof.
  intros Hclean.
  destruct ids as [|id0 ids0] eqn:Hids; [reflexivity|]. rewrite <- Hids in *.
  assert (Hne : ids <> []) by (rewrite Hids; discriminate).
  clear Hids.
  assert (Hjoin : join "," ids <> "").
  { apply join_not_empty; [exact Hne|].
    eapply Forall_impl; [|exact Hclean]. now intros id (H & _). }
  unfold parseExcludedIds, presentString.
  destruct (join "," ids) as [|c rest] eqn:Hj; [congruence|]. cbn [truthy].
  rewrite <- Hj, split_join; [|exact Hne|].
  2:{ eapply Forall_impl; [|exact Hclean]. now intros id (_ & _ & H). }
  clear Hj Hjoin Hne.
  induction Hclean as [|id ids (Hid & Htrim & _) _ IH]; [reflexivity|].
  cbn [map filter]. rewrite Htrim.
  apply nonEmpty_true in Hid. rewrite Hid, IH. reflexivity.
Qed.

Lemma parseExcludedIds_join_witness :
  Forall cleanId ["chart-1"; "kpi 2"]
  /\ parseExcludedIds (Some (join "," ["chart-1"; "kpi 2"])) = ["chart-1"; "kpi 2"].
Proof.
  assert (H : Forall cleanId ["chart-1"; "kpi 2"]).
  { repeat constructor; discriminate. }
  split; [exact H | apply parseExcludedIds_join, H].
Defined.

(** *** The filter *)

Lemma contains_In (l : list string) (x : string) : contains l x = true <-> In x l.
Proof.
  unfold contains. rewrite existsb_exists. split.
  - intros (y & Hy & Heq). apply String.eqb_eq in Heq. now subst.
  - intros H. exists x. split; [assumption | apply String.eqb_refl].
Qed.

Lemma filterObjects_analyzable (objects : list SheetObject)
    (config : option FilterConfig) (obj : SheetObject) :
  In obj (filterObjects objects config) -> isAnalyzable (obj_type obj) = true.
Proof.
  unfold filterObjects, isAnalyzable. intros H. apply filter_In in H.
  destruct H as [_ Hkeep]. unfold keeps in Hkeep.
  destruct (contains _ (obj_id obj)); [discriminate|].
  destruct (contains excludedBaseTypes (obj_type obj)); [discriminate | reflexivity].
Qed.

(** X7. Every object that [filterObjects] lets through comes from the
    input, is of none of the excluded base types (also when the
    configuration asks for such a type), has none of the excluded ids,
    and is of one of the included types. *)
Theorem filterObjects_sound (objects : list SheetObject) (config : option FilterConfig)
    (obj : SheetObject) :
  In obj (filterObjects objects config) ->
  In obj objects
  /\ ~ In (obj_type obj) excludedBaseTypes
  /\ ~ In (obj_id obj) (configuredIds config)
  /\ In (obj_type obj) (getIncludedTypes config).
Proof.
  unfold filterObjects. intros H. apply filter_In in H. destruct H as [Hin Hkeep].
  unfold keeps in Hkeep. fold (configuredIds config) in Hkeep.
  destruct (contains (configuredIds config) (obj_id obj)) eqn:Hid; [discriminate|].
  destruct (contains excludedBaseTypes (obj_type obj)) eqn:Hbase; [discriminate|].
  repeat split.
  - exact Hin.
  - intros Hc. apply contains_In in Hc. congruence.
  - intros Hc. apply contains_In in Hc. congruence.
  - now apply contains_In.
Qed.

Lemma filterObjects_sound_witness :
  In FilterExamples.kpi2
     (filterObjects [FilterExamples.container7; AnalyzerExamples.chart 1;
                     FilterExamples.kpi2]
                    (Some FilterExamples.askForContainers))
  /\ In FilterExamples.kpi2
        [FilterExamples.container7; AnalyzerExamples.chart 1; FilterExamples.kpi2]
  /\ ~ In (obj_type FilterExamples.kpi2) excludedBaseTypes
  /\ ~ In (obj_id FilterExamples.kpi2)
          (configuredIds (Some FilterExamples.askForContainers))
  /\ In (obj_type FilterExamples.kpi2)
        (getIncludedTypes (Some FilterExamples.askForContainers)).
Proof.
  assert (H : In FilterExamples.kpi2
                 (filterObjects [FilterExamples.container7; AnalyzerExamples.chart 1;
                                 FilterExamples.kpi2]
                                (Some FilterExamples.askForContainers))).
  { left. reflexivity. }
  split; [exact H | apply filterObjects_sound, H].
Defined.

(** X8. Filtering is stable: filtering a result again with the same
    configuration changes nothing, and a list is filtered piece by
    piece, in order. *)
Theorem filterObjects_stable (objects more : list SheetObject)
    (config : option FilterConfig) :
  filterObjects (filterObjects objects config) config = filterObjects objects config
  /\ filterObjects (objects ++ more)%list config
     = (filterObjects objects config ++ filterObjects more config)%list.
Proof.
  unfold filterObjects. split.
  - induction objects as [|o objects IH]; cbn [filter]; [reflexivity|].
    destruct (keeps _ _ o) eqn:Hk; [|exact IH].
    cbn [filter]. rewrite Hk. f_equal. exact IH.
  - apply filter_app.
Qed.

(** X9. With this filter in [analyzeSheet], whenever the analysis
    returns, its summaries are those of the objects the filter lets
    through, one each and in their order; none is of an excluded base
    type. *)
Theorem analyzeSheet_summarises_filtered (cancelToken : nat -> bool)
    (analyzeObject : SheetObject -> nat -> Settled AnalysisResult)
    (timestampAt : nat -> string) (timestampEnd : string) (schedule : nat -> list nat)
    (filterConfig : option FilterConfig) (allObjects : list SheetObject)
    (getCurrentSelections : Settled unit)
    (generateSheetSummary : list SheetObject -> list ObjectSummary -> Settled AnalysisResult)
    (config : Config) (tr : list Event) (r : SheetAnalysis) :
  AnalyzerSpec.everyCallSettles schedule BATCH_SIZE
    (length (filterObjects allObjects filterConfig)) ->
  analyzeSheet cancelToken analyzeObject timestampAt timestampEnd schedule
               (fun objects => filterObjects objects filterConfig)
               (Retry.Resolved allObjects) getCurrentSelections generateSheetSummary config
  = (tr, Return r) ->
  map s_id (r_objectSummaries r) = map obj_id (filterObjects allObjects filterConfig)
  /\ Forall (fun s => ~ In (s_type s) excludedBaseTypes) (r_objectSummaries r).
Proof.
  intros Hsettles Hrun.
  pose proof (@AnalyzerFacts.analyzeSheet_summaries_in_order
                cancelToken analyzeObject timestampAt timestampEnd schedule
                (fun objects => filterObjects objects filterConfig) allObjects
                getCurrentSelections generateSheetSummary config tr r Hsettles Hrun) as Hsum.
  cbv beta in Hsum. rewrite Hsum.
  assert (Hkept : Forall (fun o => ~ In (obj_type o) excludedBaseTypes)
                         (filterObjects allObjects filterConfig)).
  { apply Forall_forall. intros o Ho Hin. apply contains_In in Hin.
    pose proof (filterObjects_analyzable _ _ _ Ho) as Hok.
    unfold isAnalyzable in Hok. rewrite Hin in Hok. discriminate. }
  revert Hkept. unfold AnalyzerSpec.outcomes.
  generalize (filterObjects allObjects filterConfig) as objs. generalize 0.
  intros i0 objs. revert i0.
  induction objs as [|o objs IH]; intros i0 Hkept; cbn [mapFrom map].
  - split; constructor.
  - inversion Hkept as [|? ? Ho Hrest]; subst.
    destruct (IH (S i0) Hrest) as [Hids Htypes].
    assert (Hout : s_id (AnalyzerSpec.outcome analyzeObject timestampAt o i0) = obj_id o
                   /\ s_type (AnalyzerSpec.outcome analyzeObject timestampAt o i0)
                      = obj_type o).
    { unfold AnalyzerSpec.outcome, analyzeWithErrorHandling.
      destruct (analyzeObject o i0); split; reflexivity. }
    destruct Hout as [Hid Htype].
    split.
    + cbn [map]. now rewrite Hid, Hids.
    + constructor; [now rewrite Htype | exact Htypes].
Qed.

Lemma analyzeSheet_summarises_filtered_witness :
  exists tr r,
    (AnalyzerSpec.everyCallSettles AnalyzerExamples.lastFirst BATCH_SIZE
       (length (filterObjects (FilterExamples.container7 :: AnalyzerExamples.fiveCharts)
                              (Some FilterExamples.askForContainers)))
     /\ analyzeSheet AnalyzerExamples.neverCancelled AnalyzerExamples.succeeds
                     AnalyzerExamples.clock "2025-01-01T00:00:01.000Z"
                     AnalyzerExamples.lastFirst
                     (fun objects =>
                        filterObjects objects (Some FilterExamples.askForContainers))
                     (Retry.Resolved
                        (FilterExamples.container7 :: AnalyzerExamples.fiveCharts))
                     (Retry.Resolved tt) AnalyzerExamples.sheetSummarizer
                     AnalyzerExamples.openaiMini
        = (tr, Return r))
    /\ map s_id (r_objectSummaries r)
       = map obj_id (filterObjects
                       (FilterExamples.container7 :: AnalyzerExamples.fiveCharts)
                       (Some FilterExamples.askForContainers))
    /\ Forall (fun s => ~ In (s_type s) excludedBaseTypes) (r_objectSummaries r).
Proof.
  destruct (analyzeSheet AnalyzerExamples.neverCancelled AnalyzerExamples.succeeds
              AnalyzerExamples.clock "2025-01-01T00:00:01.000Z"
              AnalyzerExamples.lastFirst
              (fun objects =>
                 filterObjects objects (Some FilterExamples.askForContainers))
              (Retry.Resolved (FilterExamples.container7 :: AnalyzerExamples.fiveCharts))
              (Retry.Resolved tt) AnalyzerExamples.sheetSummarizer
              AnalyzerExamples.openaiMini)
    as [tr [r | e |]] eqn:Hrun;
    [|vm_compute in Hrun; discriminate Hrun | vm_compute in Hrun; discriminate Hrun].
  exists tr, r.
  split; [split; [apply AnalyzerFacts.lastFirst_settles | reflexivity]|].
  exact (@analyzeSheet_summarises_filtered _ _ _ _ _ _ _ _ _ _ tr r
           (@AnalyzerFacts.lastFirst_settles _) Hrun).
Defined.

End ObjectFilterFacts.

(** * Properties of the text helpers of lib/analyzer *)

Module MarkdownFacts.

Import JsString.
Import JsText.
Import Markdown.
Import Notions.
Local Open Scope string_scope.
Local Open Scope nat_scope.

(** *** Lengths *)

Lemma length_append (a b : string) :
  String.length (a ++ b) = String.length a + String.length b.
Proof. induction a as [|c a IH]; cbn; [reflexivity | now rewrite IH]. Qed.

Lemma length_take (n : nat) (s : string) : String.length (take n s) <= n.
Proof.
  revert s. induction n as [|n IH]; intros [|c s]; cbn; try lia.
  specialize (IH s). lia.
Qed.

Lemma length_take_le (n : nat) (s : string) :
  String.length (take n s) <= String.length s.
Proof.
  revert s. induction n as [|n IH]; intros [|c s]; cbn; try lia.
  specialize (IH s). lia.
Qed.

Lemma length_trimStart (s : string) :
  String.length (trimStart s) <= String.length s.
Proof.
  induction s as [|c s IH]; cbn; [lia|].
  destruct (isTrimSpace c); cbn; lia.
Qed.

Lemma length_trimEnd (s : string) : String.length (trimEnd s) <= String.length s.
Proof.
  induction s as [|c s IH]; cbn; [lia|].
  destruct (trimEnd s); [destruct (isTrimSpace c)|]; cbn in *; lia.
Qed.

Lemma length_trim (s : string) : String.length (trim s) <= String.length s.
Proof.
  unfold trim. pose proof (length_trimEnd (trimStart s)).
  pose proof (length_trimStart s). lia.
Qed.

Lemma smartTruncate_long (text : string) (maxChars : nat) :
  maxChars < String.length text ->
  (exists body, smartTruncate text maxChars = body ++ "...")
  /\ String.length (smartTruncate text maxChars) <= Nat.max maxChars 3.
Proof.
  unfold smartTruncate. intros H.
  assert (Htext : truthy text = true) by (destruct text; [cbn in H; lia | reflexivity]).
  apply Nat.leb_gt in H as Hb. rewrite Htext, Hb. cbn [negb orb].
  set (truncated := take (maxChars - 3) text).
  assert (Hcut : forall t, String.length t <= maxChars - 3 ->
            String.length (trim t ++ "...") <= Nat.max maxChars 3).
  { intros t Ht. rewrite length_append. pose proof (length_trim t). cbn. lia. }
  pose proof (length_take (maxChars - 3) text) as Hlen. fold truncated in Hlen.
  destruct (lastIndexOf "**" truncated) as [lastOpenBold|].
  - destruct (Nat.even _).
    + split; [eexists; reflexivity|]. apply Hcut.
      pose proof (length_take_le lastOpenBold truncated). lia.
    + split; [eexists; reflexivity | now apply Hcut].
  - split; [eexists; reflexivity | now apply Hcut].
Qed.

(** X10. [smartTruncate] returns a text that fits unchanged; a longer
    text is cut to at most [maxChars] characters, the closing dots
    included, as soon as [maxChars] is at least three (below that the
    result is the three dots alone). *)
Theorem smartTruncate_fits (text : string) (maxChars : nat) :
  (String.length text <= maxChars -> smartTruncate text maxChars = text)
  /\ (maxChars < String.length text ->
      (exists body, smartTruncate text maxChars = body ++ "...")
      /\ String.length (smartTruncate text maxChars) <= Nat.max maxChars 3).
Proof.
  split.
  - unfold smartTruncate. intros H. apply Nat.leb_le in H.
    rewrite H, orb_true_r. reflexivity.
  - apply smartTruncate_long.
Qed.

Lemma smartTruncate_fits_witness :
  (String.length "short" <= 20
   /\ 20 < String.length "hello **world** this is **bold text** here")
  /\ smartTruncate "short" 20 = "short"
  /\ (exists body,
        smartTruncate "hello **world** this is **bold text** here" 20 = body ++ "...")
  /\ String.length (smartTruncate "hello **world** this is **bold text** here" 20)
     <= Nat.max 20 3.
Proof.
  split; [split; cbn; lia|].
  split.
  - apply (proj1 (smartTruncate_fits "short" 20)). cbn. lia.
  - apply (proj2 (smartTruncate_fits "hello **world** this is **bold text** here" 20)).
    cbn. lia.
Defined.

(** *** The replacements *)

Lemma append_empty (s : string) : s ++ "" = s.
Proof. induction s as [|c s IH]; cbn; [reflexivity | now rewrite IH]. Qed.

Lemma append_assoc (a b c : string) : (a ++ b) ++ c = a ++ b ++ c.
Proof. induction a as [|x a IH]; cbn; [reflexivity | now rewrite IH]. Qed.

Lemma dropPrefix_append (p s r : string) : dropPrefix p s = Some r -> s = p ++ r.
Proof.
  revert s. induction p as [|a p IH]; intros s; cbn.
  - now intros [= ->].
  - destruct s as [|b s]; [discriminate|].
    destruct (Ascii.eqb_spec a b) as [-> | _]; [|discriminate].
    intros H. now rewrite (IH _ H).
Qed.

Lemma dropPrefix_refl (p r : string) : dropPrefix p (p ++ r) = Some r.
Proof. induction p as [|a p IH]; cbn; [reflexivity|]. now rewrite Ascii.eqb_refl. Qed.

Lemma spanNonStar_spec (s : string) :
  s = fst (spanNonStar s) ++ snd (spanNonStar s)
  /\ noStar (fst (spanNonStar s)) = true
  /\ (snd (spanNonStar s) = ""
      \/ exists r, snd (spanNonStar s) = String "*" r).
Proof.
  induction s as [|c s (Happ & Hno & Hrest)]; cbn; [auto|].
  destruct (isStar c) eqn:Hc; cbn.
  - repeat split. right. unfold isStar in Hc. apply Ascii.eqb_eq in Hc. subst. eauto.
  - destruct (spanNonStar s) as [g rest]. cbn in *. rewrite Hc.
    repeat split; [now rewrite <- Happ | assumption | assumption].
Qed.

Lemma spanNonStar_run (run r : string) :
  noStar run = true -> spanNonStar (run ++ String "*" r) = (run, String "*" r).
Proof.
  induction run as [|c run IH]; cbn; [reflexivity|].
  intros H. apply andb_prop in H. destruct H as [Hc Hrun].
  apply negb_true_iff in Hc. rewrite Hc, (IH Hrun). reflexivity.
Qed.

Section Star.

(** The delimiters are made of asterisks: [*] followed by [d0]. *)
Variable d0 : string.
Let d := String "*" d0.
Variables opening closing : string.

Lemma dropPrefix_nonstar (a : ascii) (s : string) :
  isStar a = false -> dropPrefix d (String a s) = None.
Proof.
  intros H. unfold d. cbn [dropPrefix]. unfold isStar in H.
  destruct (Ascii.eqb_spec "*"%char a) as [<- | _]; [|reflexivity].
  rewrite Ascii.eqb_refl in H. discriminate.
Qed.

Lemma matchPair_nonstar (a : ascii) (s : string) :
  isStar a = false -> matchPair d (String a s) = None.
Proof. intros H. unfold matchPair. now rewrite dropPrefix_nonstar. Qed.

Lemma matchOrphan_nonstar (a : ascii) (s : string) :
  isStar a = false -> matchOrphan d (String a s) = false.
Proof. intros H. unfold matchOrphan. now rewrite dropPrefix_nonstar. Qed.

Lemma matchPair_spec (s g rest : string) :
  matchPair d s = Some (g, rest) ->
  s = d ++ g ++ d ++ rest /\ noStar g = true /\ g <> "".
Proof.
  unfold matchPair.
  destruct (dropPrefix d s) as [s1|] eqn:H1; [|discriminate].
  destruct (spanNonStar_spec s1) as (Happ & Hno & _).
  destruct (spanNonStar s1) as [g' s2]. cbn in Happ, Hno.
  destruct g' as [|c g']; [discriminate|].
  destruct (dropPrefix d s2) as [s3|] eqn:H3; [|discriminate].
  intros [= <- <-].
  apply dropPrefix_append in H1, H3. subst s2. subst s1.
  repeat split; [assumption | assumption | discriminate].
Qed.

Lemma replacePairsFrom_empty (fuel : nat) :
  replacePairsFrom d opening closing fuel "" = "".
Proof. destruct fuel; reflexivity. Qed.

Lemma replacePairsFrom_nonstar (fuel : nat) (a : ascii) (s : string) :
  isStar a = false ->
  replacePairsFrom d opening closing (S fuel) (String a s)
  = String a (replacePairsFrom d opening closing fuel s).
Proof. intros H. cbn [replacePairsFrom]. now rewrite matchPair_nonstar. Qed.

(** A run without asterisks is copied as it is. *)
Lemma replacePairsFrom_run (run rest : string) :
  forall fuel,
    noStar run = true ->
    replacePairsFrom d opening closing (String.length run + fuel) (run ++ rest)
    = run ++ replacePairsFrom d opening closing fuel rest.
Proof.
  induction run as [|c run IH]; intros fuel H; [reflexivity|].
  cbn in H. apply andb_prop in H. destruct H as [Hc Hrun].
  apply negb_true_iff in Hc.
  cbn [String.length append Nat.add].
  rewrite replacePairsFrom_nonstar by assumption. now rewrite IH.
Qed.

Lemma replacePairs_noStar (s : string) :
  noStar s = true -> replacePairs d opening closing s = s.
Proof.
  intros H. unfold replacePairs.
  pose proof (@replacePairsFrom_run s "" 0 H) as Hrun.
  rewrite append_empty, Nat.add_0_r in Hrun. rewrite Hrun.
  cbn [replacePairsFrom]. apply append_empty.
Qed.

(** A prefix without asterisks survives the replacement. *)
Lemma replacePairsFrom_prefix (p : string) :
  forall s fuel,
    noStar p = true ->
    String.prefix p s = true ->
    String.prefix p (replacePairsFrom d opening closing fuel s) = true.
Proof.
  induction p as [|a p IH]; intros s fuel Hno Hpre.
  - destruct (replacePairsFrom _ _ _ _ _); reflexivity.
  - destruct s as [|b s]; [discriminate|]. cbn in Hpre.
    destruct (ascii_dec a b) as [<- | ]; [|discriminate].
    cbn in Hno. apply andb_prop in Hno. destruct Hno as [Ha Hp].
    apply negb_true_iff in Ha.
    destruct fuel as [|fuel].
    + cbn. destruct (ascii_dec a a); [assumption | contradiction].
    + rewrite replacePairsFrom_nonstar by assumption. cbn.
      destruct (ascii_dec a a); [|contradiction]. now apply IH.
Qed.

Lemma removeOrphan_prefix (p : string) :
  forall s,
    noStar p = true ->
    String.prefix p s = true ->
    String.prefix p (removeOrphan d s) = true.
Proof.
  induction p as [|a p IH]; intros s Hno Hpre.
  - destruct (removeOrphan _ _); reflexivity.
  - destruct s as [|b s]; [discriminate|]. cbn in Hpre.
    destruct (ascii_dec a b) as [<- | ]; [|discriminate].
    cbn in Hno. apply andb_prop in Hno. destruct Hno as [Ha Hp].
    apply negb_true_iff in Ha.
    cbn [removeOrphan]. rewrite matchOrphan_nonstar by assumption. cbn.
    destruct (ascii_dec a a); [|contradiction]. now apply IH.
Qed.

End Star.

(** X11. [stripMarkdown] leaves a text without asterisks as it is,
    never makes a text longer, and takes the markers off a bold or an
    italic phrase. *)
Theorem stripMarkdown_plain (text phrase : string) :
  (noStar text = true -> stripMarkdown text = text)
  /\ String.length (stripMarkdown text) <= String.length text
  /\ (noStar phrase = true -> phrase <> "" ->
      stripMarkdown ("**" ++ phrase ++ "**") = phrase
      /\ stripMarkdown ("*" ++ phrase ++ "*") = phrase).
Proof.
  split; [|split].
  - intros H. unfold stripMarkdown. destruct text as [|c t]; [reflexivity|].
    cbn [truthy negb].
    rewrite (@replacePairs_noStar "*" "" "" _ H).
    apply (@replacePairs_noStar "" "" "" _ H).
  - unfold stripMarkdown. destruct (truthy text); cbn [negb]; [|cbn; lia].
    assert (Hshrink : forall d0 fuel s,
              String.length (replacePairsFrom (String "*" d0) "" "" fuel s)
              <= String.length s).
    { intros d0 fuel. induction fuel as [|fuel IH]; intros s; [cbn; lia|].
      cbn [replacePairsFrom].
      destruct (matchPair (String "*" d0) s) as [[g rest]|] eqn:Hm.
      - apply matchPair_spec in Hm. destruct Hm as (-> & _ & _).
        specialize (IH rest).
        repeat first [rewrite length_append | progress cbn [append String.length]]. lia.
      - destruct s as [|c s]; [cbn; lia|]. specialize (IH s). cbn. lia. }
    unfold replacePairs.
    eapply Nat.le_trans; [apply Hshrink|]. apply Hshrink.
  - intros Hno Hne. unfold stripMarkdown.
    assert (Hlen : String.length phrase <> 0) by (destruct phrase; [congruence | discriminate]).
    split.
    + cbn [append truthy negb].
      assert (E : replacePairs "**" "" "" (String "*" (String "*" (phrase ++ "**")))
                  = phrase).
      { unfold replacePairs. cbn [String.length replacePairsFrom].
        unfold matchPair. cbn [dropPrefix]. rewrite !Ascii.eqb_refl.
        rewrite (@spanNonStar_run phrase "*" Hno).
        destruct phrase as [|c p]; [congruence|].
        cbn [dropPrefix]. rewrite !Ascii.eqb_refl.
        try rewrite replacePairsFrom_empty. cbn [append]. now rewrite !append_empty. }
      rewrite E. apply (@replacePairs_noStar "" "" "" _ Hno).
    + cbn [append truthy negb].
      assert (E : replacePairs "**" "" "" (String "*" (phrase ++ "*"))
                  = String "*" (phrase ++ "*")).
      { unfold replacePairs. cbn [String.length replacePairsFrom].
        destruct phrase as [|c p]; [congruence|].
        cbn in Hno. apply andb_prop in Hno. destruct Hno as [Hc Hp].
        apply negb_true_iff in Hc.
        assert (Hm : matchPair "**" (String "*" (String c p ++ "*")) = None).
        { unfold matchPair. cbn [dropPrefix append]. rewrite Ascii.eqb_refl.
          unfold isStar in Hc.
          destruct (Ascii.eqb_spec "*"%char c) as [<- | _]; [|reflexivity].
          rewrite Ascii.eqb_refl in Hc. discriminate. }
        rewrite Hm. f_equal.
        assert (Hp' : noStar (String c p) = true) by (cbn; now rewrite Hc, Hp).
        rewrite length_append. cbn [String.length]. rewrite Nat.add_1_r.
        replace (S (S (String.length p))) with (String.length (String c p) + 1)
          by (cbn; lia).
        rewrite replacePairsFrom_run by assumption.
        cbn [replacePairsFrom]. unfold matchPair. cbn. reflexivity. }
      rewrite E. unfold replacePairs. cbn [String.length replacePairsFrom].
      unfold matchPair. cbn [dropPrefix]. rewrite Ascii.eqb_refl.
      rewrite (@spanNonStar_run phrase "" Hno).
      destruct phrase as [|c p]; [congruence|].
      cbn [dropPrefix]. rewrite Ascii.eqb_refl.
      try rewrite replacePairsFrom_empty. cbn [append]. now rewrite !append_empty.
Qed.

Lemma stripMarkdown_plain_witness :
  (noStar "Sales are up" = true /\ noStar "up 4%" = true /\ "up 4%" <> "")
  /\ stripMarkdown "Sales are up" = "Sales are up"
  /\ stripMarkdown ("**" ++ "up 4%" ++ "**") = "up 4%"
  /\ stripMarkdown ("*" ++ "up 4%" ++ "*") = "up 4%".
Proof.
  split; [repeat split; discriminate|].
  split.
  - apply (proj1 (stripMarkdown_plain "Sales are up" "")). reflexivity.
  - apply (proj2 (proj2 (stripMarkdown_plain "" "up 4%"))); [reflexivity | discriminate].
Defined.

(** *** No markup but the tags *)

Lemma prefix_append (t a b : string) :
  String.prefix t a = true -> String.prefix t (a ++ b) = true.
Proof.
  revert a. induction t as [|x t IH]; intros a H;
    [destruct (a ++ b); reflexivity|].
  destruct a as [|y a]; [discriminate|]. cbn in *.
  destruct (ascii_dec x y); [now apply IH | discriminate].
Qed.

(** A text without asterisks that is a prefix of [u] followed by the
    end or by an asterisk is a prefix of [u]. *)
Lemma prefix_within_run (t : string) :
  forall u rest,
    noStar t = true ->
    rest = "" \/ (exists r, rest = String "*" r) ->
    String.prefix t (u ++ rest) = true ->
    String.prefix t u = true.
Proof.
  induction t as [|x t IH]; intros u rest Hno Hrest H; [destruct u; reflexivity|].
  cbn in Hno. apply andb_prop in Hno. destruct Hno as [Hx Ht].
  apply negb_true_iff in Hx. unfold isStar in Hx.
  destruct u as [|y u].
  - cbn [append] in H. destruct Hrest as [-> | [r ->]]; [discriminate|].
    cbn in H. destruct (ascii_dec x "*") as [-> | ]; [|discriminate].
    rewrite Ascii.eqb_refl in Hx. discriminate.
  - cbn in *. destruct (ascii_dec x y); [|discriminate]. eapply IH; eassumption.
Qed.

Lemma tags_noStar : forallb noStar tags = true.
Proof. reflexivity. Qed.

Lemma startsWithTag_elim (s : string) :
  startsWithTag s = true ->
  exists t, In t tags /\ noStar t = true /\ String.prefix t s = true.
Proof.
  unfold startsWithTag. rewrite existsb_exists. intros (t & Hin & Hpre).
  exists t. repeat split; try assumption.
  pose proof tags_noStar as Hall. rewrite forallb_forall in Hall. auto.
Qed.

Lemma startsWithTag_intro (t s : string) :
  In t tags -> String.prefix t s = true -> startsWithTag s = true.
Proof. intros Hin Hpre. unfold startsWithTag. rewrite existsb_exists. eauto. Qed.

Lemma wellTagged_cons (c : ascii) (s : string) :
  wellTagged (String c s)
  = (if Ascii.eqb c "<" then startsWithTag (String c s) else true) && wellTagged s.
Proof. reflexivity. Qed.

Lemma wellTagged_app (a b : string) :
  wellTagged a = true -> wellTagged b = true -> wellTagged (a ++ b) = true.
Proof.
  induction a as [|c a IH]; intros Ha Hb; [exact Hb|].
  rewrite wellTagged_cons in Ha. apply andb_prop in Ha. destruct Ha as [Hc Ha].
  change (String c a ++ b) with (String c (a ++ b)). rewrite wellTagged_cons.
  rewrite (IH Ha Hb), andb_true_r.
  destruct (Ascii.eqb c "<"); [|reflexivity].
  destruct (@startsWithTag_elim _ Hc) as (t & Hin & _ & Hpre).
  apply (@startsWithTag_intro t); [assumption|].
  now apply (@prefix_append t (String c a) b).
Qed.

Lemma wellTagged_suffix (a b : string) :
  wellTagged (a ++ b) = true -> wellTagged b = true.
Proof.
  induction a as [|c a IH]; intros H; [exact H|].
  change (String c a ++ b) with (String c (a ++ b)) in H.
  rewrite wellTagged_cons in H. apply andb_prop in H. now apply IH.
Qed.

Lemma wellTagged_run (run rest : string) :
  noStar run = true ->
  rest = "" \/ (exists r, rest = String "*" r) ->
  wellTagged (run ++ rest) = true ->
  wellTagged run = true.
Proof.
  intros _ Hrest. induction run as [|c run IH]; intros H; [reflexivity|].
  change (String c run ++ rest) with (String c (run ++ rest)) in H.
  rewrite wellTagged_cons in H. apply andb_prop in H. destruct H as [Hc H].
  rewrite wellTagged_cons, (IH H), andb_true_r.
  destruct (Ascii.eqb c "<"); [|reflexivity].
  destruct (@startsWithTag_elim _ Hc) as (t & Hin & Hno & Hpre).
  apply (@startsWithTag_intro t); [assumption|].
  now apply (@prefix_within_run t (String c run) rest Hno Hrest).
Qed.

Lemma hasChar_append (c : ascii) (a b : string) :
  hasChar c (a ++ b) = hasChar c a || hasChar c b.
Proof.
  induction a as [|x a IH]; cbn; [reflexivity|]. now rewrite IH, orb_assoc.
Qed.

Lemma hasChar_replaceChar (x c : ascii) (by_ s : string) :
  hasChar x by_ = false ->
  (hasChar x s = false \/ x = c) ->
  hasChar x (replaceChar c by_ s) = false.
Proof.
  intros Hby Hs. induction s as [|a s IH]; [reflexivity|].
  cbn [replaceChar]. destruct (Ascii.eqb_spec a c) as [-> | Hne].
  - rewrite hasChar_append, Hby. cbn [orb]. apply IH.
    destruct Hs as [Hs | ->]; [|now right].
    cbn in Hs. apply orb_false_elim in Hs. left. tauto.
  - cbn [hasChar]. destruct Hs as [Hs | ->].
    + cbn in Hs. apply orb_false_elim in Hs. destruct Hs as [Ha Hs].
      rewrite Ha. cbn [orb]. apply IH. now left.
    + apply Ascii.eqb_neq in Hne. rewrite Hne. cbn [orb]. apply IH. now right.
Qed.

Lemma noStar_append (a b : string) : noStar (a ++ b) = noStar a && noStar b.
Proof.
  induction a as [|x a IH]; cbn; [reflexivity|]. now rewrite IH, andb_assoc.
Qed.

Lemma noStar_replaceChar (c : ascii) (by_ s : string) :
  noStar by_ = true -> noStar s = true -> noStar (replaceChar c by_ s) = true.
Proof.
  intros Hby. induction s as [|a s IH]; [reflexivity|].
  cbn [noStar replaceChar]. intros H. apply andb_prop in H. destruct H as [Ha Hs].
  destruct (Ascii.eqb a c).
  - now rewrite noStar_append, Hby, IH.
  - cbn [noStar]. now rewrite Ha, IH.
Qed.

Lemma escapeHtml_no_markup (text : string) :
  hasChar "<" (escapeHtml text) = false /\ hasChar ">" (escapeHtml text) = false.
Proof.
  unfold escapeHtml. split.
  - apply hasChar_replaceChar; [reflexivity|]. left.
    apply hasChar_replaceChar; [reflexivity | now right].
  - apply hasChar_replaceChar; [reflexivity | now right].
Qed.

Lemma wellTagged_plain (s : string) : hasChar "<" s = false -> wellTagged s = true.
Proof.
  induction s as [|c s IH]; [reflexivity|].
  cbn [hasChar]. intros H. apply orb_false_elim in H. destruct H as [Hc Hs].
  rewrite wellTagged_cons, Hc, (IH Hs). reflexivity.
Qed.

Section TagsOnly.

Variable d0 : string.
Let d := String "*" d0.
Variables opening closing : string.
Hypothesis opening_ok : wellTagged opening = true.
Hypothesis closing_ok : wellTagged closing = true.

Lemma replacePairsFrom_wellTagged (fuel : nat) :
  forall s,
    wellTagged s = true ->
    wellTagged (replacePairsFrom d opening closing fuel s) = true.
Proof.
  induction fuel as [|fuel IH]; intros s Hs; [exact Hs|].
  pose proof (@replacePairsFrom_prefix d0 opening closing) as Hprefix. fold d in Hprefix.
  cbn [replacePairsFrom] in *.
  destruct (matchPair d s) as [[g rest]|] eqn:Hm.
  - apply matchPair_spec in Hm. destruct Hm as (-> & Hg & _).
    apply wellTagged_suffix in Hs.
    assert (Hrest : wellTagged rest = true).
    { apply wellTagged_suffix in Hs. now apply wellTagged_suffix in Hs. }
    apply wellTagged_run in Hs; [|assumption | right; unfold d; cbn; eauto].
    repeat apply wellTagged_app; auto.
  - destruct s as [|c s]; [reflexivity|].
    rewrite wellTagged_cons in Hs. apply andb_prop in Hs. destruct Hs as [Hc Hs].
    rewrite wellTagged_cons, (IH s Hs), andb_true_r.
    destruct (Ascii.eqb c "<"); [|reflexivity].
    destruct (@startsWithTag_elim _ Hc) as (t & Hin & Hno & Hpre).
    apply (@startsWithTag_intro t); [assumption|].
    specialize (Hprefix t (String c s) (S fuel) Hno Hpre).
    cbn [replacePairsFrom] in Hprefix. now rewrite Hm in Hprefix.
Qed.

Lemma removeOrphan_wellTagged (s : string) :
  wellTagged s = true -> wellTagged (removeOrphan d s) = true.
Proof.
  induction s as [|c s IH]; intros Hs.
  - cbn. destruct (matchOrphan d ""); reflexivity.
  - pose proof (@removeOrphan_prefix d0) as Hprefix. fold d in Hprefix.
    cbn [removeOrphan] in *.
    destruct (matchOrphan d (String c s)) eqn:Hm; [reflexivity|].
    rewrite wellTagged_cons in Hs. apply andb_prop in Hs. destruct Hs as [Hc Hs].
    rewrite wellTagged_cons, (IH Hs), andb_true_r.
    destruct (Ascii.eqb c "<"); [|reflexivity].
    destruct (@startsWithTag_elim _ Hc) as (t & Hin & Hno & Hpre).
    apply (@startsWithTag_intro t); [assumption|].
    specialize (Hprefix t (String c s) Hno Hpre).
    cbn [removeOrphan] in Hprefix. now rewrite Hm in Hprefix.
Qed.

End TagsOnly.

(** X12. Whatever the summary text is, every [<] in the HTML that
    [markdownToHtml] makes of it is the start of one of the tags
    [<strong>], [</strong>], [<em>] and [</em>]: markup in the text
    itself never reaches the page unescaped. A text without asterisks
    comes out with neither [<] nor [>] in it. *)
Theorem markdownToHtml_only_own_tags (text : string) :
  wellTagged (markdownToHtml text) = true
  /\ (noStar text = true ->
      hasChar "<" (markdownToHtml text) = false
      /\ hasChar ">" (markdownToHtml text) = false).
Proof.
  unfold markdownToHtml. destruct (truthy text); cbn [negb]; [|split; [|intros _; split]; reflexivity].
  split.
  - apply (@removeOrphan_wellTagged "").
    apply (@removeOrphan_wellTagged "*").
    apply (@replacePairsFrom_wellTagged "" "<em>" "</em>"); try reflexivity.
    apply (@replacePairsFrom_wellTagged "*" "<strong>" "</strong>"); try reflexivity.
    apply wellTagged_plain, escapeHtml_no_markup.
  - intros Hno.
    assert (Hesc : noStar (escapeHtml text) = true).
    { unfold escapeHtml.
      repeat apply noStar_replaceChar; try reflexivity. exact Hno. }
    rewrite (@replacePairs_noStar "*" "<strong>" "</strong>" _ Hesc).
    rewrite (@replacePairs_noStar "" "<em>" "</em>" _ Hesc).
    assert (Horphan : forall d0 s, noStar s = true ->
              hasChar "*" s = false -> removeOrphan (String "*" d0) s = s).
    { intros d0 s _. induction s as [|a s IH]; intros H; [reflexivity|].
      cbn [hasChar] in H. apply orb_false_elim in H. destruct H as [Ha Hs].
      cbn [removeOrphan]. rewrite matchOrphan_nonstar by exact Ha.
      now rewrite IH. }
    assert (Hstar : hasChar "*" (escapeHtml text) = false).
    { clear -Hesc. induction (escapeHtml text) as [|a s IH]; [reflexivity|].
      cbn in *. apply andb_prop in Hesc. destruct Hesc as [Ha Hs].
      apply negb_true_iff in Ha. unfold isStar in Ha. now rewrite Ha, IH. }
    rewrite (Horphan "*" _ Hesc Hstar), (Horphan "" _ Hesc Hstar).
    apply escapeHtml_no_markup.
Qed.

Lemma markdownToHtml_only_own_tags_witness :
  noStar "a <b> & c" = true
  /\ wellTagged (markdownToHtml "<script>**x**</script>") = true
  /\ hasChar "<" (markdownToHtml "a <b> & c") = false
  /\ hasChar ">" (markdownToHtml "a <b> & c") = false.
Proof.
  split; [reflexivity|]. split.
  - apply (proj1 (markdownToHtml_only_own_tags "<script>**x**</script>")).
  - apply (proj2 (markdownToHtml_only_own_tags "a <b> & c")). reflexivity.
Defined.

End MarkdownFacts.

(** * Further properties of lib/analyzer *)

Module AnalyzerMore.

Import JsString.
Import TokenTracker.
Import Analyzer.
Import AnalyzerSpec.
Import AnalyzerNotions.
Import Notions.
Import AnalyzerFacts.
Local Open Scope nat_scope.

Lemma windowsOf_zero (size : nat) : 1 <= size -> windowsOf size 0 = 0.
Proof. intros H. unfold windowsOf. apply Nat.div_small. lia. Qed.

Lemma windowsOf_step (size n : nat) :
  1 <= size -> 0 < n -> windowsOf size n = S (windowsOf size (n - size)).
Proof.
  intros Hsize Hn. unfold windowsOf.
  destruct (Nat.le_gt_cases n size) as [Hle | Hgt].
  - replace (n - size) with 0 by lia. cbn [Nat.add].
    rewrite (Nat.div_small (size - 1) size) by lia.
    replace (n + size - 1) with (n - 1 + 1 * size) by lia.
    rewrite Nat.div_add by lia. rewrite Nat.div_small by lia. reflexivity.
  - replace (n + size - 1) with (n - size + size - 1 + 1 * size) by lia.
    rewrite Nat.div_add by lia. lia.
Qed.



Section Accounting.

Variable cancelToken : nat -> bool.
Variable analyzeObject : SheetObject -> nat -> Settled AnalysisResult.
Variable timestampAt : nat -> string.
Variable schedule : nat -> list nat.
Variable BATCH_SIZE : nat.
Variable objs : list SheetObject.

Let worker := analyzeWithErrorHandling analyzeObject timestampAt.
Let loop := batches cancelToken analyzeObject timestampAt schedule BATCH_SIZE objs.
Let report := reportOf analyzeObject.
Let after := windowState analyzeObject timestampAt BATCH_SIZE objs.

Hypothesis window_nonempty : 1 <= BATCH_SIZE.
Hypothesis settles : everyCallSettles schedule BATCH_SIZE (length objs).

Lemma storeResult_usage (batch : list SheetObject) :
  forall (st : LoopState) (i0 : nat),
    totalUsage (fold_left storeResult (mapFrom i0 worker batch) st)
    = addAll (totalUsage st) (mapFrom i0 report batch)
    /\ polls (fold_left storeResult (mapFrom i0 worker batch) st) = polls st
    /\ completedCount (fold_left storeResult (mapFrom i0 worker batch) st)
       = completedCount st + length batch.
Proof.
  induction batch as [|x batch IH]; intros st i0; cbn [mapFrom fold_left length].
  - repeat split. lia.
  - destruct (IH (storeResult st (worker x i0)) (S i0)) as (Hu & Hp & Hc).
    rewrite Hu, Hp, Hc. unfold addAll. cbn [fold_left storeResult totalUsage polls
                                             completedCount].
    repeat split; [|lia].
    f_equal. unfold report, reportOf, worker, analyzeWithErrorHandling.
    destruct (analyzeObject x i0) as [r|e]; cbn; [|reflexivity].
    destruct (usage r); reflexivity.
Qed.

(** One turn of the loop, with the state it leaves. *)
Lemma batches_turn (fuel batchStart : nat) (st : LoopState) :
  batchStart < length objs ->
  cancelToken (polls st) = false ->
  exists ev,
    loop (S fuel) batchStart st
    = (let (rest, r) := loop fuel (batchStart + BATCH_SIZE) (after batchStart st) in
       (ev ++ rest, r))
    /\ workerCalls ev = seq batchStart (Nat.min BATCH_SIZE (length objs - batchStart))
    /\ existsb isSheetSummaryCalled ev = false.
Proof.
  intros Hlt Hpoll. unfold loop, after, windowState. cbn [batches].
  apply Nat.ltb_lt in Hlt as Hltb. rewrite Hltb, Hpoll.
  set (batch := slice objs batchStart (Nat.min (batchStart + BATCH_SIZE) (length objs))).
  fold worker.
  assert (Hlen : length batch = Nat.min BATCH_SIZE (length objs - batchStart))
    by apply slice_length.
  rewrite promiseAll_in_promise_order.
  2:{ intros i Hi. rewrite mapFrom_length, Hlen in Hi. apply settles; lia. }
  match goal with
  | |- exists ev, (let (rest0, r0) := _ in (?a ++ ?b ++ ?d :: rest0, r0)) = _ /\ _ =>
      exists (a ++ b ++ [d])
  end.
  split; [|split].
  - destruct (batches _ _ _ _ _ _ fuel _ _) as [rest r].
    rewrite <- !app_assoc. reflexivity.
  - rewrite workerCalls_app. cbn [workerCalls flat_map app].
    fold (workerCalls (map (fun r => WorkerCalled (index r))
                           (mapFrom batchStart worker batch))).
    rewrite <- (map_map index WorkerCalled), workerCalls_called.
    unfold worker. rewrite worker_indices, Hlen.
    rewrite workerCalls_app, workerCalls_settled. cbn. now rewrite app_nil_r.
  - rewrite !existsb_app. cbn [existsb isSheetSummaryCalled orb].
    rewrite orb_false_r.
    assert (H1 : forall l : list IndexedResult,
              existsb isSheetSummaryCalled (map (fun r => WorkerCalled (index r)) l)
              = false) by (induction l; auto).
    assert (H2 : forall l : list nat,
              existsb isSheetSummaryCalled
                      (map (fun i => WorkerSettled (batchStart + i)) l) = false)
      by (induction l; auto).
    now rewrite H1, H2.
Qed.

(** What the loop has done when it returns: every object analysed
    once and in order, one read of the token per window, all usage
    reports added. *)
Lemma batches_returns_account (fuel : nat) :
  forall batchStart st tr st',
    length objs - batchStart < fuel ->
    loop fuel batchStart st = (tr, Return st') ->
    workerCalls tr = seq batchStart (length objs - batchStart)
    /\ existsb isSheetSummaryCalled tr = false
    /\ polls st' = polls st + windowsOf BATCH_SIZE (length objs - batchStart)
    /\ completedCount st' = completedCount st + (length objs - batchStart)
    /\ totalUsage st'
       = addAll (totalUsage st) (mapFrom batchStart report (skipn batchStart objs)).
Proof.
  induction fuel as [|fuel IH]; intros batchStart st tr st' Hfuel; [lia|].
  destruct (Nat.lt_ge_cases batchStart (length objs)) as [Hlt | Hge].
  - destruct (cancelToken (polls st)) eqn:Hpoll.
    + unfold loop. cbn [batches]. apply Nat.ltb_lt in Hlt. rewrite Hlt, Hpoll. discriminate.
    + destruct (@batches_turn fuel batchStart st Hlt Hpoll) as (ev & Hstep & Hev & Hno).
      rewrite Hstep.
      destruct (loop fuel (batchStart + BATCH_SIZE) (after batchStart st))
        as [rest r] eqn:Hrest.
      intros [= <- ->].
      assert (Hfuel' : length objs - (batchStart + BATCH_SIZE) < fuel) by lia.
      destruct (IH _ _ _ _ Hfuel' Hrest) as (Hcalls & Hsheet & Hpolls & Hcount & Husage).
      set (batch := slice objs batchStart
                          (Nat.min (batchStart + BATCH_SIZE) (length objs))) in *.
      destruct (storeResult_usage batch
                  {| objectSummaries := objectSummaries st;
                     totalUsage := totalUsage st;
                     completedCount := completedCount st;
                     polls := S (polls st) |} batchStart) as (Hu & Hp & Hc).
      fold worker in Hu, Hp, Hc.
      change (fold_left storeResult (mapFrom batchStart worker batch) _)
        with (after batchStart st) in Hu, Hp, Hc.
      cbn [totalUsage polls completedCount] in Hu, Hp, Hc.
      assert (Hlen : length batch = Nat.min BATCH_SIZE (length objs - batchStart))
        by apply slice_length.
      split; [|split; [|split; [|split]]].
      * rewrite workerCalls_app, Hev, Hcalls.
        destruct (Nat.le_ge_cases BATCH_SIZE (length objs - batchStart)) as [Hle | Hle].
        -- rewrite Nat.min_l by assumption. rewrite <- seq_app. f_equal. lia.
        -- rewrite Nat.min_r by assumption.
           replace (length objs - (batchStart + BATCH_SIZE)) with 0 by lia.
           cbn. apply app_nil_r.
      * rewrite existsb_app, Hno, Hsheet. reflexivity.
      * rewrite Hpolls, Hp.
        rewrite (@windowsOf_step BATCH_SIZE (length objs - batchStart)) by lia.
        replace (length objs - (batchStart + BATCH_SIZE))
          with (length objs - batchStart - BATCH_SIZE) by lia.
        lia.
      * rewrite Hcount, Hc, Hlen. lia.
      * rewrite Husage, Hu. unfold addAll. rewrite <- fold_left_app. f_equal.
        assert (Hskip : skipn batchStart objs
                        = batch ++ skipn (batchStart + BATCH_SIZE) objs).
        { unfold batch, slice.
          replace (Nat.min (batchStart + BATCH_SIZE) (length objs) - batchStart)
            with (Nat.min BATCH_SIZE (length (skipn batchStart objs)))
            by (rewrite length_skipn; lia).
          rewrite firstn_min_length.
          rewrite <- (firstn_skipn BATCH_SIZE (skipn batchStart objs)) at 1.
          f_equal. rewrite skipn_skipn. f_equal. lia. }
        rewrite Hskip, mapFrom_app, Hlen. f_equal.
        destruct (Nat.le_ge_cases BATCH_SIZE (length objs - batchStart)) as [Hle | Hle].
        -- now rewrite Nat.min_l by assumption.
        -- rewrite (skipn_all2 objs (n := batchStart + BATCH_SIZE)) by lia. reflexivity.
  - unfold loop. cbn [batches]. apply Nat.ltb_ge in Hge as Hgeb. rewrite Hgeb.
    intros [= <- <-].
    replace (length objs - batchStart) with 0 by lia.
    rewrite windowsOf_zero by assumption.
    rewrite skipn_all2 by lia.
    repeat split; cbn; lia.
Qed.

End Accounting.


Section Sheet.

Variable cancelToken : nat -> bool.
Variable analyzeObject : SheetObject -> nat -> Settled AnalysisResult.
Variable timestampAt : nat -> string.
Variable timestampEnd : string.
Variable schedule : nat -> list nat.
Variable filterObjects : list SheetObject -> list SheetObject.
Variable getSheetObjects : Settled (list SheetObject).
Variable getCurrentSelections : Settled unit.
Variable generateSheetSummary :
  list SheetObject -> list ObjectSummary -> Settled AnalysisResult.
Variable config : Config.

Let run :=
  analyzeSheet cancelToken analyzeObject timestampAt timestampEnd schedule filterObjects
               getSheetObjects getCurrentSelections generateSheetSummary config.





(** X15. A failure after the last window loses the object summaries:
    when no cancellation is seen up to the last window, a token found
    cancelled by the read that follows the loop makes the analysis
    throw the cancellation error without asking for the sheet summary,
    and a sheet summary that fails makes it throw that failure; in both
    cases every object has been analysed. The token is read once per
    window, [N / 3] rounded up times. *)
Theorem analyzeSheet_late_failure (allObjects : list SheetObject) (e : JsError) :
  let objs := filterObjects allObjects in
  let lastRead := 2 + windowsOf BATCH_SIZE (length objs) in
  getSheetObjects = Retry.Resolved allObjects ->
  0 < length objs ->
  getCurrentSelections = Retry.Resolved tt ->
  existsb (String.eqb (provider config)) providers = true ->
  cancelToken 0 = false ->
  cancelToken 1 = false ->
  (forall w, w * BATCH_SIZE < length objs -> cancelToken (2 + w) = false) ->
  everyCallSettles schedule BATCH_SIZE (length objs) ->
  (cancelToken lastRead = true ->
   snd run = Throw cancelled
   /\ workerCalls (fst run) = seq 0 (length objs)
   /\ existsb isSheetSummaryCalled (fst run) = false)
  /\ (cancelToken lastRead = false ->
      generateSheetSummary objs (outcomes analyzeObject timestampAt objs)
      = Retry.Rejected e ->
      snd run = Throw e /\ workerCalls (fst run) = seq 0 (length objs)).
Proof.
  intros objs lastRead Hget Hlen Hsel Hprov H0 H1 Hpolls Hsettles.
  destruct (@batches_complete cancelToken analyzeObject timestampAt schedule BATCH_SIZE
              objs BATCH_SIZE_positive Hsettles (S (length objs)) 0 (initial 2))
    as (ev & st & Hloop & Hsum & _);
    [lia | apply stored_initial | exact Hpolls |].
  assert (Hfuel : length objs - 0 < S (length objs)) by lia.
  destruct (@batches_returns_account cancelToken analyzeObject timestampAt schedule
              BATCH_SIZE objs BATCH_SIZE_positive Hsettles _ _ _ _ _ Hfuel Hloop)
    as (Hcalls & Hnone & Hreads & _).
  rewrite Nat.sub_0_r in Hcalls, Hreads. cbn [polls initial] in Hreads.
  fold lastRead in Hreads.
  assert (Hne : (length objs =? 0) = false) by (apply Nat.eqb_neq; lia).
  unfold initial in Hloop.
  unfold run, analyzeSheet. cbv zeta. fold objs.
  rewrite Hget, H0. fold objs. rewrite Hne, Hsel, H1, Hprov. cbn [negb].
  rewrite Hloop, Hreads, Hsum, compact_map_Some.
  split.
  - intros Hlast. rewrite Hlast. cbn [fst snd].
    rewrite !workerCalls_app, !existsb_app, Hcalls, Hnone. auto.
  - intros Hlast Hfail. rewrite Hlast, Hfail. cbn [fst snd].
    rewrite !workerCalls_app, Hcalls. split; [reflexivity|].
    cbn. now rewrite app_nil_r.
Qed.

End Sheet.



Lemma analyzeSheet_late_failure_witness :
  (0 < length (AnalyzerExamples.keepAll AnalyzerExamples.fiveCharts)
   /\ LateExamples.cancelledDuringLastWindow 0 = false
   /\ LateExamples.cancelledDuringLastWindow 1 = false
   /\ LateExamples.cancelledDuringLastWindow
        (2 + windowsOf BATCH_SIZE
               (length (AnalyzerExamples.keepAll AnalyzerExamples.fiveCharts))) = true
   /\ AnalyzerExamples.neverCancelled
        (2 + windowsOf BATCH_SIZE
               (length (AnalyzerExamples.keepAll AnalyzerExamples.fiveCharts))) = false
   /\ LateExamples.failingSummarizer
        (AnalyzerExamples.keepAll AnalyzerExamples.fiveCharts)
        (outcomes AnalyzerExamples.succeeds AnalyzerExamples.clock
                  (AnalyzerExamples.keepAll AnalyzerExamples.fiveCharts))
      = Retry.Rejected LateExamples.serverFailure)
  /\ (snd (LateExamples.analyzeFiveWith LateExamples.cancelledDuringLastWindow
                                        AnalyzerExamples.sheetSummarizer)
      = Throw cancelled
      /\ workerCalls (fst (LateExamples.analyzeFiveWith
                             LateExamples.cancelledDuringLastWindow
                             AnalyzerExamples.sheetSummarizer)) = seq 0 5
      /\ existsb isSheetSummaryCalled
           (fst (LateExamples.analyzeFiveWith LateExamples.cancelledDuringLastWindow
                                              AnalyzerExamples.sheetSummarizer)) = false)
  /\ (snd (LateExamples.analyzeFiveWith AnalyzerExamples.neverCancelled
                                        LateExamples.failingSummarizer)
      = Throw LateExamples.serverFailure
      /\ workerCalls (fst (LateExamples.analyzeFiveWith AnalyzerExamples.neverCancelled
                                                        LateExamples.failingSummarizer))
         = seq 0 5).
Proof.
  assert (Hwindows : forall w, w * BATCH_SIZE < 5 ->
            LateExamples.cancelledDuringLastWindow (2 + w) = false).
  { intros w Hw. unfold BATCH_SIZE in Hw.
    destruct w as [|[|w]]; [reflexivity | reflexivity | lia]. }
  split; [repeat split; cbn; lia|].
  split.
  - apply (proj1 (@analyzeSheet_late_failure
                    LateExamples.cancelledDuringLastWindow AnalyzerExamples.succeeds
                    AnalyzerExamples.clock "2025-01-01T00:00:01.000Z"
                    AnalyzerExamples.lastFirst AnalyzerExamples.keepAll
                    (Retry.Resolved AnalyzerExamples.fiveCharts) (Retry.Resolved tt)
                    AnalyzerExamples.sheetSummarizer AnalyzerExamples.openaiMini
                    AnalyzerExamples.fiveCharts LateExamples.serverFailure
                    eq_refl ltac:(cbn; lia) eq_refl eq_refl eq_refl eq_refl
                    Hwindows (@lastFirst_settles _))).
    reflexivity.
  - apply (proj2 (@analyzeSheet_late_failure
                    AnalyzerExamples.neverCancelled AnalyzerExamples.succeeds
                    AnalyzerExamples.clock "2025-01-01T00:00:01.000Z"
                    AnalyzerExamples.lastFirst AnalyzerExamples.keepAll
                    (Retry.Resolved AnalyzerExamples.fiveCharts) (Retry.Resolved tt)
                    LateExamples.failingSummarizer AnalyzerExamples.openaiMini
                    AnalyzerExamples.fiveCharts LateExamples.serverFailure
                    eq_refl ltac:(cbn; lia) eq_refl eq_refl eq_refl eq_refl
                    (fun _ _ => eq_refl) (@lastFirst_settles _))); reflexivity.
Defined.

End AnalyzerMore.

(** ** Further properties of the retry loop *)

Module RetryMore.

Import JsString.
Import Retry.
Import RetrySpec.
Import RetryNotions.
Import RetryFacts.
Local Open Scope string_scope.
Local Open Scope nat_scope.

Section Sleeps.

Variable V : Type.
Variable fn : nat -> Settled V.
Variable random : nat -> R.
Variable Date_parse : string -> option Z.
Variable Date_now : nat -> Z.
Variables (maxRetries : nat) (baseDelay maxDelay : R).

Let loop := attempts fn random Date_parse Date_now maxRetries baseDelay maxDelay.

Lemma getRetryDelay_le_max (u : R) (attempt : nat) (b m : R) :
  (getRetryDelay u attempt b m <= m)%R.
Proof. unfold getRetryDelay. apply Rmin_r. Qed.

Lemma retryDelay_le_max (attempt : nat) (e : JsError) :
  (forall r, response e = Some r -> headers_get r "retry-after" = None) ->
  (retryDelay random Date_parse Date_now baseDelay maxDelay attempt
              (classifyError e (response e)) (response e) <= maxDelay)%R.
Proof.
  intros Hnone. unfold retryDelay.
  destruct (ErrorType_eqb _ RATE_LIMIT); [|apply getRetryDelay_le_max].
  destruct (response e) as [r|]; [|apply getRetryDelay_le_max].
  unfold parseRetryAfter. rewrite (Hnone r eq_refl). apply getRetryDelay_le_max.
Qed.

Lemma attempts_one_sleep_between_calls (remaining : nat) :
  forall attempt lastError,
    attempt + remaining = S maxRetries ->
    remaining <> 0 ->
    callCount (fst (loop remaining attempt lastError))
    = S (length (sleepsOf (fst (loop remaining attempt lastError)))).
Proof.
  induction remaining as [|remaining IH]; intros attempt lastError Hinv Hne;
    [contradiction|].
  unfold loop. rewrite attempts_step.
  destruct (fn attempt) as [v|error]; [reflexivity|].
  destruct ((attempt =? maxRetries) || _) eqn:Hc; [reflexivity|].
  apply orb_false_elim in Hc. destruct Hc as [Hc _]. apply Nat.eqb_neq in Hc.
  specialize (IH (S attempt) (Some error) ltac:(lia) ltac:(lia)).
  unfold loop in IH.
  destruct (attempts fn random Date_parse Date_now maxRetries baseDelay maxDelay
                     remaining (S attempt) (Some error)) as [rest out].
  cbn in *. unfold callCount in *. cbn. now rewrite IH.
Qed.

Lemma attempts_sleeps_le_max (remaining : nat) :
  noRetryAfter fn ->
  forall attempt lastError,
    Forall (fun ms => (ms <= maxDelay)%R)
           (sleepsOf (fst (loop remaining attempt lastError))).
Proof.
  intros Hnone.
  induction remaining as [|remaining IH]; intros attempt lastError; [constructor|].
  unfold loop. rewrite attempts_step.
  destruct (fn attempt) as [v|error] eqn:Hfn; [constructor|].
  destruct ((attempt =? maxRetries) || _); [constructor|].
  specialize (IH (S attempt) (Some error)). unfold loop in IH.
  destruct (attempts fn random Date_parse Date_now maxRetries baseDelay maxDelay
                     remaining (S attempt) (Some error)) as [rest out].
  cbn in *. constructor; [|exact IH].
  apply retryDelay_le_max. intros r Hr. exact (Hnone attempt error r Hfn Hr).
Qed.

End Sleeps.

(** X16. [withRetry] sleeps exactly once between two calls of [fn], so
    it makes one call more than it sleeps. When no failure carries a
    [retry-after] header, no sleep is longer than [maxDelay]
    (30000 ms unless the options say otherwise). *)
Theorem withRetry_sleeps (V : Type) (fn : nat -> Settled V)
    (random : nat -> R) (Date_parse : string -> option Z) (Date_now : nat -> Z)
    (options : Options) :
  let run := withRetry fn random Date_parse Date_now options in
  callCount (fst run) = S (length (sleepsOf (fst run)))
  /\ (noRetryAfter fn ->
      Forall (fun ms => (ms <= maxDelayOf options)%R) (sleepsOf (fst run))).
Proof.
  unfold withRetry, maxDelayOf. cbv zeta. split.
  - apply attempts_one_sleep_between_calls; lia.
  - intros Hnone. now apply attempts_sleeps_le_max.
Qed.

Lemma withRetry_sleeps_witness :
  noRetryAfter (Examples.alwaysFails Examples.rateLimited)
  /\ Forall (fun ms => (ms <= maxDelayOf Examples.oneRetry)%R)
            (sleepsOf (fst (withRetry (Examples.alwaysFails Examples.rateLimited)
                                      (fun _ => 0%R) Examples.noDates (fun _ => 0%Z)
                                      Examples.oneRetry))).
Proof.
  assert (Hnone : noRetryAfter (Examples.alwaysFails Examples.rateLimited)).
  { intros k e r He Hr. unfold Examples.alwaysFails in He.
    injection He as <-. injection Hr as <-. reflexivity. }
  split; [exact Hnone|].
  exact (proj2 (withRetry_sleeps (Examples.alwaysFails Examples.rateLimited)
                  (fun _ => 0%R) Examples.noDates (fun _ => 0%Z) Examples.oneRetry)
               Hnone).
Defined.

(** *** Reading a [retry-after] given in seconds *)

Lemma readDigits_stop (acc : option Z) (rest : string) :
  startsWithDigit rest = false -> readDigits acc rest = acc.
Proof.
  destruct rest as [|c rest]; [reflexivity|]. cbn [startsWithDigit readDigits].
  destruct (digitValue c); [discriminate | reflexivity].
Qed.

Lemma readDigits_uint (d : Decimal.uint) :
  forall (acc : nat) (rest : string),
    startsWithDigit rest = false ->
    readDigits (Some (Z.of_nat acc)) (NilEmpty.string_of_uint d ++ rest)
    = Some (Z.of_nat (Nat.of_uint_acc d acc)).
Proof.
  induction d as [|d IH|d IH|d IH|d IH|d IH|d IH|d IH|d IH|d IH|d IH];
    intros acc rest Hrest;
    [cbn [NilEmpty.string_of_uint append]; now apply readDigits_stop | ..];
    cbn [NilEmpty.string_of_uint append readDigits Nat.of_uint_acc];
    match goal with
    | |- context [digitValue ?c] =>
        let v := eval vm_compute in (digitValue c) in
        change (digitValue c) with v
    end;
    cbv iota beta;
    (etransitivity; [|exact (IH _ rest Hrest)]);
    do 2 f_equal; rewrite ?Nat2Z.inj_succ, Nat.tail_mul_spec, Nat2Z.inj_mul; cbn; lia.
Qed.

Lemma to_uint_nonnil (n : nat) : Nat.to_uint n <> Decimal.Nil.
Proof.
  rewrite <- (DecimalNat.Unsigned.of_to n) at 1.
  rewrite DecimalNat.Unsigned.to_of. apply DecimalFacts.unorm_nonnil.
Qed.

Lemma parseInt10_ofNat (n : nat) (rest : string) :
  startsWithDigit rest = false ->
  parseInt10 (ofNat n ++ rest) = Some (Z.of_nat n)
  /\ truthy (ofNat n ++ rest) = true.
Proof.
  intros Hrest. unfold ofNat.
  pose proof (to_uint_nonnil n) as Hnil.
  pose proof (DecimalNat.Unsigned.of_to n) as Hof. unfold Nat.of_uint in Hof.
  destruct (Nat.to_uint n) as [|d|d|d|d|d|d|d|d|d|d]; [contradiction | ..];
    (split; [|reflexivity]);
    rewrite <- Hof;
    rewrite <- (readDigits_uint _ 0 rest Hrest);
    reflexivity.
Qed.

(** X17. A [retry-after] header that gives a number of seconds in
    decimal digits is read as that many seconds, in milliseconds;
    whatever follows the digits (a unit, a fraction) is ignored, and the
    date parser is not asked. *)
Theorem parseRetryAfter_seconds (Date_parse : string -> option Z) (Date_now : Z)
    (r : Response) (n : nat) (rest : string) :
  headers_get r "retry-after" = Some (ofNat n ++ rest) ->
  startsWithDigit rest = false ->
  parseRetryAfter Date_parse Date_now r = Some (Z.of_nat n * 1000)%Z.
Proof.
  intros Hheader Hrest. unfold parseRetryAfter. rewrite Hheader.
  destruct (parseInt10_ofNat n rest Hrest) as [Hparse Htruthy].
  rewrite Htruthy, Hparse. reflexivity.
Qed.

Lemma parseRetryAfter_seconds_witness :
  (headers_get (retryIn "120 seconds") "retry-after" = Some (ofNat 120 ++ " seconds")
   /\ startsWithDigit " seconds" = false)
  /\ parseRetryAfter Examples.noDates 0 (retryIn "120 seconds")
     = Some (Z.of_nat 120 * 1000)%Z.
Proof.
  split; [split; reflexivity|].
  apply (@parseRetryAfter_seconds Examples.noDates 0%Z (retryIn "120 seconds") 120
           " seconds"); reflexivity.
Defined.

End RetryMore.

(** ** fetchWithRetry *)

Module FetchFacts.

Import JsString.
Import Retry.
Import RetrySpec.
Import FetchWithRetry.
Import RetryFacts.
Local Open Scope string_scope.
Local Open Scope nat_scope.

Lemma toLowerCase_append (a b : string) :
  toLowerCase (a ++ b) = toLowerCase a ++ toLowerCase b.
Proof. induction a as [|c a IH]; cbn [append toLowerCase]; [reflexivity | now rewrite IH]. Qed.

Lemma includes_append (a b pat : string) :
  includes a pat = true -> includes (a ++ b) pat = true.
Proof.
  induction a as [|c a IH]; intros H.
  - cbn [includes] in H. rewrite orb_false_r in H.
    destruct pat; [|discriminate]. destruct (EmptyString ++ b); reflexivity.
  - cbn [includes append] in *. apply orb_true_iff in H. apply orb_true_iff.
    destruct H as [H|H]; [left | right; now apply IH].
    exact (@MarkdownFacts.prefix_append pat (String c a) b H).
Qed.

(** The timeout error is classified as a timeout, whatever the number
    of seconds reads. *)
Lemma classifyError_timeoutError (seconds : string) :
  classifyError (timeoutError seconds) (response (timeoutError seconds)) = TIMEOUT_ERROR.
Proof.
  unfold classifyError, timeoutError. cbn [response message]. unfold classifyMessage.
  rewrite toLowerCase_append.
  assert (H : includes (toLowerCase "Request timed out after "
                        ++ toLowerCase (seconds ++ " seconds")) "timed out" = true)
    by (apply includes_append; reflexivity).
  rewrite H, orb_true_r. reflexivity.
Qed.

Lemma classifyStatus_client (s : nat) :
  s = 400 \/ s = 401 \/ s = 403 ->
  exists t, classifyStatus (Z.of_nat s) = Some t /\ isRetryable t = false.
Proof.
  intros [-> | [-> | ->]]; eexists; split; reflexivity.
Qed.

Lemma classifyStatus_retried (s : nat) :
  s = 429 \/ 500 <= s < 600 ->
  exists t, classifyStatus (Z.of_nat s) = Some t /\ isRetryable t = true.
Proof.
  intros [-> | Hs]; [eexists; split; reflexivity|].
  exists SERVER_ERROR. split; [|reflexivity]. unfold classifyStatus.
  destruct (Z.eqb_spec (Z.of_nat s) 401); [lia|].
  destruct (Z.eqb_spec (Z.of_nat s) 403); [lia|].
  destruct (Z.eqb_spec (Z.of_nat s) 429); [lia|].
  destruct (Z.eqb_spec (Z.of_nat s) 400); [lia|].
  cbn [orb].
  destruct (Z.leb_spec 500 (Z.of_nat s)); [|lia].
  destruct (Z.ltb_spec (Z.of_nat s) 600); [reflexivity | lia].
Qed.

Lemma classifyError_httpError (r : FetchResponse) (t : ErrorType) :
  classifyStatus (Z.of_nat (f_status r)) = Some t ->
  classifyError (httpError r) (response (httpError r)) = t.
Proof.
  intros H. unfold classifyError, httpError. cbn [response asResponse status].
  now rewrite H.
Qed.

Lemma attempts_head (V : Type) (fn : nat -> Settled V) (random : nat -> R)
    (Date_parse : string -> option Z) (Date_now : nat -> Z)
    (maxRetries : nat) (baseDelay maxDelay : R)
    (remaining attempt : nat) (lastError : option JsError) :
  exists rest,
    fst (attempts fn random Date_parse Date_now maxRetries baseDelay maxDelay
                  (S remaining) attempt lastError) = Call attempt :: rest.
Proof.
  rewrite attempts_step.
  destruct (fn attempt) as [v|error]; [now exists []|].
  destruct ((attempt =? maxRetries) || _); [now exists []|].
  cbv zeta.
  destruct (attempts fn random Date_parse Date_now maxRetries baseDelay maxDelay
                     remaining (S attempt) (Some error)) as [rest out].
  eexists. reflexivity.
Qed.

(** X18. When every request runs into the timeout, [fetchWithRetry]
    tries [maxRetries + 1] times, sleeping in between, and then throws
    the timeout error, which names the timeout in seconds. *)
Theorem fetchWithRetry_timeouts (fetch : nat -> Fetch) (seconds : string)
    (random : nat -> R) (Date_parse : string -> option Z) (Date_now : nat -> Z)
    (options : Options) :
  (forall k, k <= maxRetriesOf options -> exists msg, fetch k = Failed "AbortError" msg) ->
  let run := fetchWithRetry fetch seconds random Date_parse Date_now options in
  snd run = Thrown (Some (timeoutError seconds))
  /\ callCount (fst run) = maxRetriesOf options + 1
  /\ length (sleepsOf (fst run)) = maxRetriesOf options.
Proof.
  intros Habort. unfold fetchWithRetry, withRetry, maxRetriesOf in *.
  set (maxRetries := match opt_maxRetries options with Some n => n | None => 3 end) in *.
  cbv zeta.
  assert (Hfn : forall k, k <= maxRetries ->
            attemptFetch seconds (fetch k) = Rejected (timeoutError seconds)).
  { intros k Hk. destruct (Habort k Hk) as [msg ->]. reflexivity. }
  rewrite Nat.add_1_r.
  apply attempts_terminal with (attempt := 0); cbn [Nat.add].
  - lia.
  - intros j Hj. split; [|lia].
    exists (timeoutError seconds). split; [apply Hfn; lia|].
    now rewrite classifyError_timeoutError.
  - apply Hfn. lia.
  - left. reflexivity.
Qed.

Lemma fetchWithRetry_timeouts_witness :
  (forall k, k <= maxRetriesOf Examples.oneRetry ->
     exists msg, FetchExamples.alwaysAborted k = Failed "AbortError" msg)
  /\ (let run := fetchWithRetry FetchExamples.alwaysAborted "30" (fun _ => 0%R)
                                Examples.noDates (fun _ => 0%Z) Examples.oneRetry in
      snd run = Thrown (Some (timeoutError "30"))
      /\ callCount (fst run) = maxRetriesOf Examples.oneRetry + 1
      /\ length (sleepsOf (fst run)) = maxRetriesOf Examples.oneRetry).
Proof.
  assert (H : forall k, k <= maxRetriesOf Examples.oneRetry ->
                exists msg, FetchExamples.alwaysAborted k = Failed "AbortError" msg)
    by (intros k _; eexists; reflexivity).
  split; [exact H|].
  exact (@fetchWithRetry_timeouts FetchExamples.alwaysAborted "30" (fun _ => 0%R)
           Examples.noDates (fun _ => 0%Z) Examples.oneRetry H).
Defined.

(** X19. The status of the first answer decides what [fetchWithRetry]
    does with it. A 2xx answer is returned after that one request. A
    400, 401 or 403 answer is thrown after that one request, without
    a sleep, whatever its body says. A 429 or 5xx answer is followed by
    a sleep and a second request when a retry is allowed. *)
Theorem fetchWithRetry_status (fetch : nat -> Fetch) (seconds : string)
    (random : nat -> R) (Date_parse : string -> option Z) (Date_now : nat -> Z)
    (options : Options) (r : FetchResponse) :
  fetch 0 = Fetched r ->
  let run := fetchWithRetry fetch seconds random Date_parse Date_now options in
  (ok r = true -> run = ([Call 0], Returned r))
  /\ (f_status r = 400 \/ f_status r = 401 \/ f_status r = 403 ->
      run = ([Call 0], Thrown (Some (httpError r))))
  /\ (f_status r = 429 \/ 500 <= f_status r < 600 ->
      1 <= maxRetriesOf options ->
      exists delay rest,
        fst run = Call 0 :: OnRetry 0 (httpError r) delay :: Sleep delay :: Call 1 :: rest).
Proof.
  intros Hfetch. unfold fetchWithRetry, withRetry, maxRetriesOf.
  set (maxRetries := match opt_maxRetries options with Some n => n | None => 3 end).
  cbv zeta. rewrite attempts_step, Hfetch. cbn [attemptFetch].
  split; [|split].
  - intros ->. reflexivity.
  - intros Hs.
    assert (Hok : ok r = false).
    { unfold ok. destruct Hs as [-> | [-> | ->]]; reflexivity. }
    destruct (classifyStatus_client Hs) as (t & Ht & Hno).
    rewrite Hok, (classifyError_httpError _ Ht), Hno, orb_true_r. reflexivity.
  - intros Hs Hmax.
    assert (Hok : ok r = false).
    { unfold ok. destruct (f_status r <=? 299) eqn:Hle; [|apply andb_false_r].
      apply Nat.leb_le in Hle. lia. }
    destruct (classifyStatus_retried Hs) as (t & Ht & Hyes).
    rewrite Hok, (classifyError_httpError _ Ht), Hyes.
    assert (Hne : (0 =? maxRetries) = false) by (apply Nat.eqb_neq; lia).
    rewrite Hne. cbn [orb negb].
    destruct maxRetries as [|m]; [lia|].
    destruct (@attempts_head _ (fun attempt => attemptFetch seconds (fetch attempt))
                random Date_parse Date_now (S m)
                (orDefault (opt_baseDelay options) 1000)
                (orDefault (opt_maxDelay options) 30000) m 1 (Some (httpError r)))
      as [rest Hrest].
    destruct (attempts _ random Date_parse Date_now (S m) _ _ (S m) 1 (Some (httpError r)))
      as [tr out].
    cbn [fst] in *. subst tr. eexists _, rest. reflexivity.
Qed.

Lemma fetchWithRetry_status_witness :
  ((fun _ => Fetched FetchExamples.created) 0 = Fetched FetchExamples.created
   /\ ok FetchExamples.created = true
   /\ (fun _ => Fetched FetchExamples.unauthorized) 0 = Fetched FetchExamples.unauthorized
   /\ f_status FetchExamples.unauthorized = 401
   /\ (fun _ => Fetched FetchExamples.unavailable) 0 = Fetched FetchExamples.unavailable
   /\ 500 <= f_status FetchExamples.unavailable < 600
   /\ 1 <= maxRetriesOf Examples.oneRetry)
  /\ fetchWithRetry (fun _ => Fetched FetchExamples.created) "30" (fun _ => 0%R)
                    Examples.noDates (fun _ => 0%Z) Examples.oneRetry
     = ([Call 0], Returned FetchExamples.created)
  /\ fetchWithRetry (fun _ => Fetched FetchExamples.unauthorized) "30" (fun _ => 0%R)
                    Examples.noDates (fun _ => 0%Z) Examples.oneRetry
     = ([Call 0], Thrown (Some (httpError FetchExamples.unauthorized)))
  /\ exists delay rest,
       fst (fetchWithRetry (fun _ => Fetched FetchExamples.unavailable) "30"
                           (fun _ => 0%R) Examples.noDates (fun _ => 0%Z)
                           Examples.oneRetry)
       = Call 0 :: OnRetry 0 (httpError FetchExamples.unavailable) delay
                :: Sleep delay :: Call 1 :: rest.
Proof.
  split; [repeat split; cbn; lia|].
  split; [|split].
  - apply (proj1 (@fetchWithRetry_status (fun _ => Fetched FetchExamples.created) "30"
                    (fun _ => 0%R) Examples.noDates (fun _ => 0%Z) Examples.oneRetry
                    FetchExamples.created eq_refl)).
    reflexivity.
  - apply (proj1 (proj2 (@fetchWithRetry_status
                           (fun _ => Fetched FetchExamples.unauthorized) "30"
                           (fun _ => 0%R) Examples.noDates (fun _ => 0%Z)
                           Examples.oneRetry FetchExamples.unauthorized eq_refl))).
    right. left. reflexivity.
  - apply (proj2 (proj2 (@fetchWithRetry_status
                           (fun _ => Fetched FetchExamples.unavailable) "30"
                           (fun _ => 0%R) Examples.noDates (fun _ => 0%Z)
                           Examples.oneRetry FetchExamples.unavailable eq_refl))).
    + right. cbn. lia.
    + cbn. lia.
Defined.

End FetchFacts.

(** ** analyzeObject *)

Module AnalyzeObjectFacts.

Import JsString.
Import TokenTracker.
Import Analyzer.
Import Markdown.
Import AnalyzeObject.
Local Open Scope string_scope.
Local Open Scope nat_scope.

Lemma maxTokensFor_range (maxCharsPerObject : option nat) :
  1 <= maxTokensFor maxCharsPerObject <= 100.
Proof.
  unfold maxTokensFor. cbv zeta.
  destruct (Nat.eqb_spec (match maxCharsPerObject with Some n => n / 4 | None => 0 end) 0);
    lia.
Qed.

(** X20. [analyzeObject] asks the provider for between 1 and 100
    tokens. A failure of the provider is passed on as it is. An answer,
    in the old or the new format, gives a text of at most
    [maxCharsPerObject] characters (300 when that is missing or zero; 3
    when it is smaller than 3) and the usage that the provider
    reported, none for the old format; an answer that fits is kept
    unchanged. *)
Theorem analyzeObject_bounds (buildObjectPrompt : SheetObject -> string)
    (generateSummary : string -> nat -> Settled ProviderResult)
    (obj : SheetObject) (maxCharsPerObject : option nat) :
  let asked := generateSummary (buildObjectPrompt obj) (maxTokensFor maxCharsPerObject) in
  let run := analyzeObject buildObjectPrompt generateSummary obj maxCharsPerObject in
  1 <= maxTokensFor maxCharsPerObject <= 100
  /\ (forall e, asked = Retry.Rejected e -> run = Retry.Rejected e)
  /\ (forall answer, asked = Retry.Resolved answer ->
      exists result,
        run = Retry.Resolved result
        /\ String.length (text result) <= Nat.max (maxCharsFor maxCharsPerObject) 3
        /\ usage result = match answer with PlainText _ => None | WithUsage r => usage r end
        /\ (let answered := match answer with PlainText s => s | WithUsage r => text r end in
            String.length answered <= maxCharsFor maxCharsPerObject ->
            text result = answered)).
Proof.
  cbv zeta. split; [apply maxTokensFor_range|]. unfold analyzeObject. cbv zeta. split.
  - intros e ->. reflexivity.
  - intros answer ->.
    set (answered := match answer with PlainText s => s | WithUsage r => text r end).
    eexists. split; [reflexivity|]. cbn [text usage].
    split; [|split; [reflexivity|]].
    + destruct (Nat.ltb_spec (maxCharsFor maxCharsPerObject) (String.length answered))
        as [Hlong | Hfits].
      * apply MarkdownFacts.smartTruncate_long. exact Hlong.
      * lia.
    + intros Hfits. apply Nat.ltb_ge in Hfits. now rewrite Hfits.
Qed.

Lemma analyzeObject_bounds_witness :
  (MoreExamples.wordyProvider (MoreExamples.promptFor (AnalyzerExamples.chart 0))
                              (maxTokensFor (Some 20))
   = Retry.Resolved
       (WithUsage {| text := "Sales grew by **12%** compared to the last quarter";
                     usage := Some AnalyzerExamples.tenAndFive |}))
  /\ exists result,
       analyzeObject MoreExamples.promptFor MoreExamples.wordyProvider
                     (AnalyzerExamples.chart 0) (Some 20)
       = Retry.Resolved result
       /\ String.length (text result) <= Nat.max (maxCharsFor (Some 20)) 3
       /\ usage result = Some AnalyzerExamples.tenAndFive
       /\ (String.length "Sales grew by **12%** compared to the last quarter"
           <= maxCharsFor (Some 20) ->
           text result = "Sales grew by **12%** compared to the last quarter").
Proof.
  split; [reflexivity|].
  exact (proj2 (proj2 (@analyzeObject_bounds MoreExamples.promptFor
                         MoreExamples.wordyProvider (AnalyzerExamples.chart 0) (Some 20)))
               _ eq_refl).
Defined.

End AnalyzeObjectFacts.

(** ** Footnotes *)

Module FootnotesFacts.

Import JsString.
Import Analyzer.
Import Footnotes.
Import FootnoteNotions.
Local Open Scope string_scope.
Local Open Scope nat_scope.

Section Updates.

Variable updateObjectFootnote : nat -> Update -> Settled unit.

Let try := attempt updateObjectFootnote.

Lemma attempts_account (us : list Update) :
  forall results,
    let after := fold_left try us results in
    updates after = (updates results ++ us)%list
    /\ errors after
       = (errors results
          ++ failuresFrom updateObjectFootnote (length (updates results)) us)%list
    /\ failed after
       = failed results
         + length (failuresFrom updateObjectFootnote (length (updates results)) us)
    /\ success after + failed after = success results + failed results + length us.
Proof.
  induction us as [|u us IH]; intros results; cbn [fold_left failuresFrom].
  - cbv zeta. rewrite !app_nil_r. cbn. repeat split; lia.
  - specialize (IH (try results u)). cbv zeta in IH |- *.
    unfold try, attempt in IH |- *.
    destruct (updateObjectFootnote (length (updates results)) u) as [v|err];
      cbn [updates errors failed success] in IH;
      rewrite length_app, Nat.add_1_r in IH; cbn [length Nat.add] in IH;
      destruct IH as (Hupdates & Herrors & Hfailed & Hcount);
      rewrite <- app_assoc in Hupdates; try rewrite <- app_assoc in Herrors;
      cbn [app length] in *;
      (split; [exact Hupdates|]); (split; [exact Herrors|]); split; lia.
Qed.

Lemma fold_left_map (A B C : Type) (f : A -> B -> A) (g : C -> B)
    (l : list C) (a : A) :
  fold_left (fun acc x => f acc (g x)) l a = fold_left f (map g l) a.
Proof. revert a. induction l as [|x l IH]; intros a; cbn; [reflexivity | apply IH]. Qed.

Variable toLocaleString : string -> string.

(** X21. [injectFootnotes] asks for one update for every summary
    without error, in the order of the summaries, and goes on after
    an update that fails. The two counters add up to the number of
    these summaries; [failed] is the number of entries in [errors],
    which are the failed updates in order, each with the object's id
    and the error's message. *)
Theorem injectFootnotes_accounts (objectSummaries : list ObjectSummary) :
  let valid := filter (fun obj => negb (error obj)) objectSummaries in
  let results := injectFootnotes updateObjectFootnote toLocaleString objectSummaries in
  updates results = map (footnoteFor toLocaleString) valid
  /\ success results + failed results = length valid
  /\ failed results = length (errors results)
  /\ errors results = failuresFrom updateObjectFootnote 0 (updates results).
Proof.
  cbv zeta. unfold injectFootnotes. cbv zeta.
  rewrite (fold_left_map (attempt updateObjectFootnote) (footnoteFor toLocaleString)).
  destruct (attempts_account
              (map (footnoteFor toLocaleString)
                   (filter (fun obj => negb (error obj)) objectSummaries))
              noResults) as (Hupdates & Herrors & Hfailed & Hcount).
  cbn [noResults updates errors failed success length app Nat.add] in *.
  fold try. split; [exact Hupdates|]. split; [|split].
  - rewrite Hcount, length_map. reflexivity.
  - rewrite Hfailed, Herrors. reflexivity.
  - rewrite Herrors, Hupdates. reflexivity.
Qed.

(** X22. [clearFootnotes] writes the empty footnote, and only that,
    to every summary that has no error and an id, in order; a summary
    with an error or without an id is never touched. Its counters
    account for the updates as those of [injectFootnotes] do. *)
Theorem clearFootnotes_accounts (objectSummaries : list ObjectSummary) :
  let results := clearFootnotes updateObjectFootnote objectSummaries in
  updates results
  = map clearOf
        (filter (fun obj => negb (error obj) && truthy (s_id obj)) objectSummaries)
  /\ Forall (fun u => footnote u = "" /\ target u <> "") (updates results)
  /\ success results + failed results = length (updates results)
  /\ failed results = length (errors results)
  /\ errors results = failuresFrom updateObjectFootnote 0 (updates results).
Proof.
  cbv zeta. unfold clearFootnotes. cbv zeta.
  change (fun (results : Results) (obj : ObjectSummary) =>
            attempt updateObjectFootnote results {| target := s_id obj; footnote := "" |})
    with (fun (results : Results) (obj : ObjectSummary) =>
            attempt updateObjectFootnote results (clearOf obj)).
  rewrite (fold_left_map (attempt updateObjectFootnote) clearOf).
  destruct (attempts_account
              (map clearOf
                   (filter (fun obj => negb (error obj) && truthy (s_id obj))
                           objectSummaries))
              noResults) as (Hupdates & Herrors & Hfailed & Hcount).
  cbn [noResults updates errors failed success length app Nat.add] in *.
  fold try. split; [exact Hupdates|]. split; [|split; [|split]].
  2: now rewrite Hcount, Hupdates.
  2: now rewrite Hfailed, Herrors.
  2: now rewrite Herrors, Hupdates.
  rewrite Hupdates. apply Forall_forall. intros u Hu. apply in_map_iff in Hu.
  destruct Hu as (obj & <- & Hobj). apply filter_In in Hobj.
  destruct Hobj as [_ Hok]. apply andb_true_iff in Hok. destruct Hok as [_ Hid].
  split; [reflexivity|]. cbn [clearOf target]. intros Hempty.
  rewrite Hempty in Hid. discriminate.
Qed.

End Updates.

End FootnotesFacts.

(** ** The comparison of two analyses *)

Module ComparisonFacts.

Import JsString.
Import Analyzer.
Import Comparison.
Import ComparisonNotions.
Local Open Scope string_scope.
Local Open Scope nat_scope.

Lemma lookupId_None (id : string) (l : list ObjectSummary) :
  lookupId id l = None <-> ~ In id (map s_id l).
Proof.
  induction l as [|obj l IH]; cbn [lookupId map In]; [tauto|].
  destruct (lookupId id l) as [later|].
  - split; [discriminate|]. intros H. exfalso. apply H. right.
    destruct (in_dec string_dec id (map s_id l)) as [Hin|Hout]; [exact Hin|].
    apply IH in Hout. discriminate.
  - destruct (String.eqb_spec id (s_id obj)) as [-> | Hne].
    + split; [discriminate | intros H; exfalso; apply H; now left].
    + split; [|reflexivity]. intros _ [Heq | Hin]; [congruence|].
      now apply (proj1 IH eq_refl).
Qed.

Lemma lookupId_Some (id : string) (l : list ObjectSummary) (p : ObjectSummary) :
  lookupId id l = Some p -> In p l /\ s_id p = id.
Proof.
  induction l as [|obj l IH]; cbn [lookupId In]; [discriminate|].
  destruct (lookupId id l) as [later|].
  - intros [= <-]. destruct (IH eq_refl). auto.
  - destruct (String.eqb_spec id (s_id obj)) as [-> | Hne]; [|discriminate].
    intros [= <-]. auto.
Qed.

Lemma lookupId_unique (l : list ObjectSummary) (obj : ObjectSummary) :
  NoDup (map s_id l) -> In obj l -> lookupId (s_id obj) l = Some obj.
Proof.
  induction l as [|o l IH]; cbn [map In lookupId]; [contradiction|].
  intros Hnd Hin. inversion Hnd as [|? ? Hfresh Hrest]; subst.
  destruct Hin as [-> | Hin].
  - apply lookupId_None in Hfresh. rewrite Hfresh, String.eqb_refl. reflexivity.
  - now rewrite (IH Hrest Hin).
Qed.

Lemma negb_isSome_lookupId (id : string) (l : list ObjectSummary) :
  negb (isSome (lookupId id l)) = true <-> ~ In id (map s_id l).
Proof.
  rewrite <- lookupId_None. destruct (lookupId id l); cbn; split; congruence.
Qed.

Lemma filter_nil_iff (A : Type) (f : A -> bool) (l : list A) :
  (forall x, In x l -> f x = false) -> filter f l = [].
Proof.
  induction l as [|x l IH]; intros H; cbn; [reflexivity|].
  rewrite (H x (or_introl eq_refl)). apply IH. intros y Hy. apply H. now right.
Qed.

Lemma flat_map_nil_iff (A B : Type) (f : A -> list B) (l : list A) :
  (forall x, In x l -> f x = []) -> flat_map f l = [].
Proof.
  induction l as [|x l IH]; intros H; cbn; [reflexivity|].
  rewrite (H x (or_introl eq_refl)). apply IH. intros y Hy. apply H. now right.
Qed.

(** X23. [generateComparison] sorts the summaries by id: the new
    objects are the current summaries whose id no previous summary has,
    the removed objects are the previous summaries whose id no current
    summary has, and every changed object has an id found on both
    sides, with two different summaries. No current summary is
    reported twice. *)
Theorem generateComparison_by_id (previous current : SheetAnalysis) :
  plainIds previous -> plainIds current ->
  exists c,
    generateComparison (Some previous) (Some current) = Some c
    /\ (forall obj, In obj (newObjects c) <->
                    In obj (r_objectSummaries current) /\ ~ In (s_id obj) (ids previous))
    /\ (forall obj, In obj (removedObjects c) <->
                    In obj (r_objectSummaries previous) /\ ~ In (s_id obj) (ids current))
    /\ (forall ch, In ch (changedObjects c) ->
                   In (c_id ch) (ids previous) /\ In (c_id ch) (ids current)
                   /\ previousSummary ch <> currentSummary ch)
    /\ length (newObjects c) + length (changedObjects c)
       <= length (r_objectSummaries current).
Proof.
  intros _ _. eexists. split; [reflexivity|].
  cbn [newObjects removedObjects changedObjects]. unfold ids.
  split; [|split; [|split]].
  - intros obj. rewrite filter_In, negb_isSome_lookupId. tauto.
  - intros obj. rewrite filter_In, negb_isSome_lookupId. tauto.
  - intros ch Hch. apply in_flat_map in Hch. destruct Hch as (obj & Hobj & Hch).
    destruct (lookupId (s_id obj) (r_objectSummaries previous)) as [p|] eqn:Hp;
      [|contradiction].
    destruct (String.eqb_spec (summary p) (summary obj)) as [Heq | Hne]; [contradiction|].
    destruct Hch as [<- | []]. cbn [c_id previousSummary currentSummary].
    split; [|split; [now apply in_map | exact Hne]].
    destruct (lookupId_Some _ _ Hp) as [Hin <-]. now apply in_map.
  - induction (r_objectSummaries current) as [|obj l IH]; cbn [filter flat_map length];
      [lia|].
    rewrite length_app.
    destruct (lookupId (s_id obj) (r_objectSummaries previous)) as [p|];
      cbn [isSome negb length].
    + destruct (String.eqb (summary p) (summary obj)); cbn [length]; lia.
    + lia.
Qed.

Lemma generateComparison_by_id_witness :
  (plainIds MoreExamples.yesterday /\ plainIds MoreExamples.today)
  /\ exists c,
       generateComparison (Some MoreExamples.yesterday) (Some MoreExamples.today) = Some c
       /\ (forall obj, In obj (newObjects c) <->
                       In obj (r_objectSummaries MoreExamples.today)
                       /\ ~ In (s_id obj) (ids MoreExamples.yesterday))
       /\ (forall obj, In obj (removedObjects c) <->
                       In obj (r_objectSummaries MoreExamples.yesterday)
                       /\ ~ In (s_id obj) (ids MoreExamples.today))
       /\ (forall ch, In ch (changedObjects c) ->
                      In (c_id ch) (ids MoreExamples.yesterday)
                      /\ In (c_id ch) (ids MoreExamples.today)
                      /\ previousSummary ch <> currentSummary ch)
       /\ length (newObjects c) + length (changedObjects c)
          <= length (r_objectSummaries MoreExamples.today).
Proof.
  assert (Hprev : plainIds MoreExamples.yesterday).
  { repeat constructor; try own_key; cbn; intuition discriminate. }
  assert (Hcurr : plainIds MoreExamples.today).
  { repeat constructor; try own_key; cbn; intuition discriminate. }
  split; [split; assumption|].
  exact (generateComparison_by_id Hprev Hcurr).
Defined.

(** X24. An analysis compared with itself shows no difference, as long
    as no two of its summaries share an id: nothing is new, removed or
    changed, and the sheet summary counts as unchanged. *)
Theorem generateComparison_self (a : SheetAnalysis) :
  plainIds a ->
  NoDup (ids a) ->
  generateComparison (Some a) (Some a)
  = Some {| changedObjects := []; newObjects := []; removedObjects := [];
            previousTimestamp := r_timestamp a;
            sheetSummaryChanged := false;
            previousSheetSummary := sheetSummary a |}.
Proof.
  intros _ Hnd. unfold generateComparison, ids in *.
  assert (Hsame : forall obj, In obj (r_objectSummaries a) ->
            negb (isSome (lookupId (s_id obj) (r_objectSummaries a))) = false).
  { intros obj Hobj. now rewrite (lookupId_unique _ _ Hnd Hobj). }
  rewrite (filter_nil_iff _ _ Hsame), String.eqb_refl.
  rewrite flat_map_nil_iff; [reflexivity|].
  intros obj Hobj. rewrite (lookupId_unique _ _ Hnd Hobj), String.eqb_refl. reflexivity.
Qed.

Lemma generateComparison_self_witness :
  (plainIds MoreExamples.today /\ NoDup (ids MoreExamples.today))
  /\ generateComparison (Some MoreExamples.today) (Some MoreExamples.today)
     = Some {| changedObjects := []; newObjects := []; removedObjects := [];
               previousTimestamp := r_timestamp MoreExamples.today;
               sheetSummaryChanged := false;
               previousSheetSummary := sheetSummary MoreExamples.today |}.
Proof.
  assert (Hplain : plainIds MoreExamples.today).
  { repeat constructor; try own_key; cbn; intuition discriminate. }
  assert (Hnd : NoDup (ids MoreExamples.today)).
  { repeat constructor; try own_key; cbn; intuition discriminate. }
  split; [split; assumption|].
  exact (generateComparison_self Hplain Hnd).
Defined.

End ComparisonFacts.

(** ** Presets and truncation of the prompt *)

Module PresetFacts.

Import JsString.
Import Analyzer.
Import ObjectFilter.
Import Notions.
Local Open Scope string_scope.
Local Open Scope nat_scope.

(** X25. Without type strings every preset other than [all] gives the
    common types; that holds for the preset [tables] too, whose list
    the code never reads. *)
Theorem getIncludedTypes_fallback (f : FilterConfig) :
  preset f <> Some "all" ->
  presentString (customTypes f) = None ->
  presentString (includedTypes f) = None ->
  getIncludedTypes (Some f) = PRESETS_common.
Proof.
  intros Hall Hcustom Hlegacy. unfold getIncludedTypes.
  rewrite Hcustom, Hlegacy.
  destruct (String.eqb_spec
              (match presentString (preset f) with Some p => p | None => "common" end)
              "all") as [Heq | _].
  - exfalso. apply Hall. unfold presentString in Heq.
    destruct (preset f) as [p|]; [|discriminate].
    destruct p; [discriminate|]. cbn [truthy] in Heq. now rewrite Heq.
  - destruct (String.eqb _ "custom"); [reflexivity|].
    destruct (String.eqb _ "common"); reflexivity.
Qed.

Lemma getIncludedTypes_fallback_witness :
  (preset MoreExamples.tablesPreset <> Some "all"
   /\ presentString (customTypes MoreExamples.tablesPreset) = None
   /\ presentString (includedTypes MoreExamples.tablesPreset) = None)
  /\ getIncludedTypes (Some MoreExamples.tablesPreset) = PRESETS_common.
Proof.
  assert (H : preset MoreExamples.tablesPreset <> Some "all") by discriminate.
  split; [split; [exact H | split; reflexivity]|].
  exact (@getIncludedTypes_fallback MoreExamples.tablesPreset H eq_refl eq_refl).
Defined.

(** X26. No preset lists a type that is never analysed, so with a
    preset the filter keeps exactly the objects of a listed type whose
    id is not excluded. *)
Theorem presets_analyzable (objects : list SheetObject) (config : option FilterConfig) :
  Forall (fun t => isAnalyzable t = true) (PRESETS_all ++ PRESETS_common ++ PRESETS_tables)
  /\ (getIncludedTypes config = PRESETS_all \/ getIncludedTypes config = PRESETS_common ->
      filterObjects objects config
      = filter (fun obj => negb (contains (configuredIds config) (obj_id obj))
                           && contains (getIncludedTypes config) (obj_type obj))
               objects).
Proof.
  assert (Hall : Forall (fun t => isAnalyzable t = true)
                        (PRESETS_all ++ PRESETS_common ++ PRESETS_tables))
    by (repeat constructor).
  split; [exact Hall|].
  intros Hpreset. unfold filterObjects. fold (configuredIds config).
  apply filter_ext. intros obj. unfold keeps.
  destruct (contains (configuredIds config) (obj_id obj)); [reflexivity|].
  cbn [negb andb].
  destruct (contains excludedBaseTypes (obj_type obj)) eqn:Hbase; [|reflexivity].
  destruct (contains (getIncludedTypes config) (obj_type obj)) eqn:Hin; [|reflexivity].
  exfalso. apply ObjectFilterFacts.contains_In in Hin.
  assert (Hok : isAnalyzable (obj_type obj) = true).
  { rewrite Forall_forall in Hall. apply Hall.
    destruct Hpreset as [Heq | Heq]; rewrite Heq in Hin.
    - apply in_or_app. now left.
    - apply in_or_app. right. apply in_or_app. now left. }
  unfold isAnalyzable in Hok. rewrite Hbase in Hok. discriminate.
Qed.

Lemma presets_analyzable_witness :
  (getIncludedTypes None = PRESETS_all \/ getIncludedTypes None = PRESETS_common)
  /\ filterObjects [FilterExamples.container7; AnalyzerExamples.chart 1] None
     = filter (fun obj => negb (contains (configuredIds None) (obj_id obj))
                          && contains (getIncludedTypes None) (obj_type obj))
              [FilterExamples.container7; AnalyzerExamples.chart 1].
Proof.
  assert (H : getIncludedTypes None = PRESETS_all \/ getIncludedTypes None = PRESETS_common)
    by (right; reflexivity).
  split; [exact H|].
  exact (proj2 (presets_analyzable [FilterExamples.container7; AnalyzerExamples.chart 1]
                                   None) H).
Defined.

(** X27. [truncate] of the prompt builder leaves a string that fits
    unchanged and cuts a longer one to exactly [maxLen] characters, the
    last two of which are dots, as soon as [maxLen] is at least two. *)
Theorem truncate_fits (s : string) (maxLen : nat) :
  (String.length s <= maxLen -> PromptBuilder.truncate (Some s) maxLen = s)
  /\ (maxLen < String.length s -> 2 <= maxLen ->
      String.length (PromptBuilder.truncate (Some s) maxLen) = maxLen
      /\ exists body, PromptBuilder.truncate (Some s) maxLen = body ++ "..").
Proof.
  unfold PromptBuilder.truncate. split.
  - intros H. destruct s as [|c s]; [reflexivity|]. cbn [truthy negb].
    apply Nat.leb_le in H. now rewrite H.
  - intros Hlong Hmax.
    destruct s as [|c s]; [cbn in Hlong; lia|]. cbn [truthy negb].
    apply Nat.leb_gt in Hlong as Hb. rewrite Hb.
    split; [|eexists; reflexivity].
    rewrite MarkdownFacts.length_append.
    assert (Htake : forall n t, n <= String.length t ->
              String.length (JsText.take n t) = n).
    { induction n as [|n IH]; intros [|x t] Hn; cbn in *; try lia.
      rewrite IH; lia. }
    rewrite Htake by lia. cbn. lia.
Qed.

Lemma truncate_fits_witness :
  (String.length "Revenue" <= 10
   /\ 10 < String.length "Revenue by region and year"
   /\ 2 <= 10)
  /\ PromptBuilder.truncate (Some "Revenue") 10 = "Revenue"
  /\ String.length (PromptBuilder.truncate (Some "Revenue by region and year") 10) = 10
  /\ exists body,
       PromptBuilder.truncate (Some "Revenue by region and year") 10 = body ++ "..".
Proof.
  split; [cbn; lia|].
  split.
  - apply (proj1 (truncate_fits "Revenue" 10)). cbn. lia.
  - apply (proj2 (truncate_fits "Revenue by region and year" 10)); cbn; lia.
Defined.

End PresetFacts.
